(** * A shallow embedding of the practice-management REST backend

    The development follows the source tree:
    - [db/connection.js]: the placeholder translator, the query wrapper, the
      connection adapter and [getOrCreate];
    - [routes/*.js]: the CRUD handlers of the six resources;
    - [routes/upload.js]: the bulk import.

    JavaScript strings are modelled as [string] (a sequence of code units; the
    statement texts of this program are ASCII), objects used as rows as
    [gmap string value], arrays as lists.  Asynchronous code runs to
    completion one request at a time, so [await] is sequencing in a monad
    carrying the world (database, heap of caller-owned objects, event log)
    and JavaScript exceptions. *)

From Stdlib Require Import Ascii String.
From stdpp Require Import gmap strings list pretty.

Local Open Scope string_scope.
Local Open Scope list_scope.

(** ** Strings: [String.prototype.replace] with the pattern [/\?/g] *)

Module JsString.

Definition is_mark (c : ascii) : bool := Ascii.eqb c "?"%char.

(** [s.replace(/\?/g, cb)]: the string is scanned from left to right; at
    every marker the callback receives the offset of the match (its second
    argument) and returns the replacement text, which is inserted as it is.
    [St] is the state the callback closes over. *)
Fixpoint replace_marks {St : Type} (cb : nat → St → string * St)
    (offset : nat) (st : St) (s : string) : string * St :=
  match s with
  | EmptyString => (EmptyString, st)
  | String c rest =>
      if is_mark c then
        let '(rep, st1) := cb offset st in
        let '(out, st2) := replace_marks cb (S offset) st1 rest in
        (rep +:+ out, st2)
      else
        let '(out, st1) := replace_marks cb (S offset) st rest in
        (String c out, st1)
  end.

(** Number of generic markers of a statement. *)
Fixpoint count_marks (s : string) : nat :=
  match s with
  | EmptyString => 0
  | String c rest => (if is_mark c then 1 else 0) + count_marks rest
  end.

Definition mark_free (s : string) : Prop := count_marks s = 0.

(** The text before the first marker, and the texts that follow each
    marker, in order. *)
Fixpoint split_marks (s : string) : string * list string :=
  match s with
  | EmptyString => (EmptyString, [])
  | String c rest =>
      let '(hd, tl) := split_marks rest in
      if is_mark c then (EmptyString, hd :: tl) else (String c hd, tl)
  end.

(** [hd ? p1 ? p2 ...]: the pieces glued back with the generic marker. *)
Fixpoint join_marks (tl : list string) : string :=
  match tl with
  | [] => EmptyString
  | p :: tl' => String "?"%char (p +:+ join_marks tl')
  end.

(** [$k p1 $(k+1) p2 ...]: the pieces glued with numbered markers. *)
Fixpoint join_numbered (k : nat) (tl : list string) : string :=
  match tl with
  | [] => EmptyString
  | p :: tl' => "$" +:+ pretty k +:+ p +:+ join_numbered (S k) tl'
  end.

(** Whether every character of [s] is ASCII; on such a string an offset
    counts the same characters as in JavaScript. *)
Fixpoint ascii_only (s : string) : bool :=
  match s with
  | EmptyString => true
  | String c rest => (nat_of_ascii c <? 128)%nat && ascii_only rest
  end.

End JsString.

Import JsString.

(** ** [db/connection.js]: the placeholder translator *)

(** [const convertQuestionMarksToDollarSigns = (sql) => {
       let index = 0;
       return sql.replace(/\?/g, () => `$${++index}`);
     };] *)
Definition convertQuestionMarksToDollarSigns (sql : string) : string :=
  fst (replace_marks (λ _ index, ("$" +:+ pretty (S index), S index)) 0 0 sql).

(** ** Data model: values, records, statement parameters *)

(** A scalar stored in a field of a row: JavaScript's [undefined] and [null],
    a number (the integers of the program: identifiers, ages, day counts,
    spreadsheet serial dates), a string, or a [Date] (milliseconds since the
    epoch, [None] for an invalid date). *)
Inductive value : Type :=
| VUndefined
| VNull
| VNum (n : Z)
| VStr (s : string)
| VDate (ms : option Z).

(** A Record: a JavaScript object used as a row, from field name to value. *)
Abbreviation record := (gmap string value).

(** [r[k]]: a missing property reads as [undefined]. *)
Definition get_field (r : record) (k : string) : value :=
  default VUndefined (r !! k).

(** Equality of two scalars, as a server compares a column with a key. *)
Definition same_value (a b : value) : bool :=
  match a, b with
  | VUndefined, VUndefined | VNull, VNull => true
  | VNum m, VNum n => (m =? n)%Z
  | VStr s, VStr t => String.eqb s t
  | VDate (Some m), VDate (Some n) => (m =? n)%Z
  | VDate None, VDate None => true
  | _, _ => false
  end.

(** The rows, among those a table holds, whose [field] equals [key]: what a
    select by that field returns, in the order of the table. *)
Definition matching (field : string) (key : value) (rows : list record)
    : list record :=
  List.filter (λ row, same_value (get_field row field) key) rows.

(** An element of a parameter array is a scalar or a whole object
    ([[practicaData, id]]). *)
Inductive param : Type :=
| PVal (v : value)
| PObj (r : record).

(** The second argument of [query] and [format]: an array, or an object
    passed as it is ([connection.format(sql, data)]). *)
Inductive params : Type :=
| PArray (l : list param)
| PObject (r : record).

(** The mysql2 [ResultSetHeader] of a statement that returns no rows. *)
Record header : Type := Header { insertId : Z; affectedRows : Z }.

(** What [connection.query] of the adapter resolves to: the rows, or the
    header of a mysql2 write. *)
Inductive qresult : Type :=
| QRows (rows : list record)
| QHeader (h : header).

(** What the driver's [client.query] resolves to: mysql2 answers with the
    pair [[first, fields]], pg with an object [{ rows, rowCount, ... }]. *)
Inductive driver_result : Type :=
| MysqlResult (first : qresult)
| PgResult (rows : list record).

Inductive js_error : Type :=
| TypeError (msg : string)
| DriverError (msg : string)
| Error (msg : string).

(** The argument of [res.json]. *)
Inductive body : Type :=
| BodyResult (q : qresult)
| BodyObject (r : record)
| BodyUndefined.

(** What a request does to the outside: pool traffic, statements handed to
    the driver, the HTTP response. *)
Inductive event : Type :=
| EvAcquire
| EvQuery (sql : string) (ps : option params)
| EvRelease
| EvResponse (status : nat) (b : body).

(** A reference to a JavaScript object: one created by the callee or by the
    driver ([Fresh]), or the caller's own object ([Ref], an alias). *)
Inductive jsobj : Type :=
| Fresh (r : record)
| Ref (l : nat).

(** Truthiness of a scalar ([a || b]). *)
Definition truthy (v : value) : bool :=
  match v with
  | VUndefined | VNull => false
  | VNum n => negb (n =? 0)%Z
  | VStr s => negb (String.eqb s EmptyString)
  | VDate _ => true
  end.

(** [a || b]. *)
Definition js_or (a b : value) : value := if truthy a then a else b.

(** [new Date(n)]: a time value beyond 8.64e15 ms, or [NaN], is invalid. *)
Definition new_Date (n : option Z) : value :=
  match n with
  | Some ms => VDate (if (Z.abs ms <=? 8640000000000000)%Z then Some ms else None)
  | None => VDate None
  end.

(** ** The environment of the code *)

(** What the code takes from its environment: the configuration, the pool
    and driver of the configured backend, and two library functions. *)
Class Backend : Type := {
  (** the state of the database server together with its pool *)
  DB : Type;
  (** [process.env.DB_TYPE] *)
  dbType : option string;
  (** [mysqlPool.getConnection()] / [postgresPool.connect()] of the configured
      backend: [None] when a connection is handed out, the error otherwise *)
  pool_connect : DB → option js_error;
  (** the driver's [client.query(sql, params)]: the statement either fails or
      resolves to the driver's result, and changes the database *)
  client_query : DB → string → option params → (js_error + driver_result) * DB;
  (** mysql2's [connection.format(sql, params)] (the sqlstring package) *)
  mysql_format : string → params → string;
  (** JavaScript's conversion of a string to a number ([None] is [NaN]) *)
  string_to_number : string → option Z;
  (** the text of a valid [Date] (it depends on the time zone of the host) *)
  date_text : Z → string
}.

(** ** A scripted driver

    A test double of the database: the replies of the driver are given in
    advance, one per statement, and the text of a statement plays no role.
    It runs the handlers on concrete requests. *)

Module Mock.

Definition script : Type := list (js_error + driver_result).

Definition next_reply (db : script) (sql : string) (ps : option params)
    : (js_error + driver_result) * script :=
  match db with
  | [] => (inl (DriverError "no reply scripted"), [])
  | reply :: rest => (reply, rest)
  end.

Definition connect (db : script) : option js_error := None.

(** A stand-in for the [format] of mysql2: the Kth marker becomes the quoted
    text of the Kth parameter (an object becomes its [field = value] list);
    nothing is escaped. *)
Definition quoted (v : value) : string :=
  match v with
  | VStr s => "'" +:+ s +:+ "'"
  | VNum n => pretty n
  | VUndefined | VNull => "NULL"
  | VDate _ => "'date'"
  end.

Definition assignments (r : record) : string :=
  String.concat ", " ((λ kv, kv.1 +:+ " = " +:+ quoted kv.2) <$> map_to_list r).

Definition format (sql : string) (ps : params) : string :=
  fst (replace_marks
         (λ _ k, (match ps with
                  | PArray l => match l !! k with
                                | Some (PVal v) => quoted v
                                | Some (PObj r) => assignments r
                                | None => "?"
                                end
                  | PObject r => assignments r
                  end, S k))
         0 0 sql).

Definition not_a_number (s : string) : option Z := None.
Definition date_stub (ms : Z) : string := "date".

(** A successful mysql2 write and a mysql2 row set. *)
Definition wrote (id rows : Z) : js_error + driver_result :=
  inr (MysqlResult (QHeader (Header id rows))).
Definition found (rows : list record) : js_error + driver_result :=
  inr (MysqlResult (QRows rows)).
Definition failed (msg : string) : js_error + driver_result :=
  inl (DriverError msg).

(** The scripted backend, configured for mysql and for postgres. *)
Definition mysql : Backend := {|
  DB := script;
  dbType := Some "mysql";
  pool_connect := connect;
  client_query := next_reply;
  mysql_format := format;
  string_to_number := not_a_number;
  date_text := date_stub
|}.

Definition postgres : Backend := {|
  DB := script;
  dbType := Some "postgres";
  pool_connect := connect;
  client_query := next_reply;
  mysql_format := format;
  string_to_number := not_a_number;
  date_text := date_stub
|}.

(** A mysql server that is down: every statement fails. *)
Definition down : Backend := {|
  DB := unit;
  dbType := Some "mysql";
  pool_connect := λ _, None;
  client_query := λ _ _ _, (failed "server down", ());
  mysql_format := format;
  string_to_number := not_a_number;
  date_text := date_stub
|}.

(** A configuration that names neither backend. *)
Definition unsupported : Backend := {|
  DB := script;
  dbType := Some "sqlite";
  pool_connect := connect;
  client_query := next_reply;
  mysql_format := format;
  string_to_number := not_a_number;
  date_text := date_stub
|}.

(** A mysql backend whose pool hands out no connection. *)
Definition exhausted : Backend := {|
  DB := script;
  dbType := Some "mysql";
  pool_connect := λ _, Some (DriverError "pool exhausted");
  client_query := next_reply;
  mysql_format := format;
  string_to_number := not_a_number;
  date_text := date_stub
|}.

End Mock.

(** ** A server that holds the program table

    A small server for concrete runs: it stores the rows of [p_programa]
    ([id_programa], [nombre]), numbers new rows itself, and understands the
    statements the code sends for this table: the five statements of
    [routes/programa.js] with their parameters (with [?] markers for mysql,
    with numbered ones for postgres) and, for mysql, the two statements of
    [getOrCreate] as [Mock.format] renders them.  Any other text is a
    syntax error. *)

Module Programs.

Fixpoint strip_prefix (p s : string) : option string :=
  match p, s with
  | EmptyString, _ => Some s
  | String a p', String b s' => if Ascii.eqb a b then strip_prefix p' s' else None
  | String _ _, EmptyString => None
  end.

(** [s] without its last character, when that is a single quote. *)
Fixpoint until_quote (s : string) : option string :=
  match s with
  | EmptyString => None
  | String c rest =>
      match rest with
      | EmptyString => if Ascii.eqb c "'" then Some EmptyString else None
      | String _ _ => String c <$> until_quote rest
      end
  end.

(** The text of a quoted literal ['v']. *)
Definition unquote (s : string) : option string :=
  match s with
  | String "'" rest => until_quote rest
  | _ => None
  end.

Definition key_text (v : value) : string :=
  match v with
  | VNum n => pretty n
  | VStr s => s
  | VUndefined | VNull | VDate _ => EmptyString
  end.

(** A key given as text or as a number finds the row with that number. *)
Definition has_key (key : value) (row : record) : bool :=
  String.eqb (key_text (get_field row "id_programa")) (key_text key).

Definition next_id (db : list record) : Z :=
  foldr (λ row m, match get_field row "id_programa" with
                  | VNum n => Z.max n m
                  | _ => m
                  end) 0%Z db + 1.

Definition found (pg : bool) (rows : list record) : js_error + driver_result :=
  inr (if pg then PgResult rows else MysqlResult (QRows rows)).
Definition wrote (pg : bool) (id count : Z) : js_error + driver_result :=
  inr (if pg then PgResult [] else MysqlResult (QHeader (Header id count))).
Definition syntax_error : js_error + driver_result :=
  inl (DriverError "syntax error").

Definition insert (pg : bool) (db : list record) (nombre : value)
    : (js_error + driver_result) * list record :=
  (wrote pg (next_id db) 1,
   db ++ [list_to_map [("id_programa", VNum (next_id db)); ("nombre", nombre)]]).

Definition exec (pg : bool) (db : list record) (sql : string)
    (ps : option params) : (js_error + driver_result) * list record :=
  let mark (k : string) : string := if pg then "$" +:+ k else "?" in
  if String.eqb sql "SELECT * FROM p_programa" then (found pg db, db)
  else if String.eqb sql ("SELECT * FROM p_programa WHERE id_programa = " +:+ mark "1")
  then match ps with
       | Some (PArray [PVal key]) => (found pg (List.filter (has_key key) db), db)
       | _ => (syntax_error, db)
       end
  else if String.eqb sql ("UPDATE p_programa SET nombre = " +:+ mark "1"
                          +:+ " WHERE id_programa = " +:+ mark "2")
  then match ps with
       | Some (PArray [PVal nombre; PVal key]) =>
           (wrote pg 0 (Z.of_nat (length (List.filter (has_key key) db))),
            (λ row, if has_key key row then <["nombre" := nombre]> row else row)
              <$> db)
       | _ => (syntax_error, db)
       end
  else if String.eqb sql ("DELETE FROM p_programa WHERE id_programa = " +:+ mark "1")
  then match ps with
       | Some (PArray [PVal key]) =>
           (wrote pg 0 (Z.of_nat (length (List.filter (has_key key) db))),
            List.filter (λ row, negb (has_key key row)) db)
       | _ => (syntax_error, db)
       end
  else if String.eqb sql ("INSERT INTO p_programa (nombre) VALUES (" +:+ mark "1" +:+ ")")
  then match ps with
       | Some (PArray [PVal nombre]) => insert pg db nombre
       | _ => (syntax_error, db)
       end
  else if pg then (syntax_error, db)
  else
    match strip_prefix "SELECT * FROM p_programa WHERE nombre = " sql ≫= unquote with
    | Some v => (found pg (matching "nombre" (VStr v) db), db)
    | None =>
        match strip_prefix "INSERT INTO p_programa SET nombre = " sql ≫= unquote with
        | Some v => insert pg db (VStr v)
        | None => (syntax_error, db)
        end
    end.

Definition mysql : Backend := {|
  DB := list record;
  dbType := Some "mysql";
  pool_connect := λ _, None;
  client_query := exec false;
  mysql_format := Mock.format;
  string_to_number := Mock.not_a_number;
  date_text := Mock.date_stub
|}.

Definition postgres : Backend := {|
  DB := list record;
  dbType := Some "postgres";
  pool_connect := λ _, None;
  client_query := exec true;
  mysql_format := Mock.format;
  string_to_number := Mock.not_a_number;
  date_text := Mock.date_stub
|}.

End Programs.

(** ** A server with transactions

    The environment the import relies on: a server that keeps the writes of
    an open transaction apart from the durable tables until COMMIT and drops
    them at ROLLBACK.  The storage engine that executes the other statements
    is left open. *)

Module Tx.

Record engine : Type := Engine {
  tables : Type;
  (** one statement on the tables: the reply, and the tables after it *)
  exec : tables → string → option params → (js_error + driver_result) * tables;
  configured : option string;               (* DB_TYPE *)
  formatter : string → params → string;     (* the [format] of mysql2 *)
  number_of : string → option Z;
  text_of_date : Z → string
}.

(** The durable tables, and the tables as the open transaction sees them. *)
Record state (T : Type) : Type := State { durable : T; working : option T }.
Arguments State {T} durable working.
Arguments durable {T} s.
Arguments working {T} s.

Definition view {T : Type} (db : state T) : T := default (durable db) (working db).

Definition is_control (sql : string) : bool :=
  String.eqb sql "BEGIN" || String.eqb sql "COMMIT" || String.eqb sql "ROLLBACK".

Definition control_done : js_error + driver_result :=
  inr (MysqlResult (QHeader (Header 0 0))).

(** BEGIN opens a transaction on what is visible (making it durable first, as
    a server does with a transaction left open); COMMIT makes the working
    tables durable; ROLLBACK drops them; any other statement runs on the
    working tables of the open transaction, or changes the durable tables at
    once when none is open. *)
Definition run (e : engine) (db : state (tables e)) (sql : string)
    (ps : option params) : (js_error + driver_result) * state (tables e) :=
  if String.eqb sql "BEGIN" then (control_done, State (view db) (Some (view db)))
  else if String.eqb sql "COMMIT" then (control_done, State (view db) None)
  else if String.eqb sql "ROLLBACK" then (control_done, State (durable db) None)
  else
    let '(reply, t) := exec e (view db) sql ps in
    (reply, match working db with
            | Some _ => State (durable db) (Some t)
            | None => State t None
            end).

Definition transactional (e : engine) : Backend := {|
  DB := state (tables e);
  dbType := configured e;
  pool_connect := λ _, None;
  client_query := run e;
  mysql_format := formatter e;
  string_to_number := number_of e;
  date_text := text_of_date e
|}.

(** An engine for concrete runs: the tables are the journal of the statements
    executed; a SELECT finds nothing and any other statement succeeds. *)
Definition journal : engine := {|
  tables := list string;
  exec := λ t sql ps,
    (match sql with
     | String "S" _ => Mock.found []
     | _ => Mock.wrote 1 1
     end, t ++ [sql]);
  configured := Some "mysql";
  formatter := Mock.format;
  number_of := Mock.not_a_number;
  text_of_date := Mock.date_stub
|}.

End Tx.

(** ** The world of a request, and the monad of asynchronous code *)

Inductive outcome (A : Type) : Type :=
| Return (a : A)
| Throw (e : js_error).
Arguments Return {A} a.
Arguments Throw {A} e.

Section Backend.

Context `{backend : Backend}.

Record world : Type := World {
  w_db : DB;
  w_heap : list record;   (* objects owned by the caller of [getOrCreate] *)
  w_log : list event      (* oldest event first *)
}.

Definition M (A : Type) : Type := world → outcome A * world.

#[global] Instance M_ret : MRet M := λ A a w, (Return a, w).

#[global] Instance M_bind : MBind M := λ A B f m w,
  match m w with
  | (Return a, w1) => f a w1
  | (Throw e, w1) => (Throw e, w1)
  end.

Definition throw {A : Type} (e : js_error) : M A := λ w, (Throw e, w).

(** [try { body } catch (err) { handler }]. *)
Definition try_catch {A : Type} (body : M A) (handler : js_error → M A) : M A :=
  λ w, match body w with
       | (Return a, w1) => (Return a, w1)
       | (Throw e, w1) => handler e w1
       end.

(** [try { body } finally { cleanup }]: the cleanup runs on every exit of the
    body; an exception of the cleanup replaces the body's completion. *)
Definition try_finally {A : Type} (body : M A) (cleanup : M unit) : M A :=
  λ w, match body w with
       | (o, w1) =>
           match cleanup w1 with
           | (Return _, w2) => (o, w2)
           | (Throw e, w2) => (Throw e, w2)
           end
       end.

Definition emit (e : event) : M unit :=
  λ w, (Return (), World (w_db w) (w_heap w) (w_log w ++ [e])).

(** [console.error(...)]: the console is not part of the world. *)
Definition console_error : M unit := mret ().

(** [res.status(s).json(b)]; [res.json(b)] is status 200. *)
Definition respond (status : nat) (b : body) : M unit := emit (EvResponse status b).

(** Object literals owned by a caller live in the heap. *)
Definition alloc (r : record) : M nat :=
  λ w, (Return (length (w_heap w)), World (w_db w) (w_heap w ++ [r]) (w_log w)).

Definition read (l : nat) : M record :=
  λ w, (Return (default ∅ (w_heap w !! l)), w).

(** [data.k = v]. *)
Definition assign (l : nat) (k : string) (v : value) : M unit :=
  λ w, (Return (),
        World (w_db w) (<[l := <[k := v]> (default ∅ (w_heap w !! l))]> (w_heap w)) (w_log w)).

Definition deref (o : jsobj) : M record :=
  match o with
  | Fresh r => mret r
  | Ref l => read l
  end.

(** [await client.query(sql, params)] on the pooled client of the request. *)
Definition client_query_await (sql : string) (ps : option params) : M driver_result :=
  λ w, match client_query (w_db w) sql ps with
       | (inr result, db1) => (Return result, World db1 (w_heap w) (w_log w ++ [EvQuery sql ps]))
       | (inl e, db1) => (Throw e, World db1 (w_heap w) (w_log w ++ [EvQuery sql ps]))
       end.

(** ** [db/connection.js]: the query wrapper and the connection adapter *)

(** The statement as it reaches the driver:
    [if (dbType === 'postgres') { sql = convertQuestionMarksToDollarSigns(sql); }]. *)
Definition wire_sql (sql : string) : string :=
  if decide (dbType = Some "postgres")
  then convertQuestionMarksToDollarSigns sql else sql.

(** [const queryWrapper = async (client, sql, params) => {
       if (dbType === 'postgres') { sql = convertQuestionMarksToDollarSigns(sql); }
       const result = await client.query(sql, params);
       return result.rows ? result.rows : result[0];
     };]
    An array is truthy even when empty, and the mysql2 pair has no [rows]
    property. *)
Definition queryWrapper (sql : string) (ps : option params) : M qresult :=
  let sql := wire_sql sql in
  result ← client_query_await sql ps;
  mret (match result with
        | PgResult rows => QRows rows
        | MysqlResult first => first
        end).

(** The text of a template literal [`${v}`]; a number is an integer below
    1e21 in size, which JavaScript prints in full. *)
Definition to_string (v : value) : string :=
  match v with
  | VUndefined => "undefined"
  | VNull => "null"
  | VNum n => pretty n
  | VStr s => s
  | VDate (Some ms) => date_text ms
  | VDate None => "Invalid Date"
  end.

Definition param_text (p : param) : string :=
  match p with
  | PVal v => to_string v
  | PObj _ => "[object Object]"
  end.

(** [params[i]] for an integer [i]: an element of the array, or the property
    of the object whose name is the decimal text of [i]. *)
Definition params_at (ps : params) (i : Z) : param :=
  match ps with
  | PArray l => if (i <? 0)%Z then PVal VUndefined
                else default (PVal VUndefined) (l !! Z.to_nat i)
  | PObject r => PVal (get_field r (pretty i))
  end.

(** The [format] of the postgres adapter:
    [(sql, params) => sql.replace(/\?/g, (_, i) => `$${params[i - 1]}`)].
    The second argument of a replace callback is the offset of the match,
    counted here in characters of the string: for a statement in ASCII,
    as the code writes them, that is the offset JavaScript counts. *)
Definition pg_format (sql : string) (ps : params) : string :=
  fst (replace_marks
         (λ i (_ : unit), ("$" +:+ param_text (params_at ps (Z.of_nat i - 1)), ()))
         0 () sql).

Record Connection : Type := {
  query : string → option params → M qresult;
  release : M unit;
  format : string → params → string
}.

(** [await pool.getConnection()] / [await pool.connect()]. *)
Definition pool_acquire : M unit :=
  λ w, match pool_connect (w_db w) with
       | None => emit EvAcquire w
       | Some e => (Throw e, w)
       end.

(** [getConnection]: one capability set for either backend. *)
Definition getConnection : M Connection :=
  if decide (dbType = Some "mysql") then
    pool_acquire ;;
    mret {| query := queryWrapper; release := emit EvRelease; format := mysql_format |}
  else if decide (dbType = Some "postgres") then
    pool_acquire ;;
    mret {| query := queryWrapper; release := emit EvRelease; format := pg_format |}
  else throw (Error "Tipo de base de datos no soportada").

(** The two values of [DB_TYPE] that [getConnection] accepts. *)
Definition supported : Prop := dbType = Some "mysql" ∨ dbType = Some "postgres".

(** The world once the pool has handed out a connection. *)
Definition acquired (w : world) : world :=
  World (w_db w) (w_heap w) (w_log w ++ [EvAcquire]).

(** The world after the events [evs]. *)
Definition after (w : world) (evs : list event) : world :=
  World (w_db w) (w_heap w) (w_log w ++ evs).

(** ** [db/connection.js]: [getOrCreate] *)

Definition select_where (table uniqueField : string) : string :=
  "SELECT * FROM " +:+ table +:+ " WHERE " +:+ uniqueField +:+ " = ?".

Definition insert_set (table : string) : string :=
  "INSERT INTO " +:+ table +:+ " SET ?".

(** [result.insertId || result[0]?.id]: the header of mysql2 carries
    [insertId]; an array of rows has no such property and is indexed. *)
Definition assigned_id (result : qresult) : value :=
  match result with
  | QHeader h => js_or (VNum (insertId h)) VUndefined
  | QRows [] => js_or VUndefined VUndefined
  | QRows (r :: _) => js_or VUndefined (get_field r "id")
  end.

(** [rows.length > 0 ? rows[0] : nothing]; a header has no [length]. *)
Definition first_row (rows : qresult) : option record :=
  match rows with
  | QRows (r :: _) => Some r
  | QRows [] => None
  | QHeader _ => None
  end.

Definition getOrCreate (connection : Connection) (table : string) (data : nat)
    (uniqueField : string) : M jsobj :=
  try_catch
    (d ← read data;
     let selectQuery :=
       format connection (select_where table uniqueField)
         (PArray [PVal (get_field d uniqueField)]) in
     rows ← query connection selectQuery None;
     match first_row rows with
     | Some r => mret (Fresh r)
     | None =>
         let insertQuery := format connection (insert_set table) (PObject d) in
         result ← query connection insertQuery None;
         assign data "id" (assigned_id result) ;;
         d2 ← read data;
         let selectQuery2 :=
           format connection (select_where table uniqueField)
             (PArray [PVal (get_field d2 uniqueField)]) in
         rows2 ← query connection selectQuery2 None;
         match first_row rows2 with
         | Some r2 => mret (Fresh (r2 ∪ d2))    (* { ...data, ...rows2[0] } *)
         | None => mret (Ref data)
         end
     end)
    (λ error, console_error ;; throw error).

(** ** [routes/*.js]: the CRUD handlers

    The six route files repeat one shape per verb; what differs is the text
    of the statements, the fields read from [req.body], the shape of the
    reply of POST and the messages.  A [resource] holds these literals. *)

(** The object literal a POST answers with. *)
Inductive reply_shape : Type :=
| EchoFields                    (* { f1, ..., fn } *)
| IdAndFields (key : string)    (* { key: result.insertId, f1, ..., fn } *)
| IdAndBody (key : string).     (* { key: result.insertId, ...req.body } *)

Record resource : Type := Resource {
  list_sql : string;   list_error : string;
  get_sql : string;    get_missing : string;   get_error : string;
  post_sql : string;   post_fields : list string;
  post_reply : reply_shape;                    post_error : string;
  put_sql : string;    put_fields : list string;
  put_done : string;                           put_error : string;
  delete_sql : string; delete_done : string;   delete_error : string
}.

(** [req.params.id] (or [req.params.documento]) and [req.body]. *)
Record request : Type := Request { req_key : string; req_body : record }.

(** [{ message: text }] and [{ error: text }]. *)
Definition message_body (text : string) : body := BodyObject {[ "message" := VStr text ]}.
Definition error_body (text : string) : body := BodyObject {[ "error" := VStr text ]}.

(** [const { f1, ..., fn } = req.body] followed by [[f1, ..., fn]]. *)
Definition field_values (b : record) (fields : list string) : list param :=
  (λ f, PVal (get_field b f)) <$> fields.

(** [const { f1, ..., fn } = req.body] followed by [{ f1, ..., fn }]. *)
Definition pick_fields (b : record) (fields : list string) : record :=
  list_to_map ((λ f, (f, get_field b f)) <$> fields).

(** [const [x] = q]: array destructuring takes the first element of an array
    ([undefined] when it is empty) and throws on a value that is not
    iterable, such as the header object of mysql2. *)
Definition destructure_first (q : qresult) : M (option record) :=
  match q with
  | QRows [] => mret None
  | QRows (r :: _) => mret (Some r)
  | QHeader _ => throw (TypeError "object is not iterable")
  end.

(** [x.k] where [x] is a row or [undefined]. *)
Definition get_prop (x : option record) (k : string) : M value :=
  match x with
  | Some r => mret (get_field r k)
  | None => throw (TypeError "Cannot read properties of undefined")
  end.

(** [router.get('/')]. *)
Definition get_all (r : resource) : M unit :=
  connection ← getConnection;
  try_finally
    (try_catch
       (rows ← query connection (list_sql r) None;
        respond 200 (BodyResult rows))
       (λ err, console_error ;; respond 500 (error_body (list_error r))))
    (release connection).

(** [router.get('/:id')]: [rows.length === 0] answers 404, otherwise
    [res.json(rows[0])]. *)
Definition get_one (r : resource) (req : request) : M unit :=
  connection ← getConnection;
  try_finally
    (try_catch
       (rows ← query connection (get_sql r) (Some (PArray [PVal (VStr (req_key req))]));
        match rows with
        | QRows [] => respond 404 (error_body (get_missing r))
        | QRows (row :: _) => respond 200 (BodyObject row)
        | QHeader _ => respond 200 BodyUndefined
        end)
       (λ err, console_error ;; respond 500 (error_body (get_error r))))
    (release connection).

(** [router.post('/')]. *)
Definition post (r : resource) (req : request) : M unit :=
  connection ← getConnection;
  try_finally
    (try_catch
       (q ← query connection (post_sql r)
              (Some (PArray (field_values (req_body req) (post_fields r))));
        result ← destructure_first q;
        reply ← match post_reply r with
                | EchoFields => mret (pick_fields (req_body req) (post_fields r))
                | IdAndFields key =>
                    id ← get_prop result "insertId";
                    mret (pick_fields (req_body req) (post_fields r) ∪ {[ key := id ]})
                | IdAndBody key =>
                    id ← get_prop result "insertId";
                    mret (req_body req ∪ {[ key := id ]})
                end;
        respond 201 (BodyObject reply))
       (λ err, console_error ;; respond 500 (error_body (post_error r))))
    (release connection).

(** [router.put('/:id')]. *)
Definition put (r : resource) (req : request) : M unit :=
  connection ← getConnection;
  try_finally
    (try_catch
       (query connection (put_sql r)
          (Some (PArray (field_values (req_body req) (put_fields r)
                         ++ [PVal (VStr (req_key req))]))) ;;
        respond 200 (message_body (put_done r)))
       (λ err, console_error ;; respond 500 (error_body (put_error r))))
    (release connection).

(** [router.delete('/:id')]. *)
Definition delete_one (r : resource) (req : request) : M unit :=
  connection ← getConnection;
  try_finally
    (try_catch
       (query connection (delete_sql r) (Some (PArray [PVal (VStr (req_key req))])) ;;
        respond 200 (message_body (delete_done r)))
       (λ err, console_error ;; respond 500 (error_body (delete_error r))))
    (release connection).

(** The literals of [routes/empresa.js]. *)
Definition empresa : resource := {|
  list_sql := "SELECT * FROM empresa";
  list_error := "Error al obtener las empresas.";
  get_sql := "SELECT * FROM empresa WHERE id = ?";
  get_missing := "Empresa no encontrada.";
  get_error := "Error al obtener la empresa.";
  post_sql := "INSERT INTO empresa (fecha_inicio, fecha_terminacion, total_dias_practica, nit, nombre_empresa) VALUES (?, ?, ?, ?, ?)";
  post_fields := ["fecha_inicio"; "fecha_terminacion"; "total_dias_practica"; "nit"; "nombre_empresa"];
  post_reply := IdAndFields "id";
  post_error := "Error al crear la empresa.";
  put_sql := "UPDATE empresa SET fecha_inicio = ?, fecha_terminacion = ?, total_dias_practica = ?, nit = ?, nombre_empresa = ? WHERE id = ?";
  put_fields := ["fecha_inicio"; "fecha_terminacion"; "total_dias_practica"; "nit"; "nombre_empresa"];
  put_done := "Empresa actualizada correctamente.";
  put_error := "Error al actualizar la empresa.";
  delete_sql := "DELETE FROM empresa WHERE id = ?";
  delete_done := "Empresa eliminada correctamente.";
  delete_error := "Error al eliminar la empresa."
|}.

(** The literals of [routes/contacto.js]. *)
Definition contacto : resource := {|
  list_sql := "SELECT * FROM contacto";
  list_error := "Error al obtener los contactos.";
  get_sql := "SELECT * FROM contacto WHERE id = ?";
  get_missing := "Contacto no encontrado.";
  get_error := "Error al obtener el contacto.";
  post_sql := "INSERT INTO contacto (nombre_contacto, cargo_contacto, telefono_contacto, celular_contacto, email_contacto, direccion_contacto) VALUES (?, ?, ?, ?, ?, ?)";
  post_fields := ["nombre_contacto"; "cargo_contacto"; "telefono_contacto"; "celular_contacto"; "email_contacto"; "direccion_contacto"];
  post_reply := IdAndBody "id";
  post_error := "Error al crear el contacto.";
  put_sql := "UPDATE contacto SET nombre_contacto = ?, cargo_contacto = ?, telefono_contacto = ?, celular_contacto = ?, email_contacto = ?, direccion_contacto = ? WHERE id = ?";
  put_fields := ["nombre_contacto"; "cargo_contacto"; "telefono_contacto"; "celular_contacto"; "email_contacto"; "direccion_contacto"];
  put_done := "Contacto actualizado correctamente.";
  put_error := "Error al actualizar el contacto.";
  delete_sql := "DELETE FROM contacto WHERE id = ?";
  delete_done := "Contacto eliminado correctamente.";
  delete_error := "Error al eliminar el contacto."
|}.

(** The literals of [routes/estudiante.js]; the key is [documento] and the
    reply of POST carries no identifier. *)
Definition estudiante : resource := {|
  list_sql := "SELECT * FROM estudiante";
  list_error := "Error al obtener los estudiantes.";
  get_sql := "SELECT * FROM estudiante WHERE documento = ?";
  get_missing := "Estudiante no encontrado.";
  get_error := "Error al obtener el estudiante.";
  post_sql := "INSERT INTO estudiante (documento, nombre, edad, direccion_residencia, telefono_residencia, celular) VALUES (?, ?, ?, ?, ?, ?)";
  post_fields := ["documento"; "nombre"; "edad"; "direccion_residencia"; "telefono_residencia"; "celular"];
  post_reply := EchoFields;
  post_error := "Error al crear el estudiante.";
  put_sql := "UPDATE estudiante SET nombre = ?, edad = ?, direccion_residencia = ?, telefono_residencia = ?, celular = ? WHERE documento = ?";
  put_fields := ["nombre"; "edad"; "direccion_residencia"; "telefono_residencia"; "celular"];
  put_done := "Estudiante actualizado correctamente.";
  put_error := "Error al actualizar el estudiante.";
  delete_sql := "DELETE FROM estudiante WHERE documento = ?";
  delete_done := "Estudiante eliminado correctamente.";
  delete_error := "Error al eliminar el estudiante."
|}.

(** The literals of [routes/jefe.js]. *)
Definition jefe : resource := {|
  list_sql := "SELECT * FROM jefe";
  list_error := "Error al obtener los jefes.";
  get_sql := "SELECT * FROM jefe WHERE id = ?";
  get_missing := "Jefe no encontrado.";
  get_error := "Error al obtener el jefe.";
  post_sql := "INSERT INTO jefe (nombre_jefe, telefono_jefe, correo_jefe, cargo_jefe) VALUES (?, ?, ?, ?)";
  post_fields := ["nombre_jefe"; "telefono_jefe"; "correo_jefe"; "cargo_jefe"];
  post_reply := IdAndFields "id";
  post_error := "Error al crear el jefe.";
  put_sql := "UPDATE jefe SET nombre_jefe = ?, telefono_jefe = ?, correo_jefe = ?, cargo_jefe = ? WHERE id = ?";
  put_fields := ["nombre_jefe"; "telefono_jefe"; "correo_jefe"; "cargo_jefe"];
  put_done := "Jefe actualizado correctamente.";
  put_error := "Error al actualizar el jefe.";
  delete_sql := "DELETE FROM jefe WHERE id = ?";
  delete_done := "Jefe eliminado correctamente.";
  delete_error := "Error al eliminar el jefe."
|}.

(** The literals of [routes/programa.js]. *)
Definition programa : resource := {|
  list_sql := "SELECT * FROM p_programa";
  list_error := "Error al obtener los programas.";
  get_sql := "SELECT * FROM p_programa WHERE id_programa = ?";
  get_missing := "Programa no encontrado.";
  get_error := "Error al obtener el programa.";
  post_sql := "INSERT INTO p_programa (nombre) VALUES (?)";
  post_fields := ["nombre"];
  post_reply := IdAndFields "id_programa";
  post_error := "Error al crear el programa.";
  put_sql := "UPDATE p_programa SET nombre = ? WHERE id_programa = ?";
  put_fields := ["nombre"];
  put_done := "Programa actualizado correctamente.";
  put_error := "Error al actualizar el programa.";
  delete_sql := "DELETE FROM p_programa WHERE id_programa = ?";
  delete_done := "Programa eliminado correctamente.";
  delete_error := "Error al eliminar el programa."
|}.

(** The literals of [routes/practica.js]. *)
Definition practica : resource := {|
  list_sql := "SELECT * FROM practica";
  list_error := "Error al obtener las prácticas.";
  get_sql := "SELECT * FROM practica WHERE id = ?";
  get_missing := "Práctica no encontrada.";
  get_error := "Error al obtener la práctica.";
  post_sql := "INSERT INTO practica (clasificaciones, no_folio, fecha_entrega_facultad, numero_practica_inscribe, fecha_inscripcion_materia, nrc, programa, documento_estudiante, id_empresa, id_contacto, id_jefe) VALUES (?, ?, ?, ?, ?, ?, ?, ?, ?, ?, ?)";
  post_fields := ["clasificaciones"; "no_folio"; "fecha_entrega_facultad"; "numero_practica_inscribe"; "fecha_inscripcion_materia"; "nrc"; "programa"; "documento_estudiante"; "id_empresa"; "id_contacto"; "id_jefe"];
  post_reply := IdAndFields "id";
  post_error := "Error al crear la práctica.";
  put_sql := "UPDATE practica SET clasificaciones = ?, no_folio = ?, fecha_entrega_facultad = ?, numero_practica_inscribe = ?, fecha_inscripcion_materia = ?, nrc = ?, programa = ?, documento_estudiante = ?, id_empresa = ?, id_contacto = ?, id_jefe = ? WHERE id = ?";
  put_fields := ["clasificaciones"; "no_folio"; "fecha_entrega_facultad"; "numero_practica_inscribe"; "fecha_inscripcion_materia"; "nrc"; "programa"; "documento_estudiante"; "id_empresa"; "id_contacto"; "id_jefe"];
  put_done := "Práctica actualizada correctamente.";
  put_error := "Error al actualizar la práctica.";
  delete_sql := "DELETE FROM practica WHERE id = ?";
  delete_done := "Práctica eliminada correctamente.";
  delete_error := "Error al eliminar la práctica."
|}.

Definition resources : list resource :=
  [empresa; contacto; estudiante; jefe; programa; practica].

(** ** [routes/upload.js]: the bulk import *)

(** [ToNumber] of a scalar ([None] is [NaN]). *)
Definition to_number (v : value) : option Z :=
  match v with
  | VUndefined => None
  | VNull => Some 0%Z
  | VNum n => Some n
  | VStr s => string_to_number s
  | VDate ms => ms
  end.

(** [v > 0]. *)
Definition gt_zero (v : value) : bool :=
  match to_number v with
  | Some n => (0 <? n)%Z
  | None => false
  end.

(** [new Date((serial - (25567 + 2)) * 86400 * 1000)]. *)
Definition serial_to_date (serial : value) : value :=
  new_Date ((λ n, (n - (25567 + 2)) * 86400 * 1000)%Z <$> to_number serial).

(** [v.id_practica] for a scalar [v]: no scalar has such a property, and
    reading a property of [undefined] or [null] throws. *)
Definition scalar_id_practica (v : value) : M value :=
  match v with
  | VUndefined | VNull => throw (TypeError "Cannot read properties of undefined")
  | VNum _ | VStr _ | VDate _ => mret VUndefined
  end.

Definition practica_select : string :=
  "SELECT * FROM p_practica WHERE id_estudiante = ? AND id_empresa = ? AND id_programa = ?".
Definition practica_update : string := "UPDATE p_practica SET ? WHERE id_practica = ?".
Definition practica_insert : string := "INSERT INTO p_practica SET ?".

(** The last step of a row (the select, the test and the two statements that
    follow the construction of [practicaData]). *)
Definition upsert_practica (connection : Connection) (practicaData : record)
    (id_estudiante id_empresa id_programa : value) : M unit :=
  q ← query connection practica_select
        (Some (PArray [PVal id_estudiante; PVal id_empresa; PVal id_programa]));
  practicaRows ← destructure_first q;      (* const [practicaRows] = ... *)
  len ← get_prop practicaRows "length";    (* practicaRows.length > 0 *)
  if gt_zero len then
    first ← get_prop practicaRows "0";     (* practicaRows[0].id_practica *)
    id_practica ← scalar_id_practica first;
    query connection practica_update
      (Some (PArray [PObj practicaData; PVal id_practica])) ;;
    mret ()
  else
    query connection practica_insert (Some (PObject practicaData)) ;;
    mret ().

(** The body of the [for] loop, for one row of the sheet. *)
Definition process_row (connection : Connection) (row : record) : M unit :=
  cargoContactoData ← alloc {[ "nombre" := get_field row "CARGO DEL CONTACTO" ]};
  cargoContacto ← getOrCreate connection "p_cargo_contacto" cargoContactoData "nombre"
                    ≫= deref;
  contactoData ← alloc (list_to_map [
      ("nombre", get_field row "CONTACTO");
      ("telefono", get_field row "TELEFONO CONTACTO");
      ("celular", get_field row "CELULAR CONTACTO");
      ("email", get_field row "E MAIL CONTACTO");
      ("id_cargo_contacto", get_field cargoContacto "id_cargo_contacto") ]);
  contacto ← getOrCreate connection "p_contacto" contactoData "email" ≫= deref;
  empresaData ← alloc (list_to_map [
      ("nit", get_field row "NIT");
      ("razon_social", get_field row "EMPRESA DONDE REALIZA LA PRÁCTICA");
      ("direccion", get_field row "DIRECCION CONTACTO");
      ("id_jefe_inmediato", get_field contacto "id_contacto") ]);
  empresa ← getOrCreate connection "p_empresa" empresaData "nit" ≫= deref;
  programaData ← alloc {[ "nombre" := get_field row "PROGRAMA" ]};
  programa ← getOrCreate connection "p_programa" programaData "nombre" ≫= deref;
  estudianteData ← alloc (list_to_map [
      ("nombres", get_field row "APELLIDOS Y NOMBRES");
      ("edad", get_field row "EDAD");
      ("celular", get_field row "CELULAR");
      ("direccion", get_field row "DIRECCION RESIDENCIA");
      ("telefono", get_field row "TELÉFONO RESIDENCIA");
      ("email", get_field row "CORREO JEFE INMEDIATO");
      ("id_contacto", get_field contacto "id_contacto") ]);
  estudiante ← getOrCreate connection "p_estudiante" estudianteData "email" ≫= deref;
  let practicaData : record := list_to_map [
      ("id_programa", get_field programa "id_programa");
      ("id_estudiante", get_field estudiante "id_estudiante");
      ("id_empresa", get_field empresa "id_empresa");
      ("fec_inicio", serial_to_date (get_field row "FECHA INICIO"));
      ("fec_termina", serial_to_date (get_field row "FECHA TERMINACIÓN"));
      ("dias_pract", get_field row "TOTAL DIAS EN PRACTICA") ] in
  upsert_practica connection practicaData
    (get_field estudiante "id_estudiante") (get_field empresa "id_empresa")
    (get_field programa "id_programa").

(** [for (let i = 0; i < jsonData.length; i++) { ... }]. *)
Fixpoint process_rows (connection : Connection) (jsonData : list record) : M unit :=
  match jsonData with
  | [] => mret ()
  | row :: rest => process_row connection row ;; process_rows connection rest
  end.

Definition sheetName : string := "Datos".

Definition dquote : string := String (ascii_of_nat 34) EmptyString.

Definition upload_ok : string :=
  "Archivo procesado e insertado en la base de datos correctamente.".
Definition upload_failed : string := "Error al insertar en la base de datos.".

(** The request of the import: [req.file] read as a workbook, that is the
    rows [sheet_to_json] gives for each sheet name. *)
Record upload_request : Type := UploadRequest {
  req_file : option (gmap string (list record))
}.

(** [router.post('/upload')]. *)
Definition upload (req : upload_request) : M unit :=
  match req_file req with
  | None => respond 400 (error_body "No se ha subido ningún archivo.")
  | Some workbook =>
      match workbook !! sheetName with
      | None =>
          respond 400 (error_body ("La hoja con nombre " +:+ dquote +:+ sheetName
                                     +:+ dquote +:+ " no existe."))
      | Some jsonData =>
          connection ← getConnection;
          try_finally
            (try_catch
               (query connection "BEGIN" None ;;
                process_rows connection jsonData ;;
                query connection "COMMIT" None ;;
                respond 200 (message_body upload_ok))
               (λ err,
                  query connection "ROLLBACK" None ;;
                  console_error ;;
                  respond 500 (error_body upload_failed)))
            (release connection)
      end
  end.

(** ** Every entry point of the server *)

Inductive endpoint : Type :=
| GetAll (r : resource)
| GetOne (r : resource) (req : request)
| Post (r : resource) (req : request)
| Put (r : resource) (req : request)
| Delete (r : resource) (req : request)
| Upload (req : upload_request).

Definition serve (e : endpoint) : M unit :=
  match e with
  | GetAll r => get_all r
  | GetOne r req => get_one r req
  | Post r req => post r req
  | Put r req => put r req
  | Delete r req => delete_one r req
  | Upload req => upload req
  end.

(** ** Reading the event log *)

Definition is_conn_event (e : event) : bool :=
  match e with
  | EvAcquire | EvRelease => true
  | EvQuery _ _ | EvResponse _ _ => false
  end.

(** The pool traffic among some events. *)
Definition conn_events (evs : list event) : list event :=
  List.filter is_conn_event evs.

(** The texts of the statements among some events. *)
Fixpoint statements (evs : list event) : list string :=
  match evs with
  | [] => []
  | EvQuery sql _ :: rest => sql :: statements rest
  | _ :: rest => statements rest
  end.

(** The responses among some events. *)
Fixpoint responses (evs : list event) : list (nat * body) :=
  match evs with
  | [] => []
  | EvResponse status b :: rest => (status, b) :: responses rest
  | _ :: rest => responses rest
  end.

Definition is_query (e : event) : bool :=
  match e with
  | EvQuery _ _ => true
  | EvAcquire | EvRelease | EvResponse _ _ => false
  end.

Definition not_conn_event (e : event) : bool := negb (is_conn_event e).

(** [emits_only P m]: from any world, [m] only adds events to the log, and
    all of them satisfy [P]. *)
Definition emits_only (P : event → bool) {A : Type} (m : M A) : Prop :=
  ∀ w, ∃ evs, w_log (m w).2 = w_log w ++ evs ∧ forallb P evs = true.

(** [keeps J m]: [m] preserves the property [J] of the database. *)
Definition keeps (J : DB → Prop) {A : Type} (m : M A) : Prop :=
  ∀ w, J (w_db w) → J (w_db (m w).2).

(** The pool traffic of a request that released what it acquired, once and
    last: none at all, or one acquisition first and one release at the end. *)
Definition released_once (evs : list event) : Prop :=
  conn_events evs = []
  ∨ ∃ mid, evs = EvAcquire :: mid ++ [EvRelease] ∧ conn_events mid = [].

(** ** Further readings of a request and of a run *)

(** The rows of the sheet of an import, when the file and the sheet are
    there. *)
Definition sheet_rows (req : upload_request) : option (list record) :=
  match req_file req with
  | Some workbook => workbook !! sheetName
  | None => None
  end.

(** The endpoints whose handler reaches [getConnection]: every CRUD handler
    starts with it, the import gets there once the file and the sheet have
    been found. *)
Definition needs_connection (e : endpoint) : bool :=
  match e with
  | Upload req => bool_decide (is_Some (sheet_rows req))
  | GetAll _ | GetOne _ _ | Post _ _ | Put _ _ | Delete _ _ => true
  end.

(** The most statements an endpoint sends: one for a CRUD handler; for the
    import, BEGIN, at most 17 per row (three for each of the five entities,
    two for the internship), COMMIT and ROLLBACK. *)
Definition statement_budget (e : endpoint) : nat :=
  match e with
  | Upload req => 17 * length (default [] (sheet_rows req)) + 3
  | GetAll _ | GetOne _ _ | Post _ _ | Put _ _ | Delete _ _ => 1
  end.

Definition is_response (e : event) : bool :=
  match e with
  | EvResponse _ _ => true
  | EvAcquire | EvQuery _ _ | EvRelease => false
  end.

Definition not_response (e : event) : bool := negb (is_response e).

Definition not_400 (e : event) : bool :=
  match e with
  | EvResponse 400 _ => false
  | _ => true
  end.

(** [settles m]: from any world, [m] has sent exactly one response when it
    returns and none when it throws. *)
Definition settles {A : Type} (m : M A) : Prop :=
  ∀ w, ∃ evs,
    w_log (m w).2 = w_log w ++ evs
    ∧ match (m w).1 with
      | Return _ => length (responses evs) = 1
      | Throw _ => responses evs = []
      end.

(** [at_most k m]: from any world, [m] sends at most [k] statements. *)
Definition at_most (k : nat) {A : Type} (m : M A) : Prop :=
  ∀ w, ∃ evs, w_log (m w).2 = w_log w ++ evs ∧ (length (statements evs) ≤ k)%nat.

(** [sends Q m]: from any world, [m] only adds events to the log, and every
    statement among them satisfies [Q]. *)
Definition sends (Q : string → Prop) {A : Type} (m : M A) : Prop :=
  ∀ w, ∃ evs, w_log (m w).2 = w_log w ++ evs ∧ Forall Q (statements evs).

End Backend.

(** ** Concrete runs on the scripted driver *)

Module Scenario.

(** The adapter [getConnection] hands out on the scripted mysql backend. *)
Definition connection : Connection (backend := Mock.mysql) := {|
  query := queryWrapper;
  release := emit EvRelease;
  format := Mock.format
|}.

(** A world of the scripted backend: the replies to come, the objects of the
    caller, an empty log. *)
Definition start (replies : Mock.script) (objects : list record)
    : world (backend := Mock.mysql) :=
  @World Mock.mysql replies objects [].

(** A study program, as the caller proposes it and as the table stores it. *)
Definition candidate : record := {[ "nombre" := VStr "Sistemas" ]}.
Definition stored : record :=
  <[ "id_programa" := VNum 7 ]> {[ "nombre" := VStr "Sistemas" ]}.

Definition select_programa : string :=
  Mock.format (select_where "p_programa" "nombre") (PArray [PVal (VStr "Sistemas")]).

(** The program is new: the select finds nothing, the insert is given the
    identifier 7, the re-select finds the stored row. *)
Definition brand_new : world (backend := Mock.mysql) :=
  start [Mock.found []; Mock.wrote 7 1; Mock.found [stored]] [candidate].

(** The adapter of the scripted postgres backend, and a world in which the
    server rejects the one statement it is sent. *)
Definition pg_connection : Connection (backend := Mock.postgres) := {|
  query := queryWrapper;
  release := emit EvRelease;
  format := pg_format (backend := Mock.postgres)
|}.
Definition pg_rejects : world (backend := Mock.postgres) :=
  @World Mock.postgres [Mock.failed "syntax error at or near $"] [candidate] [].

(** [POST /programa] with the body [{ nombre: 'Sistemas' }]; the insert
    succeeds with the identifier 7. *)
Definition create_request : request := Request EmptyString candidate.
Definition insert_succeeds : world (backend := Mock.mysql) :=
  start [Mock.wrote 7 1] [].

(** A request for the key 99, which no table has. *)
Definition absent_request : request := Request "99" candidate.

(** An internship stored for a (student, company, program) triple. *)
Definition practica_stored : record :=
  list_to_map [("id_practica", VNum 12); ("id_estudiante", VNum 1);
               ("id_empresa", VNum 2); ("id_programa", VNum 7);
               ("dias_pract", VNum 90)].
Definition practica_again : record :=
  list_to_map [("id_estudiante", VNum 1); ("id_empresa", VNum 2);
               ("id_programa", VNum 7); ("dias_pract", VNum 120)].
Definition triple_exists : world (backend := Mock.mysql) :=
  start [Mock.found [practica_stored]; Mock.wrote 13 1] [].

(** A workbook whose sheet has one row. *)
Definition sheet_row : record :=
  list_to_map [("CARGO DEL CONTACTO", VStr "Gerente"); ("CONTACTO", VStr "Ana");
               ("E MAIL CONTACTO", VStr "ana@example.com"); ("NIT", VNum 900);
               ("PROGRAMA", VStr "Sistemas");
               ("CORREO JEFE INMEDIATO", VStr "luis@example.com");
               ("FECHA INICIO", VNum 45000); ("FECHA TERMINACIÓN", VNum 45090);
               ("TOTAL DIAS EN PRACTICA", VNum 90)].
Definition one_row_workbook : gmap string (list record) := {[ "Datos" := [sheet_row] ]}.
Definition one_row_upload : upload_request := UploadRequest (Some one_row_workbook).

(** BEGIN succeeds, the first statement of the row fails, ROLLBACK succeeds. *)
Definition row_fails : world (backend := Mock.mysql) :=
  start [Mock.wrote 0 0; Mock.failed "Duplicate entry"; Mock.wrote 0 0] [].

(** BEGIN succeeds, then the server is lost: the first statement of the row
    fails and so does ROLLBACK. *)
Definition server_lost : world (backend := Mock.mysql) :=
  start [Mock.wrote 0 0; Mock.failed "Connection lost"; Mock.failed "Connection lost"] [].

(** A second import of the same row: every entity and the internship of the
    triple are stored already. *)
Definition second_import : world (backend := Mock.mysql) :=
  start [Mock.wrote 0 0;
         Mock.found [{[ "id_cargo_contacto" := VNum 1 ]}];
         Mock.found [{[ "id_contacto" := VNum 4 ]}];
         Mock.found [{[ "id_empresa" := VNum 2 ]}];
         Mock.found [{[ "id_programa" := VNum 7 ]}];
         Mock.found [{[ "id_estudiante" := VNum 1 ]}];
         Mock.found [practica_stored];
         Mock.wrote 13 1;
         Mock.wrote 0 0] [].

(** The journal server with nothing stored and no transaction open. *)
Definition journal_start : world (backend := Tx.transactional Tx.journal) :=
  @World (Tx.transactional Tx.journal) (Tx.State [] None) [] [].

End Scenario.

(** Further worlds of the scripted driver: servers and configurations that
    fail, and replies of either driver. *)
Module Case.

(** The server rejects the first statement it is sent. *)
Definition select_fails : world (backend := Mock.mysql) :=
  Scenario.start [Mock.failed "Deadlock found"] [Scenario.candidate].

(** [DB_TYPE=sqlite]. *)
Definition sqlite_world : world (backend := Mock.unsupported) :=
  @World Mock.unsupported [] [] [].

(** The pool is exhausted. *)
Definition no_connection : world (backend := Mock.exhausted) :=
  @World Mock.exhausted [] [] [].

(** The server is down. *)
Definition server_down : world (backend := Mock.down) :=
  @World Mock.down () [] [].


(** The program table with one row, and the candidate for that program;
    the same table on a postgres server; and the table before the program
    is stored. *)
Definition systems : record :=
  list_to_map [("id_programa", VNum 7); ("nombre", VStr "Sistemas")].
Definition program_stored : world (backend := Programs.mysql) :=
  @World Programs.mysql [systems] [Scenario.candidate] [].
Definition pg_program_stored : world (backend := Programs.postgres) :=
  @World Programs.postgres [systems] [Scenario.candidate] [].
Definition program_new : world (backend := Programs.mysql) :=
  @World Programs.mysql [] [Scenario.candidate] [].

(** The row the server stores for the first program it is given. *)
Definition first_program : record :=
  list_to_map [("id_programa", VNum 1); ("nombre", VStr "Sistemas")].

(** Replies of the pg driver: the select finds nothing, the insert returns
    the row it wrote, the re-select finds nothing. *)
Definition pg_returning : world (backend := Mock.postgres) :=
  @World Mock.postgres
    [inr (PgResult []); inr (PgResult [{[ "id" := VNum 5 ]}]); inr (PgResult [])]
    [Scenario.candidate] [].

(** The adapters of [getConnection] on these servers. *)
Definition connection : Connection (backend := Programs.mysql) := {|
  query := queryWrapper;
  release := emit EvRelease;
  format := Mock.format
|}.
Definition pg_connection : Connection (backend := Programs.postgres) := {|
  query := queryWrapper;
  release := emit EvRelease;
  format := pg_format (backend := Programs.postgres)
|}.

End Case.

(** * Properties *)

Section Properties.

Context `{backend : Backend}.

(** ** The placeholder translator *)

Lemma append_nil (b : string) : EmptyString +:+ b = b.
Proof. reflexivity. Qed.

Lemma append_cons (x : ascii) (a b : string) : String x a +:+ b = String x (a +:+ b).
Proof. reflexivity. Qed.

Lemma append_empty_r (a : string) : a +:+ EmptyString = a.
Proof.
  induction a as [|x a IH]; [done |].
  by rewrite append_cons, IH.
Qed.

Lemma append_assoc (a b c : string) : (a +:+ b) +:+ c = a +:+ b +:+ c.
Proof.
  induction a as [|x a IH]; [done |].
  by rewrite !append_cons, IH.
Qed.

Lemma split_marks_join (s : string) :
  s = (split_marks s).1 +:+ join_marks (split_marks s).2.
Proof.
  induction s as [|c s IH]; [done |].
  simpl. destruct (split_marks s) as [hd tl] eqn:E. simpl in IH.
  destruct (is_mark c) eqn:Hc; simpl.
  - apply Ascii.eqb_eq in Hc. by rewrite Hc, IH at 1.
  - by rewrite IH at 1.
Qed.

Lemma split_marks_free (s : string) :
  mark_free (split_marks s).1 ∧ Forall mark_free (split_marks s).2.
Proof.
  induction s as [|c s [IH1 IH2]]; [by split; [|constructor] |].
  simpl. destruct (split_marks s) as [hd tl]. simpl in *.
  destruct (is_mark c) eqn:Hc; simpl.
  - split; [done | by constructor].
  - split; [|done]. unfold mark_free in *. simpl. by rewrite Hc, IH1.
Qed.

Lemma split_marks_length (s : string) :
  length (split_marks s).2 = count_marks s.
Proof.
  induction s as [|c s IH]; [done |].
  simpl. destruct (split_marks s) as [hd tl]. simpl in *.
  destruct (is_mark c); simpl; by rewrite IH.
Qed.

(** The scan with the counting callback, started at any offset and with any
    value of [index]. *)
Lemma replace_marks_counting (s : string) (offset index : nat) :
  replace_marks (λ _ i, ("$" +:+ pretty (S i), S i)) offset index s
  = ((split_marks s).1 +:+ join_numbered (S index) (split_marks s).2,
     index + count_marks s).
Proof.
  revert offset index. induction s as [|c s IH]; intros offset index.
  - simpl. by rewrite Nat.add_0_r.
  - simpl. destruct (is_mark c) eqn:Hc.
    + rewrite IH. destruct (split_marks s) as [hd tl]. simpl.
      f_equal. lia.
    + rewrite IH. destruct (split_marks s) as [hd tl]. simpl.
      done.
Qed.

(** C4. For every statement, with [hd] the text before the first generic
    marker and [tl] the texts after each marker: the statement is [hd]
    followed by [?p] for each [p] of [tl], no piece contains a marker, there
    are as many pieces in [tl] as markers, and the translator returns [hd]
    followed by [$K p] for the Kth piece, K counting from 1. *)
Theorem convert_numbers_every_marker (sql : string) :
  let hd := (split_marks sql).1 in
  let tl := (split_marks sql).2 in
  sql = hd +:+ join_marks tl
  ∧ mark_free hd ∧ Forall mark_free tl
  ∧ length tl = count_marks sql
  ∧ convertQuestionMarksToDollarSigns sql = hd +:+ join_numbered 1 tl.
Proof.
  simpl. split; [apply split_marks_join |].
  split; [apply split_marks_free |].
  split; [apply split_marks_free |].
  split; [apply split_marks_length |].
  unfold convertQuestionMarksToDollarSigns.
  by rewrite replace_marks_counting.
Qed.

(** ** The adapter *)

(** A statement sent through the adapter leaves exactly one event, the
    statement as it reaches the driver, and does not touch the heap. *)
Lemma queryWrapper_effect (sql : string) (ps : option params) (w : world) :
  w_heap (queryWrapper sql ps w).2 = w_heap w
  ∧ w_log (queryWrapper sql ps w).2 = w_log w ++ [EvQuery (wire_sql sql) ps].
Proof.
  unfold queryWrapper, mbind, M_bind, client_query_await.
  destruct (client_query (w_db w) (wire_sql sql) ps) as [[e|result] db1]; done.
Qed.

Lemma queryWrapper_run (sql : string) (ps : option params) (w w1 : world)
    (o : outcome qresult) :
  queryWrapper sql ps w = (o, w1) →
  w_heap w1 = w_heap w ∧ w_log w1 = w_log w ++ [EvQuery (wire_sql sql) ps].
Proof. intros H. pose proof (queryWrapper_effect sql ps w) as E. by rewrite H in E. Qed.

(** What [getConnection] hands out when it succeeds. *)
Lemma getConnection_inv (w0 w1 : world) (conn : Connection) :
  getConnection w0 = (Return conn, w1) →
  query conn = queryWrapper
  ∧ release conn = emit EvRelease
  ∧ w1 = World (w_db w0) (w_heap w0) (w_log w0 ++ [EvAcquire]).
Proof.
  unfold getConnection, mbind, M_bind, pool_acquire, emit, mret, M_ret.
  repeat case_decide; destruct (pool_connect (w_db w0)); intros Hrun;
    by simplify_eq.
Qed.

(** ** [getOrCreate] *)

(** The found path, for any connection object. *)
Lemma getOrCreate_found_run (conn : Connection) (table uniqueField : string)
    (data : nat) (w w1 : world) (d r : record) (rows : qresult) :
  w_heap w !! data = Some d →
  query conn (format conn (select_where table uniqueField)
                (PArray [PVal (get_field d uniqueField)])) None w
    = (Return rows, w1) →
  first_row rows = Some r →
  getOrCreate conn table data uniqueField w = (Return (Fresh r), w1).
Proof.
  intros Hd Hq Hr.
  unfold getOrCreate, try_catch, mbind, M_bind, read.
  rewrite Hd. simpl. rewrite Hq, Hr. done.
Qed.

(** The insert path up to the re-select, whatever the re-select does. *)
Lemma getOrCreate_insert_run (conn : Connection) (table uniqueField : string)
    (data : nat) (w w1 w2 w3 : world) (d : record) (rows result : qresult)
    (o3 : outcome qresult) :
  query conn = queryWrapper →
  w_heap w !! data = Some d →
  query conn (format conn (select_where table uniqueField)
                (PArray [PVal (get_field d uniqueField)])) None w
    = (Return rows, w1) →
  first_row rows = None →
  query conn (format conn (insert_set table) (PObject d)) None w1
    = (Return result, w2) →
  let d2 : record := <["id" := assigned_id result]> d in
  query conn (format conn (select_where table uniqueField)
                (PArray [PVal (get_field d2 uniqueField)])) None
        (World (w_db w2) (<[data := d2]> (w_heap w)) (w_log w2))
    = (o3, w3) →
  getOrCreate conn table data uniqueField w
  = (match o3 with
     | Return rows2 =>
         Return (match first_row rows2 with
                 | Some r2 => Fresh (r2 ∪ d2)
                 | None => Ref data
                 end)
     | Throw e => Throw e
     end, w3)
  ∧ w_heap w3 = <[data := d2]> (w_heap w).
Proof.
  intros Hquery Hd Hq1 Hrows Hq2 d2 Hq3.
  assert (Hh1 : w_heap w1 = w_heap w).
  { rewrite Hquery in Hq1. by apply queryWrapper_run in Hq1 as [? _]. }
  assert (Hh2 : w_heap w2 = w_heap w).
  { rewrite Hquery in Hq2. apply queryWrapper_run in Hq2 as [? _]. congruence. }
  assert (Hh3 : w_heap w3 = <[data := d2]> (w_heap w)).
  { rewrite Hquery in Hq3. by apply queryWrapper_run in Hq3 as [? _]. }
  split; [| done].
  assert (Hlt : data < length (w_heap w)) by by eapply lookup_lt_Some.
  unfold getOrCreate, try_catch, mbind, M_bind, read, assign.
  rewrite Hd. simpl. rewrite Hq1, Hrows, Hq2. simpl.
  rewrite Hh2, Hd. simpl.
  rewrite list_lookup_insert_eq by done. simpl.
  fold d2. rewrite Hq3.
  destruct o3 as [rows2|e]; [| done].
  by destruct (first_row rows2).
Qed.

(** C6. With a connection of [getConnection], let the initial select
    [SELECT * FROM table WHERE field = ?] return no row, let the insert
    [INSERT INTO table SET ?] return [result], and let the re-select
    return [rows2].  Then exactly these three statements are sent, one of
    them an insert.  The identifier [id] is the [insertId] of a mysql2
    header when that is not 0, the [id] of the first row of a row set, and
    [undefined] otherwise; it is stored in the candidate under [id].  When
    the re-select finds a row, a new record is returned that has, for each
    key, the value of the stored row when the stored row has the key, and
    otherwise the candidate's value, with [id] among the candidate's: so
    every field the caller supplied is there.  When the re-select finds
    nothing, the candidate object itself is returned, unchanged but for
    [id]. *)
Theorem getOrCreate_insert_path
    (w0 wc : world) (conn : Connection) (table uniqueField : string)
    (data : nat) (w w1 w2 w3 : world) (d : record) (result rows2 : qresult) :
  getConnection w0 = (Return conn, wc) →
  w_heap w !! data = Some d →
  let select (key : value) : string :=
    format conn ("SELECT * FROM " +:+ table +:+ " WHERE " +:+ uniqueField +:+ " = ?")
      (PArray [PVal key]) in
  let insertQuery := format conn ("INSERT INTO " +:+ table +:+ " SET ?") (PObject d) in
  let id : value :=
    match result with
    | QHeader h => if (insertId h =? 0)%Z then VUndefined else VNum (insertId h)
    | QRows [] => VUndefined
    | QRows (first :: _) => get_field first "id"
    end in
  let d2 : record := <["id" := id]> d in
  query conn (select (get_field d uniqueField)) None w = (Return (QRows []), w1) →
  query conn insertQuery None w1 = (Return result, w2) →
  query conn (select (get_field d2 uniqueField)) None
        (World (w_db w2) (<[data := d2]> (w_heap w)) (w_log w2))
    = (Return rows2, w3) →
  w_log w3 = w_log w ++ [EvQuery (wire_sql (select (get_field d uniqueField))) None;
                         EvQuery (wire_sql insertQuery) None;
                         EvQuery (wire_sql (select (get_field d2 uniqueField))) None]
  ∧ w_heap w3 = <[data := d2]> (w_heap w)
  ∧ match rows2 with
    | QRows (r2 :: _) =>
        ∃ returned : record,
          getOrCreate conn table data uniqueField w = (Return (Fresh returned), w3)
          ∧ (∀ k, returned !! k = match r2 !! k with
                                  | Some v => Some v
                                  | None => if decide (k = "id") then Some id
                                            else d !! k
                                  end)
          ∧ (∀ k, is_Some (d !! k) → is_Some (returned !! k))
    | QRows [] | QHeader _ =>
        getOrCreate conn table data uniqueField w = (Return (Ref data), w3)
        ∧ w_heap w3 !! data = Some d2
        ∧ d2 !! "id" = Some id
        ∧ (∀ k, k ≠ "id" → d2 !! k = d !! k)
    end.
Proof.
  intros Hconn Hd select insertQuery id d2 Hq1 Hq2 Hq3.
  destruct (getConnection_inv _ _ _ Hconn) as (Hquery & _ & _).
  assert (Hid : assigned_id result = id).
  { unfold id, assigned_id, js_or. destruct result as [[|first rest]|h]; try done.
    simpl. by destruct (insertId h =? 0)%Z. }
  assert (Hlt : data < length (w_heap w)) by by eapply lookup_lt_Some.
  destruct (getOrCreate_insert_run conn table uniqueField data w w1 w2 w3 d
              (QRows []) result (Return rows2) Hquery Hd Hq1 eq_refl Hq2)
    as [Hrun Hheap].
  { rewrite Hid. exact Hq3. }
  rewrite Hid in Hrun, Hheap. fold d2 in Hrun, Hheap.
  split.
  { rewrite Hquery in Hq1, Hq2, Hq3.
    apply queryWrapper_run in Hq1 as [_ L1].
    apply queryWrapper_run in Hq2 as [_ L2].
    apply queryWrapper_run in Hq3 as [_ L3].
    simpl in L3. rewrite L3, L2, L1, <- !app_assoc. done. }
  split; [done |].
  destruct rows2 as [[|r2 rest]|h]; simpl in Hrun.
  - split; [done |]. split; [by rewrite Hheap, list_lookup_insert_eq |].
    split; [apply lookup_insert_eq |]. intros k Hk. by apply lookup_insert_ne.
  - exists (r2 ∪ d2). split; [done |]. split.
    + intros k. rewrite lookup_union. destruct (r2 !! k) as [v|] eqn:Hk.
      * by destruct (d2 !! k).
      * rewrite (left_id None _). unfold d2. case_decide as Hkid.
        -- subst k. apply lookup_insert_eq.
        -- by apply lookup_insert_ne.
    + intros k Hk. rewrite lookup_union. destruct (r2 !! k) eqn:E.
      * destruct (d2 !! k); by eexists.
      * rewrite (left_id None _). unfold d2.
        destruct (decide (k = "id")) as [->|Hne].
        -- rewrite lookup_insert_eq. by eexists.
        -- by rewrite lookup_insert_ne.
  - split; [done |]. split; [by rewrite Hheap, list_lookup_insert_eq |].
    split; [apply lookup_insert_eq |]. intros k Hk. by apply lookup_insert_ne.
Qed.

(** C9. With a connection of [getConnection]: when the initial select
    [SELECT * FROM table WHERE field = ?] finds a row, the caller's objects
    are left as they were.  When it finds none and the insert
    [INSERT INTO table SET ?] succeeds, the caller's own record has gained
    the property [id] by the time [getOrCreate] ends, whether the re-select
    then returns or throws, and nothing else has changed: its value is the
    [insertId] of a mysql2 header when that is not 0, [undefined] for a
    header whose [insertId] is 0 and for an empty row set, and the [id] of
    the first row of a row set that is not empty.  When a statement fails
    before that, the record is unchanged. *)
Theorem getOrCreate_assigns_id_in_place
    (w0 wc : world) (conn : Connection) (table uniqueField : string)
    (data : nat) (w : world) (d : record) :
  getConnection w0 = (Return conn, wc) →
  w_heap w !! data = Some d →
  let selectQuery :=
    format conn ("SELECT * FROM " +:+ table +:+ " WHERE " +:+ uniqueField +:+ " = ?")
      (PArray [PVal (get_field d uniqueField)]) in
  let insertQuery := format conn ("INSERT INTO " +:+ table +:+ " SET ?") (PObject d) in
  let final := (getOrCreate conn table data uniqueField w).2 in
  let gained (id : value) : Prop :=
    w_heap final = <[data := <["id" := id]> d]> (w_heap w)
    ∧ w_heap final !! data = Some (<["id" := id]> d) in
  match query conn selectQuery None w with
  | (Return (QRows (_ :: _)), _) => w_heap final = w_heap w
  | (Return (QRows []), w1) | (Return (QHeader _), w1) =>
      match query conn insertQuery None w1 with
      | (Return (QHeader h), _) =>
          if (insertId h =? 0)%Z then gained VUndefined
          else gained (VNum (insertId h))
      | (Return (QRows []), _) => gained VUndefined
      | (Return (QRows (first :: _)), _) => gained (get_field first "id")
      | (Throw _, _) => w_heap final = w_heap w
      end
  | (Throw _, _) => w_heap final = w_heap w
  end.
Proof.
  intros Hconn Hd selectQuery insertQuery final gained.
  destruct (getConnection_inv _ _ _ Hconn) as (Hquery & _ & _).
  assert (Hlt : data < length (w_heap w)) by by eapply lookup_lt_Some.
  assert (Hinsert : ∀ rows w1,
            query conn selectQuery None w = (Return rows, w1) →
            first_row rows = None →
            match query conn insertQuery None w1 with
            | (Return result, _) => gained (assigned_id result)
            | (Throw _, _) => w_heap final = w_heap w
            end).
  { intros rows w1 Hq1 Hrows.
    assert (Hh1 : w_heap w1 = w_heap w).
    { rewrite Hquery in Hq1. by apply queryWrapper_run in Hq1 as [? _]. }
    destruct (query conn insertQuery None w1) as [[result|e] w2] eqn:Hq2.
    - set (d2 := <["id" := assigned_id result]> d).
      destruct (query conn
                  (format conn (select_where table uniqueField)
                     (PArray [PVal (get_field d2 uniqueField)])) None
                  (World (w_db w2) (<[data := d2]> (w_heap w)) (w_log w2)))
        as [o3 w3] eqn:Hq3.
      destruct (getOrCreate_insert_run conn table uniqueField data w w1 w2 w3 d
                  rows result o3 Hquery Hd Hq1 Hrows Hq2 Hq3) as [Hrun Hheap].
      unfold gained, final. rewrite Hrun. simpl.
      split; [done |]. by rewrite Hheap, list_lookup_insert_eq.
    - assert (Hh2 : w_heap w2 = w_heap w).
      { rewrite Hquery in Hq2. apply queryWrapper_run in Hq2 as [? _]. congruence. }
      unfold final, getOrCreate, try_catch, mbind, M_bind, read.
      rewrite Hd. simpl.
      change (format conn (select_where table uniqueField)
                (PArray [PVal (get_field d uniqueField)])) with selectQuery.
      rewrite Hq1, Hrows.
      change (format conn (insert_set table) (PObject d)) with insertQuery.
      rewrite Hq2. done. }
  assert (Hcases : ∀ w1,
            match query conn insertQuery None w1 with
            | (Return result, _) => gained (assigned_id result)
            | (Throw _, _) => w_heap final = w_heap w
            end →
            match query conn insertQuery None w1 with
            | (Return (QHeader h), _) =>
                if (insertId h =? 0)%Z then gained VUndefined
                else gained (VNum (insertId h))
            | (Return (QRows []), _) => gained VUndefined
            | (Return (QRows (first :: _)), _) => gained (get_field first "id")
            | (Throw _, _) => w_heap final = w_heap w
            end).
  { intros w1. destruct (query conn insertQuery None w1) as [[[[|first rest]|h]|e] w2];
      try done.
    unfold assigned_id, js_or. simpl. by destruct (insertId h =? 0)%Z. }
  destruct (query conn selectQuery None w) as [[[[|r rs]|h]|e] w1] eqn:Hq1.
  - apply Hcases. by apply (Hinsert (QRows [])).
  - unfold final.
    rewrite (getOrCreate_found_run conn table uniqueField data w w1 d r
               (QRows (r :: rs))) by done.
    rewrite Hquery in Hq1. by apply queryWrapper_run in Hq1 as [? _].
  - apply Hcases. by apply (Hinsert (QHeader h)).
  - assert (Hh1 : w_heap w1 = w_heap w).
    { rewrite Hquery in Hq1. by apply queryWrapper_run in Hq1 as [? _]. }
    unfold final, getOrCreate, try_catch, mbind, M_bind, read.
    rewrite Hd. simpl.
    change (format conn (select_where table uniqueField)
              (PArray [PVal (get_field d uniqueField)])) with selectQuery.
    rewrite Hq1. done.
Qed.

(** ** The CRUD handlers *)

Lemma getConnection_ok (w : world) :
  supported → pool_connect (w_db w) = None →
  ∃ conn, getConnection w = (Return conn, acquired w)
          ∧ query conn = queryWrapper ∧ release conn = emit EvRelease.
Proof.
  intros Hs Hp. unfold getConnection.
  destruct Hs as [Hs|Hs]; rewrite Hs; repeat case_decide; try done;
    unfold mbind, M_bind, pool_acquire, emit, mret, M_ret; rewrite Hp;
    by eexists.
Qed.

(** Unfolds the frame [getConnection / try / catch / finally / release] of a
    handler whose connection is [conn]. *)
Ltac enter_handler Hget Hquery Hrelease :=
  unfold mbind, M_bind, try_finally, try_catch;
  rewrite Hget; simpl; rewrite ?Hquery, ?Hrelease.

(** C2, as the code has it. With either backend configured and a connection
    at hand, let the INSERT of a POST succeed.  When the adapter returns the
    header of a mysql2 write, the array destructuring of the handler throws
    and the answer is 500 with the creation error, for every resource; the
    same happens when the adapter returns the empty row list of a pg INSERT
    and the reply reads [result.insertId].  No 201 is sent. *)
Theorem post_answers_500_after_insert
    (r : resource) (req : request) (w w1 : world) (q : qresult) :
  supported →
  pool_connect (w_db w) = None →
  queryWrapper (post_sql r)
    (Some (PArray (field_values (req_body req) (post_fields r)))) (acquired w)
    = (Return q, w1) →
  (∃ h, q = QHeader h) ∨ (q = QRows [] ∧ post_reply r ≠ EchoFields) →
  post r req w
  = (Return (), after w1 [EvResponse 500 (error_body (post_error r)); EvRelease]).
Proof.
  intros Hs Hp Hq Hshape.
  destruct (getConnection_ok w Hs Hp) as (conn & Hget & Hquery & Hrelease).
  unfold post. enter_handler Hget Hquery Hrelease. rewrite Hq.
  destruct Hshape as [[h ->]|[-> Hreply]]; simpl.
  - unfold after, emit. simpl. by rewrite <- app_assoc.
  - destruct (post_reply r); [done | |]; simpl;
      unfold after, emit; simpl; by rewrite <- app_assoc.
Qed.

(** C10. With either backend configured and a connection at hand, for
    every resource and every key: if the UPDATE of a PUT does not throw,
    whatever it returns (the header of a write that matched no row
    included), the answer is 200 with the body [{ message: ... }] of the
    route; so it is, independently, for the DELETE of a DELETE; whereas a
    GET by key whose select returns no row answers 404 with
    [{ error: ... }].  The connection is released after the response. *)
Theorem put_and_delete_answer_200_whatever_matched
    (r : resource) (req : request) (w : world) :
  supported →
  pool_connect (w_db w) = None →
  (∀ (q : qresult) (w1 : world),
     queryWrapper (put_sql r)
       (Some (PArray (field_values (req_body req) (put_fields r)
                      ++ [PVal (VStr (req_key req))]))) (acquired w)
     = (Return q, w1) →
     put r req w
     = (Return (),
        after w1 [EvResponse 200 (BodyObject {[ "message" := VStr (put_done r) ]});
                  EvRelease]))
  ∧ (∀ (q : qresult) (w1 : world),
       queryWrapper (delete_sql r) (Some (PArray [PVal (VStr (req_key req))]))
         (acquired w)
       = (Return q, w1) →
       delete_one r req w
       = (Return (),
          after w1 [EvResponse 200
                      (BodyObject {[ "message" := VStr (delete_done r) ]});
                    EvRelease]))
  ∧ (∀ w1 : world,
       queryWrapper (get_sql r) (Some (PArray [PVal (VStr (req_key req))]))
         (acquired w)
       = (Return (QRows []), w1) →
       get_one r req w
       = (Return (),
          after w1 [EvResponse 404 (BodyObject {[ "error" := VStr (get_missing r) ]});
                    EvRelease])).
Proof.
  intros Hs Hp.
  destruct (getConnection_ok w Hs Hp) as (conn & Hget & Hquery & Hrelease).
  split; [| split].
  - intros q w1 Hput. unfold put. enter_handler Hget Hquery Hrelease.
    rewrite Hput. simpl.
    unfold after, emit. simpl. by rewrite <- app_assoc.
  - intros q w1 Hdel. unfold delete_one. enter_handler Hget Hquery Hrelease.
    rewrite Hdel. simpl.
    unfold after, emit. simpl. by rewrite <- app_assoc.
  - intros w1 Hsel. unfold get_one. enter_handler Hget Hquery Hrelease.
    rewrite Hsel. simpl.
    unfold after, emit. simpl. by rewrite <- app_assoc.
Qed.

(** ** What a computation may add to the log *)

Section EmitsOnly.

Variable P : event → bool.
Hypothesis P_query : ∀ sql ps, P (EvQuery sql ps) = true.

Lemma emits_ret {A : Type} (a : A) : emits_only P (mret a).
Proof. intros w. exists []. by rewrite app_nil_r. Qed.

Lemma emits_throw {A : Type} (e : js_error) : emits_only P (throw (A:=A) e).
Proof. intros w. exists []. by rewrite app_nil_r. Qed.

Lemma emits_bind {A B : Type} (m : M A) (f : A → M B) :
  emits_only P m → (∀ a, emits_only P (f a)) → emits_only P (m ≫= f).
Proof.
  intros Hm Hf w. unfold mbind, M_bind.
  destruct (Hm w) as (evs & Hlog & Hc).
  destruct (m w) as [[a|e] w1]; simpl in *.
  - destruct (Hf a w1) as (evs' & Hlog' & Hc').
    exists (evs ++ evs'). rewrite Hlog', Hlog, <- app_assoc.
    by rewrite forallb_app, Hc, Hc'.
  - by exists evs.
Qed.

Lemma emits_try_catch {A : Type} (m : M A) (handler : js_error → M A) :
  emits_only P m → (∀ e, emits_only P (handler e)) →
  emits_only P (try_catch m handler).
Proof.
  intros Hm Hh w. unfold try_catch.
  destruct (Hm w) as (evs & Hlog & Hc).
  destruct (m w) as [[a|e] w1]; simpl in *.
  - by exists evs.
  - destruct (Hh e w1) as (evs' & Hlog' & Hc').
    exists (evs ++ evs'). rewrite Hlog', Hlog, <- app_assoc.
    by rewrite forallb_app, Hc, Hc'.
Qed.

Lemma emits_emit (e : event) : P e = true → emits_only P (emit e).
Proof. intros He w. exists [e]. simpl. by rewrite He. Qed.

Lemma emits_alloc (r : record) : emits_only P (alloc r).
Proof. intros w. exists []. by rewrite app_nil_r. Qed.

Lemma emits_read (l : nat) : emits_only P (read l).
Proof. intros w. exists []. by rewrite app_nil_r. Qed.

Lemma emits_assign (l : nat) (k : string) (v : value) : emits_only P (assign l k v).
Proof. intros w. exists []. by rewrite app_nil_r. Qed.

Lemma emits_deref (o : jsobj) : emits_only P (deref o).
Proof. destruct o; [apply emits_ret | apply emits_read]. Qed.

Lemma emits_queryWrapper (sql : string) (ps : option params) :
  emits_only P (queryWrapper sql ps).
Proof.
  intros w. exists [EvQuery (wire_sql sql) ps].
  split; [apply queryWrapper_effect | simpl; by rewrite P_query].
Qed.

Lemma emits_destructure_first (q : qresult) : emits_only P (destructure_first q).
Proof. destruct q as [[|r rows]|h]; [apply emits_ret.. | apply emits_throw]. Qed.

Lemma emits_get_prop (x : option record) (k : string) : emits_only P (get_prop x k).
Proof. destruct x; [apply emits_ret | apply emits_throw]. Qed.

Lemma emits_scalar_id_practica (v : value) : emits_only P (scalar_id_practica v).
Proof. destruct v; first [apply emits_ret | apply emits_throw]. Qed.

(** Breaks a sequence of binds into its steps. *)
Ltac emits_steps :=
  repeat first
    [ apply emits_ret | apply emits_throw | apply emits_alloc | apply emits_read
    | apply emits_assign | apply emits_deref | apply emits_queryWrapper
    | apply emits_destructure_first | apply emits_get_prop
    | apply emits_scalar_id_practica
    | apply emits_emit; reflexivity
    | apply emits_bind; [| intros ? ]
    | apply emits_try_catch; [| intros ? ]
    | match goal with
      | |- emits_only _ (match ?x with _ => _ end) => destruct x
      | |- emits_only _ (if ?b then _ else _) => destruct b
      end ].

Lemma emits_getOrCreate (conn : Connection) (table uniqueField : string) (data : nat) :
  query conn = queryWrapper →
  emits_only P (getOrCreate conn table data uniqueField).
Proof.
  intros Hq. unfold getOrCreate, console_error. rewrite Hq. emits_steps.
Qed.

Lemma emits_upsert_practica (conn : Connection) (practicaData : record)
    (a b c : value) :
  query conn = queryWrapper →
  emits_only P (upsert_practica conn practicaData a b c).
Proof. intros Hq. unfold upsert_practica. rewrite Hq. emits_steps. Qed.

Lemma emits_process_row (conn : Connection) (row : record) :
  query conn = queryWrapper → emits_only P (process_row conn row).
Proof.
  intros Hq. unfold process_row.
  repeat first
    [ apply emits_getOrCreate; exact Hq
    | apply emits_upsert_practica; exact Hq
    | apply emits_alloc | apply emits_deref
    | apply emits_bind; [| intros ? ] ].
Qed.

Lemma emits_process_rows (conn : Connection) (jsonData : list record) :
  query conn = queryWrapper → emits_only P (process_rows conn jsonData).
Proof.
  intros Hq. induction jsonData as [|row rest IH]; simpl.
  - apply emits_ret.
  - apply emits_bind; [by apply emits_process_row | by intros _].
Qed.

End EmitsOnly.

(** ** What a computation may do to the database *)

Section Keeps.

Variable J : DB → Prop.
Variable allowed : string → Prop.
Hypothesis J_query :
  ∀ db sql ps, allowed sql → J db → J (client_query db sql ps).2.

Lemma keeps_ret {A : Type} (a : A) : keeps J (mret a).
Proof. by intros w. Qed.

Lemma keeps_throw {A : Type} (e : js_error) : keeps J (throw (A:=A) e).
Proof. by intros w. Qed.

Lemma keeps_bind {A B : Type} (m : M A) (f : A → M B) :
  keeps J m → (∀ a, keeps J (f a)) → keeps J (m ≫= f).
Proof.
  intros Hm Hf w Hw. unfold mbind, M_bind.
  specialize (Hm w Hw). destruct (m w) as [[a|e] w1]; simpl in *.
  - by apply Hf.
  - done.
Qed.

Lemma keeps_try_catch {A : Type} (m : M A) (handler : js_error → M A) :
  keeps J m → (∀ e, keeps J (handler e)) → keeps J (try_catch m handler).
Proof.
  intros Hm Hh w Hw. unfold try_catch.
  specialize (Hm w Hw). destruct (m w) as [[a|e] w1]; simpl in *.
  - done.
  - by apply Hh.
Qed.

Lemma keeps_alloc (r : record) : keeps J (alloc r).
Proof. by intros w. Qed.

Lemma keeps_read (l : nat) : keeps J (read l).
Proof. by intros w. Qed.

Lemma keeps_assign (l : nat) (k : string) (v : value) : keeps J (assign l k v).
Proof. by intros w. Qed.

Lemma keeps_deref (o : jsobj) : keeps J (deref o).
Proof. destruct o; [apply keeps_ret | apply keeps_read]. Qed.

Lemma keeps_destructure_first (q : qresult) : keeps J (destructure_first q).
Proof. destruct q as [[|r rows]|h]; [apply keeps_ret.. | apply keeps_throw]. Qed.

Lemma keeps_get_prop (x : option record) (k : string) : keeps J (get_prop x k).
Proof. destruct x; [apply keeps_ret | apply keeps_throw]. Qed.

Lemma keeps_scalar_id_practica (v : value) : keeps J (scalar_id_practica v).
Proof. destruct v; first [apply keeps_ret | apply keeps_throw]. Qed.

Lemma keeps_queryWrapper (sql : string) (ps : option params) :
  allowed (wire_sql sql) → keeps J (queryWrapper sql ps).
Proof.
  intros Hsql w Hw. unfold queryWrapper, mbind, M_bind, client_query_await.
  pose proof (J_query (w_db w) (wire_sql sql) ps Hsql Hw) as Hdb.
  by destruct (client_query (w_db w) (wire_sql sql) ps) as [[e|result] db1].
Qed.

Section Connection.

Variable conn : Connection.
Hypothesis conn_query : query conn = queryWrapper.
Hypothesis conn_select :
  ∀ table uniqueField ps,
    allowed (wire_sql (format conn (select_where table uniqueField) ps)).
Hypothesis conn_insert :
  ∀ table ps, allowed (wire_sql (format conn (insert_set table) ps)).
Hypothesis practica_allowed :
  allowed (wire_sql practica_select) ∧ allowed (wire_sql practica_update)
  ∧ allowed (wire_sql practica_insert).

Ltac keeps_steps :=
  repeat first
    [ apply keeps_ret | apply keeps_throw | apply keeps_alloc | apply keeps_read
    | apply keeps_assign | apply keeps_deref
    | apply keeps_queryWrapper; first [apply conn_select | apply conn_insert
                                      | apply practica_allowed]
    | apply keeps_destructure_first | apply keeps_get_prop
    | apply keeps_scalar_id_practica
    | apply keeps_bind; [| intros ? ]
    | apply keeps_try_catch; [| intros ? ]
    | match goal with
      | |- keeps _ (match ?x with _ => _ end) => destruct x
      | |- keeps _ (if ?b then _ else _) => destruct b
      end ].

Lemma keeps_getOrCreate (table uniqueField : string) (data : nat) :
  keeps J (getOrCreate conn table data uniqueField).
Proof. unfold getOrCreate, console_error. rewrite conn_query. keeps_steps. Qed.

Lemma keeps_upsert_practica (practicaData : record) (a b c : value) :
  keeps J (upsert_practica conn practicaData a b c).
Proof. unfold upsert_practica. rewrite conn_query. keeps_steps. Qed.

Lemma keeps_process_row (row : record) : keeps J (process_row conn row).
Proof.
  unfold process_row.
  repeat first
    [ apply keeps_getOrCreate
    | apply keeps_upsert_practica
    | apply keeps_alloc | apply keeps_deref
    | apply keeps_bind; [| intros ? ] ].
Qed.

Lemma keeps_process_rows (jsonData : list record) :
  keeps J (process_rows conn jsonData).
Proof.
  induction jsonData as [|row rest IH]; simpl.
  - apply keeps_ret.
  - apply keeps_bind; [apply keeps_process_row | by intros _].
Qed.

End Connection.

End Keeps.

(** ** Pool traffic *)

Lemma no_conn_events (evs : list event) :
  forallb not_conn_event evs = true → conn_events evs = [].
Proof.
  induction evs as [|e evs IH]; [done |].
  simpl. unfold not_conn_event at 1. destruct (is_conn_event e); [done |].
  simpl. apply IH.
Qed.

Lemma getConnection_throw (w w1 : world) (e : js_error) :
  getConnection w = (Throw e, w1) → w1 = w.
Proof.
  unfold getConnection. repeat case_decide;
    unfold mbind, M_bind, pool_acquire, emit, throw;
    destruct (pool_connect (w_db w)); intros Hrun; by simplify_eq.
Qed.

(** The frame shared by every handler: acquire, run the body under
    [try / catch], release under [finally]. *)
Lemma frame_released_once (body : Connection → M unit)
    (handler : Connection → js_error → M unit) (w : world) :
  (∀ conn, query conn = queryWrapper → emits_only not_conn_event (body conn)) →
  (∀ conn e, query conn = queryWrapper → emits_only not_conn_event (handler conn e)) →
  ∃ evs,
    w_log ((getConnection ≫= λ connection,
              try_finally (try_catch (body connection) (handler connection))
                (release connection)) w).2 = w_log w ++ evs
    ∧ released_once evs.
Proof.
  intros Hbody Hhandler. unfold mbind, M_bind.
  destruct (getConnection w) as [[conn|e] w1] eqn:Hget.
  - destruct (getConnection_inv _ _ _ Hget) as (Hquery & Hrelease & ->).
    destruct (emits_try_catch not_conn_event (body conn) (handler conn)
                (Hbody conn Hquery) (λ e, Hhandler conn e Hquery) (acquired w))
      as (mid & Hlog & Hmid).
    fold (acquired w).
    unfold try_finally. rewrite Hrelease.
    destruct (try_catch (body conn) (handler conn) (acquired w)) as [o w2].
    simpl in *. exists (EvAcquire :: mid ++ [EvRelease]). split.
    + rewrite Hlog. by rewrite <- !app_assoc.
    + right. exists mid. split; [done | by apply no_conn_events].
  - apply getConnection_throw in Hget as ->. exists []. split.
    + by rewrite app_nil_r.
    + by left.
Qed.

(** C8. Whatever the configuration, the pool, the database and the request,
    every entry point (the five verbs of any resource, and the import)
    leaves in the log either no pool traffic at all (no connection was
    acquired) or exactly one acquisition, as its first event, and exactly
    one release, as its last event, whether it returns or throws. *)
Theorem every_acquired_connection_is_released_once (e : endpoint) (w : world) :
  ∃ evs, w_log (serve e w).2 = w_log w ++ evs ∧ released_once evs.
Proof.
  assert (Hq : ∀ sql ps, not_conn_event (EvQuery sql ps) = true) by done.
  destruct e as [r|r req|r req|r req|r req|req]; simpl.
  - unfold get_all. apply frame_released_once.
    + intros conn Hquery. rewrite Hquery.
      apply emits_bind; [by apply emits_queryWrapper |].
      intros rows. by apply emits_emit.
    + intros conn err _. apply emits_bind; [apply emits_ret |].
      intros _. by apply emits_emit.
  - unfold get_one. apply frame_released_once.
    + intros conn Hquery. rewrite Hquery.
      apply emits_bind; [by apply emits_queryWrapper |].
      intros [[|row rows]|h]; by apply emits_emit.
    + intros conn err _. apply emits_bind; [apply emits_ret |].
      intros _. by apply emits_emit.
  - unfold post. apply frame_released_once.
    + intros conn Hquery. rewrite Hquery.
      apply emits_bind; [by apply emits_queryWrapper |]. intros q.
      apply emits_bind; [apply emits_destructure_first |]. intros result.
      apply emits_bind; [| intros reply; by apply emits_emit].
      destruct (post_reply r); [apply emits_ret | |];
        (apply emits_bind; [apply emits_get_prop | intros id; apply emits_ret]).
    + intros conn err _. apply emits_bind; [apply emits_ret |].
      intros _. by apply emits_emit.
  - unfold put. apply frame_released_once.
    + intros conn Hquery. rewrite Hquery.
      apply emits_bind; [by apply emits_queryWrapper |].
      intros _. by apply emits_emit.
    + intros conn err _. apply emits_bind; [apply emits_ret |].
      intros _. by apply emits_emit.
  - unfold delete_one. apply frame_released_once.
    + intros conn Hquery. rewrite Hquery.
      apply emits_bind; [by apply emits_queryWrapper |].
      intros _. by apply emits_emit.
    + intros conn err _. apply emits_bind; [apply emits_ret |].
      intros _. by apply emits_emit.
  - unfold upload. destruct (req_file req) as [workbook|].
    + destruct (workbook !! sheetName) as [jsonData|].
      * apply frame_released_once.
        -- intros conn Hquery. rewrite Hquery.
           apply emits_bind; [by apply emits_queryWrapper |]. intros _.
           apply emits_bind; [by apply emits_process_rows |].
           intros _.
           apply emits_bind; [by apply emits_queryWrapper |]. intros _.
           by apply emits_emit.
        -- intros conn err Hquery. rewrite Hquery.
           apply emits_bind; [by apply emits_queryWrapper |]. intros _.
           apply emits_bind; [apply emits_ret |]. intros _.
           by apply emits_emit.
      * exists [EvResponse 400 (error_body ("La hoja con nombre " +:+ dquote
                  +:+ sheetName +:+ dquote +:+ " no existe."))].
        split; [done | by left].
    + exists [EvResponse 400 (error_body "No se ha subido ningún archivo.")].
      split; [done | by left].
Qed.

(** ** The first character of a formatted statement *)

Lemma getConnection_format (w0 w1 : world) (conn : Connection) :
  getConnection w0 = (Return conn, w1) →
  (dbType = Some "mysql" ∧ format conn = mysql_format)
  ∨ (dbType = Some "postgres" ∧ format conn = pg_format).
Proof.
  unfold getConnection, mbind, M_bind, pool_acquire, emit, mret, M_ret.
  repeat case_decide; destruct (pool_connect (w_db w0)); intros Hrun;
    simplify_eq; auto.
Qed.

Lemma wire_sql_mysql (sql : string) : dbType = Some "mysql" → wire_sql sql = sql.
Proof. intros Hm. unfold wire_sql. rewrite Hm. by case_decide. Qed.

Lemma wire_sql_postgres (sql : string) :
  dbType = Some "postgres" → wire_sql sql = convertQuestionMarksToDollarSigns sql.
Proof. intros Hm. unfold wire_sql. rewrite Hm. by case_decide. Qed.

(** A replacement of markers keeps a first character that is not a marker. *)
Lemma replace_marks_head {St : Type} (cb : nat → St → string * St)
    (offset : nat) (st : St) (c : ascii) (s : string) :
  is_mark c = false →
  ∃ out, (replace_marks cb offset st (String c s)).1 = String c out.
Proof.
  intros Hc. simpl. rewrite Hc.
  destruct (replace_marks cb (S offset) st s) as [out st1]. by exists out.
Qed.

Lemma convert_head (c : ascii) (s : string) :
  is_mark c = false →
  ∃ out, convertQuestionMarksToDollarSigns (String c s) = String c out.
Proof. intros Hc. by apply replace_marks_head. Qed.

Lemma pg_format_head (c : ascii) (s : string) (ps : params) :
  is_mark c = false → ∃ out, pg_format (String c s) ps = String c out.
Proof. intros Hc. by apply replace_marks_head. Qed.

Lemma responses_app (a b : list event) :
  responses (a ++ b) = responses a ++ responses b.
Proof.
  induction a as [|e a IH]; [done |].
  destruct e; simpl; by rewrite ?IH.
Qed.

Lemma responses_queries (evs : list event) :
  forallb is_query evs = true → responses evs = [].
Proof.
  induction evs as [|e evs IH]; [done |].
  destruct e; simpl; auto; done.
Qed.

(** ** The bulk import *)

(** C1, as the code has it. Let the select of the last step of a row return
    the rows stored for the (student, company, program) triple, the first of
    which has no column named [length].  When there is no such row the step
    throws before any write; when there is one, the step issues the INSERT
    again and never the UPDATE. *)
Theorem upsert_practica_never_updates
    (conn : Connection) (practicaData : record)
    (id_estudiante id_empresa id_programa : value) (w w1 : world)
    (rows : list record) :
  query conn practica_select
    (Some (PArray [PVal id_estudiante; PVal id_empresa; PVal id_programa])) w
    = (Return (QRows rows), w1) →
  (∀ row, rows !! 0 = Some row → row !! "length" = None) →
  upsert_practica conn practicaData id_estudiante id_empresa id_programa w
  = match rows with
    | [] => (Throw (TypeError "Cannot read properties of undefined"), w1)
    | _ :: _ =>
        (query conn practica_insert (Some (PObject practicaData)) ;; mret ()) w1
    end.
Proof.
  intros Hq Hlen.
  unfold upsert_practica, mbind, M_bind. rewrite Hq.
  destruct rows as [|row rest]; [done |].
  simpl. unfold get_field. rewrite (Hlen row eq_refl). simpl. done.
Qed.

Lemma wire_sql_BEGIN : wire_sql "BEGIN" = "BEGIN".
Proof. unfold wire_sql. by case_decide. Qed.

Lemma wire_sql_COMMIT : wire_sql "COMMIT" = "COMMIT".
Proof. unfold wire_sql. by case_decide. Qed.

Lemma wire_sql_ROLLBACK : wire_sql "ROLLBACK" = "ROLLBACK".
Proof. unfold wire_sql. by case_decide. Qed.

(** A row that throws ends the loop: the rows after it are not run. *)
Lemma process_rows_stops (conn : Connection) (pre post : list record)
    (row : record) (wa wb wc : world) (e : js_error) :
  process_rows conn pre wa = (Return (), wb) →
  process_row conn row wb = (Throw e, wc) →
  process_rows conn (pre ++ row :: post) wa = (Throw e, wc).
Proof.
  revert wa. induction pre as [|r pre IH]; intros wa Hpre Hrow.
  - simpl in *. unfold mret, M_ret in Hpre. simplify_eq.
    unfold mbind, M_bind. by rewrite Hrow.
  - simpl in *. unfold mbind, M_bind in *.
    destruct (process_row conn r wa) as [[[]|e'] w'] eqn:Hr; [| done].
    by apply IH.
Qed.

(** ** The [format] of the postgres adapter *)

Lemma count_marks_app (a b : string) :
  count_marks (a +:+ b) = count_marks a + count_marks b.
Proof.
  induction a as [|c a IH]; [done |].
  rewrite append_cons. simpl. rewrite IH. lia.
Qed.

(** A text without markers is copied, and moves the offset by its length. *)
Lemma replace_marks_prefix {St : Type} (cb : nat → St → string * St)
    (offset : nat) (st : St) (a b : string) :
  mark_free a →
  replace_marks cb offset st (a +:+ b)
  = ((a +:+ (replace_marks cb (offset + String.length a) st b).1),
     (replace_marks cb (offset + String.length a) st b).2).
Proof.
  revert offset. induction a as [|c a IH]; intros offset Ha.
  - rewrite !append_nil. simpl. rewrite Nat.add_0_r.
    by destruct (replace_marks cb offset st b).
  - unfold mark_free in Ha. simpl in Ha.
    destruct (is_mark c) eqn:Hc; [done |].
    rewrite !append_cons. simpl. rewrite Hc.
    rewrite (IH (S offset) Ha).
    replace (S offset + String.length a) with (offset + S (String.length a)) by lia.
    done.
Qed.

(** On the select of [getOrCreate] the postgres [format] never renders the
    value: the offset of the marker, not its rank, indexes the parameters. *)
Lemma pg_format_select_where (table uniqueField : string) (v : value) :
  mark_free table → mark_free uniqueField →
  pg_format (select_where table uniqueField) (PArray [PVal v])
  = "SELECT * FROM " +:+ table +:+ " WHERE " +:+ uniqueField +:+ " = $undefined".
Proof.
  intros Ht Hu. unfold pg_format, select_where.
  set (prefix := "SELECT * FROM " +:+ table +:+ " WHERE " +:+ uniqueField +:+ " = ").
  assert (Hp : mark_free prefix).
  { unfold mark_free, prefix in *. rewrite !count_marks_app, Ht, Hu. done. }
  assert (Hlen : (2 ≤ String.length prefix)%nat).
  { unfold prefix. rewrite !append_cons. simpl. lia. }
  assert (E1 : "SELECT * FROM " +:+ table +:+ " WHERE " +:+ uniqueField +:+ " = ?"
               = prefix +:+ "?").
  { unfold prefix. by rewrite !append_assoc. }
  assert (E2 : "SELECT * FROM " +:+ table +:+ " WHERE " +:+ uniqueField
                 +:+ " = $undefined" = prefix +:+ "$undefined").
  { unfold prefix. by rewrite !append_assoc. }
  rewrite E1, E2. clear E1 E2. clearbody prefix.
  rewrite replace_marks_prefix by done. simpl.
  f_equal.
  destruct (String.length prefix) as [|[|n]]; [lia | lia |].
  unfold params_at.
  replace (Z.of_nat (S (S n)) - 1 <? 0)%Z with false by (symmetry; apply Z.ltb_ge; lia).
  replace (Z.to_nat (Z.of_nat (S (S n)) - 1)) with (S n) by lia.
  done.
Qed.

(** On the insert shorthand the postgres [format] reads the property of the
    Record whose name is the offset of the marker minus one. *)
Lemma pg_format_insert_set (table : string) (d : record) :
  mark_free table →
  pg_format (insert_set table) (PObject d)
  = "INSERT INTO " +:+ table +:+ " SET $"
    +:+ to_string
          (get_field d
             (pretty (Z.of_nat (String.length ("INSERT INTO " +:+ table +:+ " SET ")) - 1)%Z)).
Proof.
  intros Ht. unfold pg_format, insert_set.
  set (prefix := "INSERT INTO " +:+ table +:+ " SET ").
  assert (Hp : mark_free prefix).
  { unfold mark_free, prefix in *. rewrite !count_marks_app, Ht. done. }
  assert (E1 : "INSERT INTO " +:+ table +:+ " SET ?" = prefix +:+ "?").
  { unfold prefix. by rewrite !append_assoc. }
  assert (E2 : ∀ x, "INSERT INTO " +:+ table +:+ " SET $" +:+ x
                    = prefix +:+ "$" +:+ x).
  { intros x. unfold prefix. by rewrite !append_assoc. }
  rewrite E1, E2. clear E1 E2. clearbody prefix.
  rewrite replace_marks_prefix by done. simpl.
  by rewrite append_assoc, append_empty_r.
Qed.

(** C3, as the code has it. On the postgres adapter, for every table and
    field name without markers and every value, the select of [getOrCreate]
    is rendered with the text [$undefined] in place of the value; and for
    every Record that has no property named after the offset of the marker,
    the insert shorthand is rendered as [SET $undefined] rather than as a
    column and value list. *)
Theorem pg_format_loses_the_parameters
    (table uniqueField : string) (v : value) (d : record) :
  mark_free table →
  mark_free uniqueField →
  d !! pretty (Z.of_nat (String.length ("INSERT INTO " +:+ table +:+ " SET ")) - 1)%Z
    = None →
  pg_format (select_where table uniqueField) (PArray [PVal v])
  = "SELECT * FROM " +:+ table +:+ " WHERE " +:+ uniqueField +:+ " = $undefined"
  ∧ pg_format (insert_set table) (PObject d)
    = "INSERT INTO " +:+ table +:+ " SET $undefined".
Proof.
  intros Ht Hu Hd. split.
  - by apply pg_format_select_where.
  - rewrite pg_format_insert_set by done.
    unfold get_field. rewrite Hd. reflexivity.
Qed.

(** ** The placeholder translator, continued *)

Lemma replace_marks_free {St : Type} (cb : nat → St → string * St)
    (offset : nat) (st : St) (s : string) :
  mark_free s → replace_marks cb offset st s = (s, st).
Proof.
  revert offset. induction s as [|c s IH]; intros offset Hs; [done |].
  unfold mark_free in Hs. simpl in Hs.
  destruct (is_mark c) eqn:Hc; [done |].
  simpl. rewrite Hc. by rewrite (IH (S offset) Hs).
Qed.

(** C5, as the code has it.  Let the connection be one of [getConnection]
    and let the candidate's key match a stored row: [holds] gives the rows
    of the table, and [r] is the first of them whose unique field equals
    the candidate's.

    On mysql, with a server that answers the select
    [SELECT * FROM table WHERE field = ?], rendered with the key by the
    [format] of mysql2, with the matching rows and changes nothing by it:
    [getOrCreate] returns [r] as it is stored, the select is the only
    statement it sends (so no insert) and the candidate is not touched; a
    second call in sequence returns [r] again and again sends the select
    alone.

    On postgres, for a table and a field named without markers, the
    statement that reaches the server is
    [SELECT * FROM table WHERE field = $undefined], without parameters,
    whatever the key is; when the server rejects it, [getOrCreate] throws
    the server's error and returns no row, stored or not. *)
Theorem getOrCreate_found_is_idempotent
    (holds : DB → list record)
    (w0 wc : world) (conn : Connection) (table uniqueField : string)
    (data : nat) (w : world) (d r : record) :
  getConnection w0 = (Return conn, wc) →
  w_heap w !! data = Some d →
  let key := get_field d uniqueField in
  (dbType = Some "mysql" →
   let selectQuery :=
     mysql_format ("SELECT * FROM " +:+ table +:+ " WHERE " +:+ uniqueField +:+ " = ?")
       (PArray [PVal key]) in
   (∀ db, client_query db selectQuery None
          = (inr (MysqlResult (QRows (matching uniqueField key (holds db)))), db)) →
   head (matching uniqueField key (holds (w_db w))) = Some r →
   getOrCreate conn table data uniqueField w
   = (Return (Fresh r), after w [EvQuery selectQuery None])
   ∧ getOrCreate conn table data uniqueField (after w [EvQuery selectQuery None])
     = (Return (Fresh r),
        after w [EvQuery selectQuery None; EvQuery selectQuery None]))
  ∧ (dbType = Some "postgres" →
     mark_free table →
     mark_free uniqueField →
     let sent := "SELECT * FROM " +:+ table +:+ " WHERE " +:+ uniqueField
                 +:+ " = $undefined" in
     ∀ (e : js_error) (db' : DB),
       client_query (w_db w) sent None = (inl e, db') →
       getOrCreate conn table data uniqueField w
       = (Throw e, World db' (w_heap w) (w_log w ++ [EvQuery sent None]))).
Proof.
  intros Hconn Hd key.
  destruct (getConnection_inv _ _ _ Hconn) as (Hquery & _ & _).
  split.
  - intros Hm selectQuery Hserver Hfirst.
    assert (Hformat : format conn = mysql_format).
    { destruct (getConnection_format _ _ _ Hconn) as [[_ Hf]|[Hp _]];
        [done | congruence]. }
    assert (Hrun : ∀ w',
              w_db w' = w_db w → w_heap w' = w_heap w →
              getOrCreate conn table data uniqueField w'
              = (Return (Fresh r), after w' [EvQuery selectQuery None])).
    { intros w' Hdb Hheap.
      destruct (matching uniqueField key (holds (w_db w))) as [|r' rs] eqn:Hrows;
        [done |].
      injection Hfirst as ->.
      apply (getOrCreate_found_run conn table uniqueField data w'
               (after w' [EvQuery selectQuery None]) d r (QRows (r :: rs)));
        [by rewrite Hheap | | done].
      rewrite Hquery, Hformat.
      unfold queryWrapper, mbind, M_bind, client_query_await.
      rewrite (wire_sql_mysql _ Hm).
      change (mysql_format (select_where table uniqueField)
                (PArray [PVal (get_field d uniqueField)])) with selectQuery.
      rewrite Hserver, Hdb, Hrows. unfold after. by rewrite Hdb. }
    split; [by apply Hrun |].
    rewrite (Hrun (after w [EvQuery selectQuery None])) by done.
    unfold after. simpl. by rewrite <- app_assoc.
  - intros Hp Ht Hu sent e db' Hserver.
    assert (Hformat : format conn = pg_format).
    { destruct (getConnection_format _ _ _ Hconn) as [[Hm _]|[_ Hf]];
        [congruence | done]. }
    unfold getOrCreate, try_catch, mbind, M_bind, read.
    rewrite Hd. simpl. rewrite Hquery, Hformat.
    rewrite pg_format_select_where by done.
    unfold queryWrapper, mbind, M_bind, client_query_await.
    rewrite (wire_sql_postgres _ Hp).
    assert (Hfree : mark_free sent).
    { unfold sent, mark_free in *. by rewrite !count_marks_app, Ht, Hu. }
    unfold convertQuestionMarksToDollarSigns.
    rewrite replace_marks_free by done. simpl.
    fold sent. by rewrite Hserver.
Qed.

End Properties.

(** ** The import on a server with transactions *)

Section Transactions.

Variable e : Tx.engine.

Local Abbreviation tx := (Tx.transactional e).

(** While a transaction is open, a statement that is not BEGIN, COMMIT or
    ROLLBACK leaves the durable tables alone and the transaction open. *)
Lemma tx_keeps_open (d0 : Tx.tables e) (db : DB (Backend := tx)) (sql : string)
    (ps : option params) :
  Tx.is_control sql = false →
  Tx.durable db = d0 ∧ is_Some (Tx.working db) →
  Tx.durable (client_query (Backend := tx) db sql ps).2 = d0
  ∧ is_Some (Tx.working (client_query (Backend := tx) db sql ps).2).
Proof.
  intros Hsql [Hd [t Ht]]. simpl. unfold Tx.run, Tx.is_control in *.
  destruct (String.eqb sql "BEGIN"); [done |].
  destruct (String.eqb sql "COMMIT"); [done |].
  destruct (String.eqb sql "ROLLBACK"); [done |].
  destruct (Tx.exec e (Tx.view db) sql ps) as [reply t']. rewrite Ht. simpl.
  split; [done | by eexists].
Qed.

Lemma tx_begin (w : world (backend := tx)) :
  queryWrapper "BEGIN" None w
  = (Return (QHeader (Header 0 0)),
     @World tx (Tx.State (Tx.view (w_db w)) (Some (Tx.view (w_db w))))
       (w_heap w) (w_log w ++ [EvQuery "BEGIN" None])).
Proof.
  unfold queryWrapper, mbind, M_bind, client_query_await.
  by rewrite wire_sql_BEGIN.
Qed.

Lemma tx_commit (w : world (backend := tx)) :
  queryWrapper "COMMIT" None w
  = (Return (QHeader (Header 0 0)),
     @World tx (Tx.State (Tx.view (w_db w)) None)
       (w_heap w) (w_log w ++ [EvQuery "COMMIT" None])).
Proof.
  unfold queryWrapper, mbind, M_bind, client_query_await.
  by rewrite wire_sql_COMMIT.
Qed.

Lemma tx_rollback (w : world (backend := tx)) :
  queryWrapper "ROLLBACK" None w
  = (Return (QHeader (Header 0 0)),
     @World tx (Tx.State (Tx.durable (w_db w)) None)
       (w_heap w) (w_log w ++ [EvQuery "ROLLBACK" None])).
Proof.
  unfold queryWrapper, mbind, M_bind, client_query_await.
  by rewrite wire_sql_ROLLBACK.
Qed.

(** No statement of a row is BEGIN, COMMIT or ROLLBACK, as long as the
    [format] of mysql2 does not turn the two statements of [getOrCreate]
    into one of them. *)
Lemma tx_row_statements (w0 w1 : world (backend := tx)) (conn : Connection) :
  getConnection w0 = (Return conn, w1) →
  (∀ table uniqueField ps,
     Tx.is_control (Tx.formatter e (select_where table uniqueField) ps) = false) →
  (∀ table ps, Tx.is_control (Tx.formatter e (insert_set table) ps) = false) →
  (∀ table uniqueField ps,
     Tx.is_control (wire_sql (backend := tx)
                      (format conn (select_where table uniqueField) ps)) = false)
  ∧ (∀ table ps,
       Tx.is_control (wire_sql (backend := tx)
                        (format conn (insert_set table) ps)) = false)
  ∧ (Tx.is_control (wire_sql (backend := tx) practica_select) = false
     ∧ Tx.is_control (wire_sql (backend := tx) practica_update) = false
     ∧ Tx.is_control (wire_sql (backend := tx) practica_insert) = false).
Proof.
  intros Hget Hsel Hins.
  destruct (getConnection_format _ _ _ Hget) as [[Hm Hf]|[Hp Hf]]; rewrite Hf.
  - split; [| split].
    + intros. rewrite wire_sql_mysql by done. apply Hsel.
    + intros. rewrite wire_sql_mysql by done. apply Hins.
    + by rewrite !wire_sql_mysql by done.
  - split; [| split].
    + intros table uniqueField ps. rewrite wire_sql_postgres by done.
      unfold select_where. rewrite append_cons.
      edestruct (pg_format_head (backend := tx)) as [out ->]; [done |].
      edestruct convert_head as [out' ->]; done.
    + intros table ps. rewrite wire_sql_postgres by done.
      unfold insert_set. rewrite append_cons.
      edestruct (pg_format_head (backend := tx)) as [out ->]; [done |].
      edestruct convert_head as [out' ->]; done.
    + rewrite !wire_sql_postgres by done. by vm_compute.
Qed.

End Transactions.

(** C7, amended. First, for every backend, with a supported configuration,
    a connection at hand and a workbook that has the sheet: BEGIN is the
    first statement, before the statements of any row; a row that throws
    ends the loop; COMMIT is issued only when BEGIN and every row returned,
    and if it returns too the answer is 200; when BEGIN, a row or COMMIT
    throws, ROLLBACK is issued next and the release follows it; the answer
    is then 500 with the generic error if ROLLBACK returns, and no answer is
    sent if ROLLBACK itself throws; the database is left as the last of
    these statements left it.  Second, on a server with transactions, whose
    formatted statements are never BEGIN, COMMIT or ROLLBACK, an import
    started with no transaction open ends with none open and either answers
    200 or answers 500 with the durable tables exactly as they were. *)
Theorem upload_transaction_protocol :
  (∀ (backend : Backend) (req : upload_request)
     (workbook : gmap string (list record)) (jsonData : list record)
     (w : world),
     supported →
     pool_connect (w_db w) = None →
     req_file req = Some workbook →
     workbook !! sheetName = Some jsonData →
     ∃ conn,
       getConnection w = (Return conn, acquired w)
       ∧ let rows_run :=
           (query conn "BEGIN" None ;; process_rows conn jsonData) (acquired w) in
         let final := upload req w in
         let rolled_back (failed_at : world) : Prop :=
           let rollback := query conn "ROLLBACK" None failed_at in
           w_db final.2 = w_db rollback.2
           ∧ match rollback.1 with
             | Return _ =>
                 final.1 = Return ()
                 ∧ w_log final.2 = w_log failed_at
                     ++ [EvQuery "ROLLBACK" None;
                         EvResponse 500 (error_body upload_failed); EvRelease]
             | Throw e =>
                 final.1 = Throw e
                 ∧ w_log final.2
                   = w_log failed_at ++ [EvQuery "ROLLBACK" None; EvRelease]
             end in
         (∃ evs, w_log rows_run.2
                 = w_log w ++ [EvAcquire; EvQuery "BEGIN" None] ++ evs
                 ∧ forallb is_query evs = true)
         ∧ (∀ pre row post wa wb wc e,
              process_rows conn pre wa = (Return (), wb) →
              process_row conn row wb = (Throw e, wc) →
              process_rows conn (pre ++ row :: post) wa = (Throw e, wc))
         ∧ match rows_run.1 with
           | Return _ =>
               let commit := query conn "COMMIT" None rows_run.2 in
               w_log commit.2 = w_log rows_run.2 ++ [EvQuery "COMMIT" None]
               ∧ match commit.1 with
                 | Return _ =>
                     final.1 = Return ()
                     ∧ w_db final.2 = w_db commit.2
                     ∧ w_log final.2 = w_log commit.2
                         ++ [EvResponse 200 (message_body upload_ok); EvRelease]
                 | Throw _ => rolled_back commit.2
                 end
           | Throw _ => rolled_back rows_run.2
           end)
  ∧ (∀ (e : Tx.engine) (req : upload_request)
       (workbook : gmap string (list record)) (jsonData : list record)
       (w : world (backend := Tx.transactional e)),
       supported (backend := Tx.transactional e) →
       (∀ table uniqueField ps,
          Tx.is_control (Tx.formatter e (select_where table uniqueField) ps) = false) →
       (∀ table ps, Tx.is_control (Tx.formatter e (insert_set table) ps) = false) →
       req_file req = Some workbook →
       workbook !! sheetName = Some jsonData →
       Tx.working (w_db w) = None →
       ∃ evs,
         w_log (upload req w).2 = w_log w ++ evs
         ∧ Tx.working (w_db (upload req w).2) = None
         ∧ (responses evs = [(200, message_body upload_ok)]
            ∨ (responses evs = [(500, error_body upload_failed)]
               ∧ Tx.durable (w_db (upload req w).2) = Tx.durable (w_db w)))).
Proof.
  match goal with |- ?A ∧ _ => assert (Hprotocol : A) end.
  { intros backend req workbook jsonData w.
      intros Hs Hp Hfile Hsheet.
      destruct (getConnection_ok w Hs Hp) as (conn & Hget & Hquery & Hrelease).
      exists conn. split; [done |].
      intros rows_run final rolled_back.
      assert (Hfinal : final
        = try_finally
            (try_catch
               (query conn "BEGIN" None ;; process_rows conn jsonData ;;
                query conn "COMMIT" None ;; respond 200 (message_body upload_ok))
               (λ err, query conn "ROLLBACK" None ;; console_error ;;
                       respond 500 (error_body upload_failed)))
            (release conn) (acquired w)).
      { unfold final, upload. rewrite Hfile, Hsheet.
        unfold mbind at 1. unfold M_bind at 1. by rewrite Hget. }
      split; [| split; [intros; by eapply process_rows_stops |]].
      - unfold rows_run, mbind, M_bind. rewrite Hquery.
        pose proof (queryWrapper_effect "BEGIN" None (acquired w)) as [_ Hl].
        rewrite wire_sql_BEGIN in Hl.
        destruct (queryWrapper "BEGIN" None (acquired w)) as [[q|e] wb]; simpl in *.
        + destruct (emits_process_rows is_query (λ _ _, eq_refl) conn jsonData Hquery wb)
            as (evs & Hevs & Hall).
          exists evs. split; [| done].
          rewrite Hevs, Hl. by rewrite <- !app_assoc.
        + exists []. split; [| done]. rewrite Hl. by rewrite <- !app_assoc.
      - assert (Hrb : ∀ wf,
          try_finally (query conn "ROLLBACK" None ;; console_error ;;
                       respond 500 (error_body upload_failed))
            (release conn) wf = final → rolled_back wf).
        { intros wf Hf. unfold rolled_back. rewrite <- Hf.
          unfold try_finally, mbind, M_bind. rewrite Hquery, Hrelease.
          pose proof (queryWrapper_effect "ROLLBACK" None wf) as [_ Hl].
          rewrite wire_sql_ROLLBACK in Hl.
          destruct (queryWrapper "ROLLBACK" None wf) as [[q|e'] w4]; simpl in *.
          - split; [done |]. split; [done |]. rewrite Hl, <- !app_assoc. done.
          - split; [done |]. split; [done |]. rewrite Hl, <- !app_assoc. done. }
        clearbody rolled_back.
        destruct (query conn "BEGIN" None (acquired w)) as [[q|e] wb] eqn:HB.
        + destruct (process_rows conn jsonData wb) as [[[]|e] wr] eqn:HR.
          * assert (Hrun : rows_run = (Return (), wr)).
            { unfold rows_run, mbind, M_bind. by rewrite HB, HR. }
            rewrite Hrun. simpl.
            pose proof (queryWrapper_effect "COMMIT" None wr) as [_ Hl].
            rewrite wire_sql_COMMIT, <- Hquery in Hl.
            split; [done |].
            destruct (query conn "COMMIT" None wr) as [[qc|e] wcm] eqn:HC; simpl.
            -- rewrite Hfinal. unfold try_finally, try_catch, mbind, M_bind.
               rewrite HB, HR, HC, Hrelease. simpl. split; [done |].
               split; [done |]. by rewrite <- !app_assoc.
            -- apply Hrb. rewrite Hfinal.
               unfold try_finally, try_catch, mbind, M_bind.
               by rewrite HB, HR, HC.
          * assert (Hrun : rows_run = (Throw e, wr)).
            { unfold rows_run, mbind, M_bind. by rewrite HB, HR. }
            rewrite Hrun. simpl. apply Hrb. rewrite Hfinal.
            unfold try_finally, try_catch, mbind, M_bind.
            by rewrite HB, HR.
        + assert (Hrun : rows_run = (Throw e, wb)).
          { unfold rows_run, mbind, M_bind. by rewrite HB. }
          rewrite Hrun. simpl. apply Hrb. rewrite Hfinal.
          unfold try_finally, try_catch, mbind, M_bind.
          by rewrite HB.
  }
  split; [exact Hprotocol |].
  intros e req workbook jsonData w Hs Hsel Hins Hfile Hsheet Hopen.
  destruct (Hprotocol (Tx.transactional e) req workbook jsonData w
              Hs eq_refl Hfile Hsheet) as (conn & Hget & Hbegin & _ & Hend).
  cbv zeta in Hbegin, Hend.
  destruct (getConnection_inv _ _ _ Hget) as (Hquery & Hrelease & _).
  destruct (tx_row_statements e _ _ conn Hget Hsel Hins) as (Asel & Ains & Aprac).
  set (wb := @World (Tx.transactional e)
               (Tx.State (Tx.durable (w_db w)) (Some (Tx.durable (w_db w))))
               (w_heap w) (w_log w ++ [EvAcquire; EvQuery "BEGIN" None])).
  assert (HB : query conn "BEGIN" None (acquired w)
               = (Return (QHeader (Header 0 0)), wb)).
  { rewrite Hquery, tx_begin. unfold wb, acquired, Tx.view. simpl.
    rewrite Hopen. simpl. by rewrite <- app_assoc. }
  destruct (process_rows conn jsonData wb) as [o wr] eqn:HR.
  assert (HJ : Tx.durable (w_db wr) = Tx.durable (w_db w)
               ∧ is_Some (Tx.working (w_db wr))).
  { pose proof (keeps_process_rows (backend := Tx.transactional e)
                  (λ db : Tx.state (Tx.tables e),
                     Tx.durable db = Tx.durable (w_db w)
                     ∧ is_Some (Tx.working db))
                  (λ sql, Tx.is_control sql = false)
                  (tx_keeps_open e (Tx.durable (w_db w)))
                  conn Hquery Asel Ains Aprac jsonData wb) as K.
    rewrite HR in K. apply K. simpl. split; [done | by eexists]. }
  assert (Hrun : (query conn "BEGIN" None ;; process_rows conn jsonData) (acquired w)
                 = (o, wr)).
  { unfold mbind, M_bind. by rewrite HB. }
  rewrite Hrun in Hbegin, Hend. simpl in Hbegin, Hend.
  destruct Hbegin as (evs & Hlog & Hq).
  destruct HJ as [Hdur _].
  destruct o as [[]|err].
  - rewrite Hquery, tx_commit in Hend. simpl in Hend.
    destruct Hend as (_ & _ & Hdb & Hlogf).
    exists ([EvAcquire; EvQuery "BEGIN" None] ++ evs
            ++ [EvQuery "COMMIT" None;
                EvResponse 200 (message_body upload_ok); EvRelease]).
    split; [| split].
    + rewrite Hlogf, Hlog. by rewrite <- !app_assoc.
    + by rewrite Hdb.
    + left. rewrite !responses_app, (responses_queries evs Hq). done.
  - unfold Datatypes.id in Hend. rewrite Hquery, tx_rollback in Hend.
    simpl in Hend. destruct Hend as (Hdb & _ & Hlogf).
    exists ([EvAcquire; EvQuery "BEGIN" None] ++ evs
            ++ [EvQuery "ROLLBACK" None;
                EvResponse 500 (error_body upload_failed); EvRelease]).
    split; [| split].
    + rewrite Hlogf, Hlog. by rewrite <- !app_assoc.
    + by rewrite Hdb.
    + right. split.
      * rewrite !responses_app, (responses_queries evs Hq). done.
      * by rewrite Hdb.
Qed.

(** * The theorems at work on the scripted driver *)

Lemma getOrCreate_found_is_idempotent_witness :
  getConnection (@World Programs.mysql [] [] [])
  = (Return Case.connection, acquired (@World Programs.mysql [] [] []))
  ∧ w_heap Case.program_stored !! 0 = Some Scenario.candidate
  ∧ head (matching "nombre" (VStr "Sistemas") (w_db Case.program_stored))
    = Some Case.systems
  ∧ getOrCreate Case.connection "p_programa" 0 "nombre" Case.program_stored
    = (Return (Fresh Case.systems),
       @World Programs.mysql [Case.systems] [Scenario.candidate]
         [EvQuery "SELECT * FROM p_programa WHERE nombre = 'Sistemas'" None])
  ∧ getOrCreate Case.connection "p_programa" 0 "nombre"
      (@World Programs.mysql [Case.systems] [Scenario.candidate]
         [EvQuery "SELECT * FROM p_programa WHERE nombre = 'Sistemas'" None])
    = (Return (Fresh Case.systems),
       @World Programs.mysql [Case.systems] [Scenario.candidate]
         [EvQuery "SELECT * FROM p_programa WHERE nombre = 'Sistemas'" None;
          EvQuery "SELECT * FROM p_programa WHERE nombre = 'Sistemas'" None])
  ∧ getConnection (@World Programs.postgres [] [] [])
    = (Return Case.pg_connection, acquired (@World Programs.postgres [] [] []))
  ∧ head (matching "nombre" (VStr "Sistemas") (w_db Case.pg_program_stored))
    = Some Case.systems
  ∧ getOrCreate Case.pg_connection "p_programa" 0 "nombre" Case.pg_program_stored
    = (Throw (DriverError "syntax error"),
       @World Programs.postgres [Case.systems] [Scenario.candidate]
         [EvQuery "SELECT * FROM p_programa WHERE nombre = $undefined" None]).
Proof.
  split; [reflexivity |]. split; [reflexivity |]. split; [reflexivity |].
  destruct (proj1 (getOrCreate_found_is_idempotent (backend := Programs.mysql)
                     (λ db, db)
                     (@World Programs.mysql [] [] [])
                     (acquired (@World Programs.mysql [] [] []))
                     Case.connection "p_programa" "nombre" 0 Case.program_stored
                     Scenario.candidate Case.systems eq_refl eq_refl)
              eq_refl (λ db, eq_refl) eq_refl) as [Hfirst Hsecond].
  split; [exact Hfirst |]. split; [exact Hsecond |].
  split; [reflexivity |]. split; [reflexivity |].
  exact (proj2 (getOrCreate_found_is_idempotent (backend := Programs.postgres)
                  (λ db, db)
                  (@World Programs.postgres [] [] [])
                  (acquired (@World Programs.postgres [] [] []))
                  Case.pg_connection "p_programa" "nombre" 0 Case.pg_program_stored
                  Scenario.candidate Case.systems eq_refl eq_refl)
           eq_refl eq_refl eq_refl
           (DriverError "syntax error") [Case.systems] eq_refl).
Defined.

Lemma getOrCreate_insert_path_witness :
  getConnection (@World Programs.mysql [] [] [])
  = (Return Case.connection, acquired (@World Programs.mysql [] [] []))
  ∧ w_heap Case.program_new !! 0 = Some Scenario.candidate
  ∧ statements
      (w_log (getOrCreate Case.connection "p_programa" 0 "nombre"
                Case.program_new).2)
    = ["SELECT * FROM p_programa WHERE nombre = 'Sistemas'";
       "INSERT INTO p_programa SET nombre = 'Sistemas'";
       "SELECT * FROM p_programa WHERE nombre = 'Sistemas'"]
  ∧ ∃ returned : record,
      (getOrCreate Case.connection "p_programa" 0 "nombre" Case.program_new).1
      = Return (Fresh returned)
      ∧ returned !! "id" = Some (VNum 1)
      ∧ returned !! "id_programa" = Some (VNum 1)
      ∧ returned !! "nombre" = Some (VStr "Sistemas").
Proof.
  split; [reflexivity |]. split; [reflexivity |].
  destruct (getOrCreate_insert_path (backend := Programs.mysql)
              (@World Programs.mysql [] [] [])
              (acquired (@World Programs.mysql [] [] []))
              Case.connection "p_programa" "nombre" 0 Case.program_new
              (@World Programs.mysql [] [Scenario.candidate]
                 [EvQuery "SELECT * FROM p_programa WHERE nombre = 'Sistemas'" None])
              (@World Programs.mysql [Case.first_program] [Scenario.candidate]
                 [EvQuery "SELECT * FROM p_programa WHERE nombre = 'Sistemas'" None;
                  EvQuery "INSERT INTO p_programa SET nombre = 'Sistemas'" None])
              (@World Programs.mysql [Case.first_program]
                 [<["id" := VNum 1]> Scenario.candidate]
                 [EvQuery "SELECT * FROM p_programa WHERE nombre = 'Sistemas'" None;
                  EvQuery "INSERT INTO p_programa SET nombre = 'Sistemas'" None;
                  EvQuery "SELECT * FROM p_programa WHERE nombre = 'Sistemas'" None])
              Scenario.candidate (QHeader (Header 1 1)) (QRows [Case.first_program])
              eq_refl eq_refl eq_refl eq_refl eq_refl)
    as (_ & _ & returned & Hrun & Hmerge & _).
  rewrite Hrun. split; [reflexivity |].
  exists returned. split; [reflexivity |].
  rewrite !Hmerge. repeat split; reflexivity.
Defined.

Lemma getOrCreate_assigns_id_in_place_witness :
  getConnection (@World Programs.mysql [] [] [])
  = (Return Case.connection, acquired (@World Programs.mysql [] [] []))
  ∧ w_heap Case.program_new !! 0 = Some Scenario.candidate
  ∧ w_heap (getOrCreate Case.connection "p_programa" 0 "nombre"
              Case.program_new).2 !! 0
    = Some (<["id" := VNum 1]> Scenario.candidate)
  ∧ w_heap (getOrCreate Case.connection "p_programa" 0 "nombre"
              Case.program_stored).2
    = [Scenario.candidate]
  ∧ getConnection (@World Mock.postgres [] [] [])
    = (Return Scenario.pg_connection, acquired (@World Mock.postgres [] [] []))
  ∧ w_heap Case.pg_returning !! 0 = Some Scenario.candidate
  ∧ w_heap (getOrCreate Scenario.pg_connection "p_programa" 0 "nombre"
              Case.pg_returning).2 !! 0
    = Some (<["id" := VNum 5]> Scenario.candidate).
Proof.
  split; [reflexivity |]. split; [reflexivity |].
  split.
  { exact (proj2 (getOrCreate_assigns_id_in_place (backend := Programs.mysql)
                    (@World Programs.mysql [] [] [])
                    (acquired (@World Programs.mysql [] [] []))
                    Case.connection "p_programa" "nombre" 0 Case.program_new
                    Scenario.candidate eq_refl eq_refl)). }
  split.
  { exact (getOrCreate_assigns_id_in_place (backend := Programs.mysql)
             (@World Programs.mysql [] [] [])
             (acquired (@World Programs.mysql [] [] []))
             Case.connection "p_programa" "nombre" 0 Case.program_stored
             Scenario.candidate eq_refl eq_refl). }
  split; [reflexivity |]. split; [reflexivity |].
  exact (proj2 (getOrCreate_assigns_id_in_place (backend := Mock.postgres)
                  (@World Mock.postgres [] [] [])
                  (acquired (@World Mock.postgres [] [] []))
                  Scenario.pg_connection "p_programa" "nombre" 0 Case.pg_returning
                  Scenario.candidate eq_refl eq_refl)).
Defined.

(** On postgres the select of [getOrCreate] reaches the server without the
    value, the server rejects it and [getOrCreate] throws. *)
Example getOrCreate_on_postgres :
  getConnection (@World Mock.postgres [] [] [])
  = (Return Scenario.pg_connection, acquired (@World Mock.postgres [] [] []))
  ∧ getOrCreate Scenario.pg_connection "p_programa" 0 "nombre" Scenario.pg_rejects
    = (Throw (DriverError "syntax error at or near $"),
       @World Mock.postgres [] [Scenario.candidate]
         [EvQuery "SELECT * FROM p_programa WHERE nombre = $undefined" None]).
Proof. split; vm_compute; reflexivity. Qed.

Lemma pg_format_loses_the_parameters_witness :
  mark_free "p_programa"
  ∧ mark_free "nombre"
  ∧ pg_format (backend := Mock.postgres) (select_where "p_programa" "nombre")
      (PArray [PVal (VStr "Sistemas")])
    = "SELECT * FROM p_programa WHERE nombre = $undefined"
  ∧ pg_format (backend := Mock.postgres) (insert_set "p_programa")
      (PObject Scenario.candidate)
    = "INSERT INTO p_programa SET $undefined".
Proof.
  split; [reflexivity |]. split; [reflexivity |].
  exact (pg_format_loses_the_parameters (backend := Mock.postgres)
           "p_programa" "nombre" (VStr "Sistemas") Scenario.candidate
           eq_refl eq_refl eq_refl).
Defined.

Lemma post_answers_500_after_insert_witness :
  supported (backend := Mock.mysql)
  ∧ pool_connect (w_db Scenario.insert_succeeds) = None
  ∧ post programa Scenario.create_request Scenario.insert_succeeds
    = (Return (),
       @World Mock.mysql [] []
         [EvAcquire;
          EvQuery "INSERT INTO p_programa (nombre) VALUES (?)"
            (Some (PArray [PVal (VStr "Sistemas")]));
          EvResponse 500 (error_body "Error al crear el programa.");
          EvRelease]).
Proof.
  split; [by left |]. split; [reflexivity |].
  exact (post_answers_500_after_insert (backend := Mock.mysql)
           programa Scenario.create_request Scenario.insert_succeeds
           (@World Mock.mysql [] []
              [EvAcquire;
               EvQuery "INSERT INTO p_programa (nombre) VALUES (?)"
                 (Some (PArray [PVal (VStr "Sistemas")]))])
           (QHeader (Header 7 1))
           (or_introl eq_refl) eq_refl eq_refl
           (or_introl (ex_intro _ (Header 7 1) eq_refl))).
Defined.

Lemma put_and_delete_answer_200_whatever_matched_witness :
  supported (backend := Programs.mysql)
  ∧ pool_connect (w_db Case.program_stored) = None
  ∧ List.filter (Programs.has_key (VStr "99")) (w_db Case.program_stored) = []
  ∧ put programa Scenario.absent_request Case.program_stored
    = (Return (),
       @World Programs.mysql [Case.systems] [Scenario.candidate]
         [EvAcquire;
          EvQuery "UPDATE p_programa SET nombre = ? WHERE id_programa = ?"
            (Some (PArray [PVal (VStr "Sistemas"); PVal (VStr "99")]));
          EvResponse 200
            (BodyObject {[ "message" := VStr "Programa actualizado correctamente." ]});
          EvRelease])
  ∧ delete_one programa Scenario.absent_request Case.program_stored
    = (Return (),
       @World Programs.mysql [Case.systems] [Scenario.candidate]
         [EvAcquire;
          EvQuery "DELETE FROM p_programa WHERE id_programa = ?"
            (Some (PArray [PVal (VStr "99")]));
          EvResponse 200
            (BodyObject {[ "message" := VStr "Programa eliminado correctamente." ]});
          EvRelease])
  ∧ get_one programa Scenario.absent_request Case.program_stored
    = (Return (),
       @World Programs.mysql [Case.systems] [Scenario.candidate]
         [EvAcquire;
          EvQuery "SELECT * FROM p_programa WHERE id_programa = ?"
            (Some (PArray [PVal (VStr "99")]));
          EvResponse 404 (BodyObject {[ "error" := VStr "Programa no encontrado." ]});
          EvRelease]).
Proof.
  split; [by left |]. split; [reflexivity |]. split; [reflexivity |].
  destruct (put_and_delete_answer_200_whatever_matched (backend := Programs.mysql)
              programa Scenario.absent_request Case.program_stored
              (or_introl eq_refl) eq_refl) as (Hput & Hdel & Hget).
  split; [| split].
  - exact (Hput (QHeader (Header 0 0))
             (@World Programs.mysql [Case.systems] [Scenario.candidate]
                [EvAcquire;
                 EvQuery "UPDATE p_programa SET nombre = ? WHERE id_programa = ?"
                   (Some (PArray [PVal (VStr "Sistemas"); PVal (VStr "99")]))])
             eq_refl).
  - exact (Hdel (QHeader (Header 0 0))
             (@World Programs.mysql [Case.systems] [Scenario.candidate]
                [EvAcquire;
                 EvQuery "DELETE FROM p_programa WHERE id_programa = ?"
                   (Some (PArray [PVal (VStr "99")]))])
             eq_refl).
  - exact (Hget
             (@World Programs.mysql [Case.systems] [Scenario.candidate]
                [EvAcquire;
                 EvQuery "SELECT * FROM p_programa WHERE id_programa = ?"
                   (Some (PArray [PVal (VStr "99")]))])
             eq_refl).
Defined.

Lemma upsert_practica_never_updates_witness :
  Scenario.practica_stored !! "length" = None
  ∧ statements
      (w_log (upsert_practica Scenario.connection Scenario.practica_again
                (VNum 1) (VNum 2) (VNum 7) Scenario.triple_exists).2)
    = [practica_select; practica_insert].
Proof.
  split; [reflexivity |].
  rewrite (upsert_practica_never_updates (backend := Mock.mysql)
             Scenario.connection Scenario.practica_again
             (VNum 1) (VNum 2) (VNum 7) Scenario.triple_exists
             (@World Mock.mysql [Mock.wrote 13 1] []
                [EvQuery practica_select
                   (Some (PArray [PVal (VNum 1); PVal (VNum 2); PVal (VNum 7)]))])
             [Scenario.practica_stored] eq_refl).
  - reflexivity.
  - intros row Hrow. injection Hrow as <-. reflexivity.
Defined.

(** A second import of a row whose entities and internship are all stored:
    the last statement before COMMIT is the INSERT, and the import answers
    200. *)
Example second_import_inserts_again :
  statements (w_log (upload Scenario.one_row_upload Scenario.second_import).2)
  = ["BEGIN";
     "SELECT * FROM p_cargo_contacto WHERE nombre = 'Gerente'";
     "SELECT * FROM p_contacto WHERE email = 'ana@example.com'";
     "SELECT * FROM p_empresa WHERE nit = 900";
     "SELECT * FROM p_programa WHERE nombre = 'Sistemas'";
     "SELECT * FROM p_estudiante WHERE email = 'luis@example.com'";
     "SELECT * FROM p_practica WHERE id_estudiante = ? AND id_empresa = ? AND id_programa = ?";
     "INSERT INTO p_practica SET ?";
     "COMMIT"]
  ∧ responses (w_log (upload Scenario.one_row_upload Scenario.second_import).2)
    = [(200, message_body upload_ok)].
Proof. split; vm_compute; reflexivity. Qed.

(** A first import of a row whose internship is not stored yet: the step
    throws after its select, nothing is inserted, and the import answers
    500 after ROLLBACK. *)
Example first_import_fails :
  statements (w_log (upload Scenario.one_row_upload
                       (Scenario.start
                          [Mock.wrote 0 0;
                           Mock.found [{[ "id_cargo_contacto" := VNum 1 ]}];
                           Mock.found [{[ "id_contacto" := VNum 4 ]}];
                           Mock.found [{[ "id_empresa" := VNum 2 ]}];
                           Mock.found [{[ "id_programa" := VNum 7 ]}];
                           Mock.found [{[ "id_estudiante" := VNum 1 ]}];
                           Mock.found [];
                           Mock.wrote 0 0] [])).2)
  = ["BEGIN";
     "SELECT * FROM p_cargo_contacto WHERE nombre = 'Gerente'";
     "SELECT * FROM p_contacto WHERE email = 'ana@example.com'";
     "SELECT * FROM p_empresa WHERE nit = 900";
     "SELECT * FROM p_programa WHERE nombre = 'Sistemas'";
     "SELECT * FROM p_estudiante WHERE email = 'luis@example.com'";
     "SELECT * FROM p_practica WHERE id_estudiante = ? AND id_empresa = ? AND id_programa = ?";
     "ROLLBACK"].
Proof. vm_compute; reflexivity. Qed.

Lemma upload_transaction_protocol_witness :
  (supported (backend := Mock.mysql)
   ∧ pool_connect (w_db Scenario.row_fails) = None
   ∧ req_file Scenario.one_row_upload = Some Scenario.one_row_workbook
   ∧ Scenario.one_row_workbook !! sheetName = Some [Scenario.sheet_row]
   ∧ (upload Scenario.one_row_upload Scenario.row_fails).1 = Return ()
   ∧ w_log (upload Scenario.one_row_upload Scenario.row_fails).2
     = [EvAcquire; EvQuery "BEGIN" None;
        EvQuery "SELECT * FROM p_cargo_contacto WHERE nombre = 'Gerente'" None;
        EvQuery "ROLLBACK" None;
        EvResponse 500 (error_body upload_failed); EvRelease])
  ∧ (supported (backend := Tx.transactional Tx.journal)
     ∧ Tx.working (w_db Scenario.journal_start) = None
     ∧ ∃ evs,
         w_log (upload Scenario.one_row_upload Scenario.journal_start).2
         = w_log Scenario.journal_start ++ evs
         ∧ Tx.working (w_db (upload Scenario.one_row_upload
                               Scenario.journal_start).2) = None
         ∧ (responses evs = [(200, message_body upload_ok)]
            ∨ (responses evs = [(500, error_body upload_failed)]
               ∧ Tx.durable (w_db (upload Scenario.one_row_upload
                                     Scenario.journal_start).2)
                 = Tx.durable (w_db Scenario.journal_start)))).
Proof.
  split.
  - split; [by left |]. split; [reflexivity |]. split; [reflexivity |].
    split; [reflexivity |].
    destruct (proj1 upload_transaction_protocol Mock.mysql
                Scenario.one_row_upload Scenario.one_row_workbook
                [Scenario.sheet_row] Scenario.row_fails
                (or_introl eq_refl) eq_refl eq_refl eq_refl)
      as (conn & Hget & _ & _ & Hend).
    injection Hget as <-.
    exact (proj2 Hend).
  - split; [by left |]. split; [reflexivity |].
    apply (proj2 upload_transaction_protocol Tx.journal
             Scenario.one_row_upload Scenario.one_row_workbook
             [Scenario.sheet_row] Scenario.journal_start).
    + by left.
    + intros table uniqueField ps. simpl.
      unfold Mock.format, select_where. rewrite append_cons.
      edestruct (@replace_marks_head nat) as [out ->]; [reflexivity |].
      reflexivity.
    + intros table ps. simpl.
      unfold Mock.format, insert_set. rewrite append_cons.
      edestruct (@replace_marks_head nat) as [out ->]; [reflexivity |].
      reflexivity.
    + reflexivity.
    + reflexivity.
    + reflexivity.
Defined.

(** On the journal server the first import of the row executes five inserts
    inside the transaction, fails at the last step, and leaves the durable
    journal empty. *)
Example failed_import_leaves_no_row :
  statements (w_log (upload Scenario.one_row_upload Scenario.journal_start).2)
  = ["BEGIN";
     "SELECT * FROM p_cargo_contacto WHERE nombre = 'Gerente'";
     "INSERT INTO p_cargo_contacto SET nombre = 'Gerente'";
     "SELECT * FROM p_cargo_contacto WHERE nombre = 'Gerente'";
     "SELECT * FROM p_contacto WHERE email = 'ana@example.com'";
     "INSERT INTO p_contacto SET celular = NULL, email = 'ana@example.com', id_cargo_contacto = NULL, nombre = 'Ana', telefono = NULL";
     "SELECT * FROM p_contacto WHERE email = 'ana@example.com'";
     "SELECT * FROM p_empresa WHERE nit = 900";
     "INSERT INTO p_empresa SET id_jefe_inmediato = NULL, nit = 900, razon_social = NULL, direccion = NULL";
     "SELECT * FROM p_empresa WHERE nit = 900";
     "SELECT * FROM p_programa WHERE nombre = 'Sistemas'";
     "INSERT INTO p_programa SET nombre = 'Sistemas'";
     "SELECT * FROM p_programa WHERE nombre = 'Sistemas'";
     "SELECT * FROM p_estudiante WHERE email = 'luis@example.com'";
     "INSERT INTO p_estudiante SET celular = NULL, email = 'luis@example.com', edad = NULL, id_contacto = NULL, nombres = NULL, telefono = NULL, direccion = NULL";
     "SELECT * FROM p_estudiante WHERE email = 'luis@example.com'";
     "SELECT * FROM p_practica WHERE id_estudiante = ? AND id_empresa = ? AND id_programa = ?";
     "ROLLBACK"]
  ∧ w_db (upload Scenario.one_row_upload Scenario.journal_start).2
    = Tx.State [] None.
Proof. split; vm_compute; reflexivity. Qed.

(** The claim C7 fails when ROLLBACK fails too: the first statement of the
    row throws, ROLLBACK is issued and throws, the connection is released,
    and no response is sent at all, so no 500 either. *)
Lemma upload_without_response_when_rollback_fails :
  w_log (upload Scenario.one_row_upload Scenario.server_lost).2
  = [EvAcquire; EvQuery "BEGIN" None;
     EvQuery "SELECT * FROM p_cargo_contacto WHERE nombre = 'Gerente'" None;
     EvQuery "ROLLBACK" None; EvRelease]
  ∧ (upload Scenario.one_row_upload Scenario.server_lost).1
    = Throw (DriverError "Connection lost")
  ∧ ¬ (∃ b, EvResponse 500 b
            ∈ w_log (upload Scenario.one_row_upload Scenario.server_lost).2).
Proof.
  assert (Hlog : w_log (upload Scenario.one_row_upload Scenario.server_lost).2
    = [EvAcquire; EvQuery "BEGIN" None;
       EvQuery "SELECT * FROM p_cargo_contacto WHERE nombre = 'Gerente'" None;
       EvQuery "ROLLBACK" None; EvRelease]) by (vm_compute; reflexivity).
  split; [exact Hlog |]. split; [vm_compute; reflexivity |].
  intros [b Hb]. rewrite Hlog in Hb.
  repeat (apply elem_of_cons in Hb as [Hb|Hb]; [discriminate Hb |]).
  by apply elem_of_nil in Hb.
Qed.

(** * Further properties of the code

    What the placeholder translator, the adapter, [getOrCreate], the CRUD
    handlers and the import do beyond the statements above: their error
    paths, what they leave alone, and bounds on what they send. *)

Section Coverage.
Context `{backend : Backend}.

Lemma replace_counting_fixed (s : string) (offset index : nat) :
  (replace_marks (λ _ i, ("$" +:+ pretty (S i), S i)) offset index s).1 = s →
  mark_free s.
Proof.
  revert offset index. induction s as [|c s IH]; intros offset index; [done |].
  simpl. destruct (is_mark c) eqn:Hc.
  - destruct (replace_marks _ (S offset) (S index) s) as [out st2]. simpl.
    rewrite append_cons. intros [= Heq _].
    apply Ascii.eqb_eq in Hc. by subst.
  - destruct (replace_marks _ (S offset) index s) as [out st1] eqn:E. simpl.
    intros [= Heq]. unfold mark_free. simpl. rewrite Hc. simpl.
    apply (IH (S offset) index). by rewrite E.
Qed.

(** X1. The translator returns a statement unchanged exactly when the
    statement has no question mark. *)
Theorem convert_fixes_exactly_the_marker_free (sql : string) :
  convertQuestionMarksToDollarSigns sql = sql ↔ mark_free sql.
Proof.
  split.
  - apply replace_counting_fixed.
  - intros Hs. unfold convertQuestionMarksToDollarSigns.
    by rewrite replace_marks_free.
Qed.

Lemma pretty_N_char_no_mark (x : N) : is_mark (pretty_N_char x) = false.
Proof. unfold pretty_N_char. by repeat case_match. Qed.

Lemma pretty_N_go_marks (x : N) (s : string) :
  count_marks (pretty_N_go x s) = count_marks s.
Proof.
  revert s. induction (N.lt_wf_0 x) as [x _ IH]; intros s.
  destruct (decide (x = 0)%N) as [->|Hx]; [by rewrite pretty_N_go_0 |].
  rewrite pretty_N_go_step by lia.
  rewrite IH by (apply N.div_lt; lia).
  simpl. by rewrite pretty_N_char_no_mark.
Qed.

Lemma pretty_nat_no_mark (n : nat) : mark_free (pretty n).
Proof.
  unfold mark_free, pretty, pretty_nat, pretty, pretty_N.
  case_decide; [done |]. by rewrite pretty_N_go_marks.
Qed.

Lemma join_numbered_free (k : nat) (tl : list string) :
  Forall mark_free tl → mark_free (join_numbered k tl).
Proof.
  revert k. induction tl as [|p tl IH]; intros k Htl; [done |].
  inversion Htl as [|? ? Hp Htl']; subst.
  unfold mark_free in *. simpl.
  rewrite !count_marks_app, Hp, (pretty_nat_no_mark k), (IH (S k) Htl').
  done.
Qed.

Lemma convert_mark_free (sql : string) :
  mark_free (convertQuestionMarksToDollarSigns sql).
Proof.
  unfold convertQuestionMarksToDollarSigns. rewrite replace_marks_counting.
  destruct (split_marks_free sql) as [Hhd Htl].
  unfold mark_free in *. simpl. rewrite count_marks_app, Hhd.
  by rewrite (join_numbered_free 1 _ Htl).
Qed.

(** X2. No question mark is left in a translated statement, so translating
    a second time changes nothing. *)
Theorem convert_leaves_no_marker (sql : string) :
  mark_free (convertQuestionMarksToDollarSigns sql)
  ∧ convertQuestionMarksToDollarSigns (convertQuestionMarksToDollarSigns sql)
    = convertQuestionMarksToDollarSigns sql.
Proof.
  split; [apply convert_mark_free |].
  unfold convertQuestionMarksToDollarSigns at 1.
  rewrite replace_marks_free; [done | apply convert_mark_free].
Qed.

(** ** The [format] of the postgres adapter, continued *)

(** X3. For a statement whose text before the marker is ASCII and whose one
    marker stands after [n] characters, the [format] of the postgres
    adapter writes a dollar sign and then the string [params[n - 1]]: the
    offset of the marker selects the parameter, not its rank.  When the
    array has no element there (or the marker comes first) it writes
    [$undefined].  A statement without markers is left as it is. *)
Theorem pg_format_reads_the_offset
    (prefix suffix : string) (l : list param) :
  ascii_only prefix = true →
  mark_free prefix →
  mark_free suffix →
  pg_format prefix (PArray l) = prefix
  ∧ (∀ (i : nat) (s : string),
       String.length prefix = S i →
       l !! i = Some (PVal (VStr s)) →
       pg_format (prefix +:+ "?" +:+ suffix) (PArray l)
       = prefix +:+ "$" +:+ s +:+ suffix)
  ∧ ((∀ i : nat, String.length prefix = S i → l !! i = None) →
     pg_format (prefix +:+ "?" +:+ suffix) (PArray l)
     = prefix +:+ "$undefined" +:+ suffix).
Proof.
  intros _ Hp Hs.
  assert (Hone : pg_format (prefix +:+ "?" +:+ suffix) (PArray l)
                 = prefix +:+ "$"
                   +:+ param_text (params_at (PArray l)
                                     (Z.of_nat (String.length prefix) - 1))
                   +:+ suffix).
  { unfold pg_format. rewrite replace_marks_prefix by done. simpl.
    rewrite replace_marks_free by done. simpl. by rewrite !append_assoc. }
  split; [unfold pg_format; by rewrite replace_marks_free |].
  split.
  - intros i s Hlen Hi. rewrite Hone, Hlen. unfold params_at.
    replace (Z.of_nat (S i) - 1 <? 0)%Z with false by (symmetry; apply Z.ltb_ge; lia).
    replace (Z.to_nat (Z.of_nat (S i) - 1)) with i by lia.
    by rewrite Hi.
  - intros Hnone. rewrite Hone. unfold params_at.
    destruct (String.length prefix) as [|i] eqn:Hlen.
    + reflexivity.
    + replace (Z.of_nat (S i) - 1 <? 0)%Z with false
        by (symmetry; apply Z.ltb_ge; lia).
      replace (Z.to_nat (Z.of_nat (S i) - 1)) with i by lia.
      rewrite (Hnone i eq_refl). reflexivity.
Qed.

(** ** [getOrCreate], continued *)

Lemma getOrCreate_select_fails (conn : Connection) (table uniqueField : string)
    (data : nat) (w w1 : world) (d : record) (e : js_error) :
  w_heap w !! data = Some d →
  query conn (format conn (select_where table uniqueField)
                (PArray [PVal (get_field d uniqueField)])) None w
    = (Throw e, w1) →
  getOrCreate conn table data uniqueField w = (Throw e, w1).
Proof.
  intros Hd Hq. unfold getOrCreate, try_catch, mbind, M_bind, read.
  rewrite Hd. simpl. by rewrite Hq.
Qed.

Lemma getOrCreate_insert_fails (conn : Connection) (table uniqueField : string)
    (data : nat) (w w1 w2 : world) (d : record) (rows : qresult) (e : js_error) :
  w_heap w !! data = Some d →
  query conn (format conn (select_where table uniqueField)
                (PArray [PVal (get_field d uniqueField)])) None w
    = (Return rows, w1) →
  first_row rows = None →
  query conn (format conn (insert_set table) (PObject d)) None w1 = (Throw e, w2) →
  getOrCreate conn table data uniqueField w = (Throw e, w2).
Proof.
  intros Hd Hq Hrows Hi. unfold getOrCreate, try_catch, mbind, M_bind, read.
  rewrite Hd. simpl. by rewrite Hq, Hrows, Hi.
Qed.

(** The four ways a call can go, with the world it ends in. *)
Lemma getOrCreate_cases (conn : Connection) (table uniqueField : string)
    (data : nat) (w : world) (d : record) :
  query conn = queryWrapper →
  w_heap w !! data = Some d →
  let sel := format conn (select_where table uniqueField)
               (PArray [PVal (get_field d uniqueField)]) in
  let ins := format conn (insert_set table) (PObject d) in
  let run := getOrCreate conn table data uniqueField w in
  (∃ e, (query conn sel None w).1 = Throw e ∧ run.1 = Throw e
        ∧ w_heap run.2 = w_heap w
        ∧ w_log run.2 = w_log w ++ [EvQuery (wire_sql sel) None])
  ∨ (∃ r, run.1 = Return (Fresh r)
          ∧ w_heap run.2 = w_heap w
          ∧ w_log run.2 = w_log w ++ [EvQuery (wire_sql sel) None])
  ∨ (∃ rows w1 e, query conn sel None w = (Return rows, w1)
          ∧ first_row rows = None
          ∧ (query conn ins None w1).1 = Throw e ∧ run.1 = Throw e
          ∧ w_heap run.2 = w_heap w
          ∧ w_log run.2 = w_log w ++ [EvQuery (wire_sql sel) None;
                                      EvQuery (wire_sql ins) None])
  ∨ (∃ rows w1 result w2 sel2,
          query conn sel None w = (Return rows, w1)
          ∧ first_row rows = None
          ∧ query conn ins None w1 = (Return result, w2)
          ∧ sel2 = format conn (select_where table uniqueField)
                     (PArray [PVal (get_field (<["id" := assigned_id result]> d)
                                      uniqueField)])
          ∧ run.1 = match (query conn sel2 None
                             (World (w_db w2)
                                (<[data := <["id" := assigned_id result]> d]> (w_heap w))
                                (w_log w2))).1 with
                    | Return rows2 =>
                        Return (match first_row rows2 with
                                | Some r2 => Fresh (r2 ∪ <["id" := assigned_id result]> d)
                                | None => Ref data
                                end)
                    | Throw e => Throw e
                    end
          ∧ w_heap run.2 = <[data := <["id" := assigned_id result]> d]> (w_heap w)
          ∧ w_log run.2 = w_log w ++ [EvQuery (wire_sql sel) None;
                                      EvQuery (wire_sql ins) None;
                                      EvQuery (wire_sql sel2) None]).
Proof.
  intros Hquery Hd sel ins run.
  destruct (query conn sel None w) as [[rows|e] w1] eqn:Hq1.
  - pose proof Hq1 as Hq1'. rewrite Hquery in Hq1'.
    apply queryWrapper_run in Hq1' as [Hh1 Hl1].
    destruct (first_row rows) as [r|] eqn:Hrows.
    + right; left. exists r. unfold run.
      rewrite (getOrCreate_found_run conn table uniqueField data w w1 d r rows)
        by done.
      done.
    + destruct (query conn ins None w1) as [[result|e] w2] eqn:Hq2.
      * pose proof Hq2 as Hq2'. rewrite Hquery in Hq2'.
        apply queryWrapper_run in Hq2' as [Hh2 Hl2].
        set (d2 := <["id" := assigned_id result]> d).
        set (sel2 := format conn (select_where table uniqueField)
                       (PArray [PVal (get_field d2 uniqueField)])).
        destruct (query conn sel2 None
                    (World (w_db w2) (<[data := d2]> (w_heap w)) (w_log w2)))
          as [o3 w3] eqn:Hq3.
        destruct (getOrCreate_insert_run conn table uniqueField data w w1 w2 w3 d
                    rows result o3 Hquery Hd Hq1 Hrows Hq2 Hq3) as [Hrun Hheap].
        pose proof Hq3 as Hq3'. rewrite Hquery in Hq3'.
        apply queryWrapper_run in Hq3' as [_ Hl3]. simpl in Hl3.
        right; right; right. exists rows, w1, result, w2, sel2.
        unfold run. rewrite Hrun. simpl.
        repeat split; try done.
        -- fold d2 sel2. by rewrite Hq3.
        -- rewrite Hl3, Hl2, Hl1. by rewrite <- !app_assoc.
      * pose proof Hq2 as Hq2'. rewrite Hquery in Hq2'.
        apply queryWrapper_run in Hq2' as [Hh2 Hl2].
        right; right; left. exists rows, w1, e. unfold run.
        rewrite (getOrCreate_insert_fails conn table uniqueField data w w1 w2 d
                   rows e) by done.
        simpl. split; [done |]. split; [done |]. split; [by rewrite Hq2 |].
        split; [done |]. split; [by rewrite Hh2 |].
        rewrite Hl2, Hl1. by rewrite <- !app_assoc.
  - pose proof Hq1 as Hq1'. rewrite Hquery in Hq1'.
    apply queryWrapper_run in Hq1' as [Hh1 Hl1].
    left. exists e. unfold run.
    rewrite (getOrCreate_select_fails conn table uniqueField data w w1 d e)
      by done.
    done.
Qed.

(** X4. On a connection of [getConnection], a call of [getOrCreate] sends
    the select built from the candidate first, then at most two more
    statements, and adds nothing but statements to the log. *)
Theorem getOrCreate_sends_one_to_three
    (w0 wc : world) (conn : Connection) (table uniqueField : string)
    (data : nat) (w : world) (d : record) :
  getConnection w0 = (Return conn, wc) →
  w_heap w !! data = Some d →
  ∃ rest,
    w_log (getOrCreate conn table data uniqueField w).2
    = w_log w
      ++ EvQuery (wire_sql (format conn (select_where table uniqueField)
                              (PArray [PVal (get_field d uniqueField)]))) None
         :: rest
    ∧ (length rest ≤ 2)%nat
    ∧ forallb is_query rest = true.
Proof.
  intros Hconn Hd.
  destruct (getConnection_inv _ _ _ Hconn) as (Hquery & _ & _).
  destruct (getOrCreate_cases conn table uniqueField data w d Hquery Hd)
    as [(e & _ & _ & _ & Hl)|[(r & _ & _ & Hl)
        |[(rows & w1 & e & _ & _ & _ & _ & _ & Hl)
         |(rows & w1 & result & w2 & sel2 & _ & _ & _ & _ & _ & _ & Hl)]]];
    rewrite Hl; eexists; (split; [reflexivity |]); simpl; split; (lia || done).
Qed.

Lemma queryWrapper_throws (sql : string) (ps : option params) (w : world)
    (e : js_error) :
  (queryWrapper sql ps w).1 = Throw e →
  (client_query (w_db w) (wire_sql sql) ps).1 = inl e.
Proof.
  unfold queryWrapper, mbind, M_bind, client_query_await.
  destruct (client_query (w_db w) (wire_sql sql) ps) as [[e'|result] db1];
    simpl; [by intros [= ->] | done].
Qed.

(** X5. Whatever [getOrCreate] throws, the driver threw it in answer to the
    last statement the call has sent: the [catch] block passes the error on
    unchanged and the function raises none of its own. *)
Theorem getOrCreate_rethrows_the_drivers_error
    (w0 wc : world) (conn : Connection) (table uniqueField : string)
    (data : nat) (w : world) (d : record) (e : js_error) :
  getConnection w0 = (Return conn, wc) →
  w_heap w !! data = Some d →
  (getOrCreate conn table data uniqueField w).1 = Throw e →
  ∃ earlier sql db,
    w_log (getOrCreate conn table data uniqueField w).2
    = w_log w ++ earlier ++ [EvQuery sql None]
    ∧ (client_query db sql None).1 = inl e.
Proof.
  intros Hconn Hd Hthrow.
  destruct (getConnection_inv _ _ _ Hconn) as (Hquery & _ & _).
  destruct (getOrCreate_cases conn table uniqueField data w d Hquery Hd)
    as [(e' & Hq & Hrun & _ & Hl)|[(r & Hrun & _ & _)
        |[(rows & w1 & e' & _ & _ & Hq & Hrun & _ & Hl)
         |(rows & w1 & result & w2 & sel2 & _ & _ & _ & _ & Hrun & _ & Hl)]]].
  - rewrite Hrun in Hthrow. injection Hthrow as ->.
    rewrite Hquery in Hq. apply queryWrapper_throws in Hq.
    eexists [], _, _. split; [by rewrite Hl | exact Hq].
  - by rewrite Hrun in Hthrow.
  - rewrite Hrun in Hthrow. injection Hthrow as ->.
    rewrite Hquery in Hq. apply queryWrapper_throws in Hq.
    eexists [_], _, _. split; [by rewrite Hl | exact Hq].
  - rewrite Hrun in Hthrow.
    destruct (query conn sel2 None _) as [[rows2|e'] w3] eqn:Hq; [done |].
    simpl in Hthrow. injection Hthrow as ->.
    apply (f_equal fst) in Hq. simpl in Hq.
    rewrite Hquery in Hq. apply queryWrapper_throws in Hq.
    eexists [_; _], _, _. split; [by rewrite Hl | exact Hq].
Qed.

(** X6. Of the objects of its caller, [getOrCreate] changes at most the
    candidate, and of the candidate at most the property [id]; no object is
    created or removed. *)
Theorem getOrCreate_touches_only_id
    (w0 wc : world) (conn : Connection) (table uniqueField : string)
    (data : nat) (w : world) (d : record) :
  getConnection w0 = (Return conn, wc) →
  w_heap w !! data = Some d →
  let final := (getOrCreate conn table data uniqueField w).2 in
  length (w_heap final) = length (w_heap w)
  ∧ (∀ l, l ≠ data → w_heap final !! l = w_heap w !! l)
  ∧ ∃ d', w_heap final !! data = Some d'
          ∧ ∀ k, k ≠ "id" → d' !! k = d !! k.
Proof.
  intros Hconn Hd final.
  destruct (getConnection_inv _ _ _ Hconn) as (Hquery & _ & _).
  assert (Hlt : data < length (w_heap w)) by by eapply lookup_lt_Some.
  destruct (getOrCreate_cases conn table uniqueField data w d Hquery Hd)
    as [(e & _ & _ & Hh & _)|[(r & _ & Hh & _)
        |[(rows & w1 & e & _ & _ & _ & _ & Hh & _)
         |(rows & w1 & result & w2 & sel2 & _ & _ & _ & _ & _ & Hh & _)]]];
    unfold final; rewrite Hh.
  1-3: by (split; [done |]; split; [done |]; exists d).
  split; [by rewrite length_insert |].
  split; [intros l Hl; by rewrite list_lookup_insert_ne |].
  exists (<["id" := assigned_id result]> d).
  split; [by rewrite list_lookup_insert_eq |].
  intros k Hk. by rewrite lookup_insert_ne.
Qed.

(** X7. On postgres, for a table and a field named without markers, the
    first statement of [getOrCreate] reaches the driver as
    [SELECT * FROM table WHERE field = $undefined], whatever the candidate
    holds: neither the adapter's [format] nor the translator of the query
    wrapper puts the value of the key into it. *)
Theorem getOrCreate_on_postgres_never_sends_the_key
    (w0 wc : world) (conn : Connection) (table uniqueField : string)
    (data : nat) (w : world) (d : record) :
  dbType = Some "postgres" →
  getConnection w0 = (Return conn, wc) →
  mark_free table →
  mark_free uniqueField →
  w_heap w !! data = Some d →
  ∃ rest,
    w_log (getOrCreate conn table data uniqueField w).2
    = w_log w
      ++ EvQuery ("SELECT * FROM " +:+ table +:+ " WHERE " +:+ uniqueField
                  +:+ " = $undefined") None
         :: rest.
Proof.
  intros Hpg Hconn Ht Hu Hd.
  destruct (getConnection_inv _ _ _ Hconn) as (Hquery & _ & _).
  assert (Hsent : wire_sql (format conn (select_where table uniqueField)
                              (PArray [PVal (get_field d uniqueField)]))
                  = "SELECT * FROM " +:+ table +:+ " WHERE " +:+ uniqueField
                    +:+ " = $undefined").
  { destruct (getConnection_format _ _ _ Hconn) as [[Hm _]|[_ Hf]]; [congruence |].
    rewrite Hf, pg_format_select_where by done.
    rewrite wire_sql_postgres by done.
    unfold convertQuestionMarksToDollarSigns. rewrite replace_marks_free; [done |].
    unfold mark_free in *. by rewrite !count_marks_app, Ht, Hu. }
  destruct (getOrCreate_cases conn table uniqueField data w d Hquery Hd)
    as [(e & _ & _ & _ & Hl)|[(r & _ & _ & Hl)
        |[(rows & w1 & e & _ & _ & _ & _ & _ & Hl)
         |(rows & w1 & result & w2 & sel2 & _ & _ & _ & _ & _ & _ & Hl)]]];
    rewrite Hl, Hsent; by eexists.
Qed.

(** ** Handlers that get no connection *)

Lemma getConnection_unsupported (w : world) :
  ¬ supported →
  getConnection w = (Throw (Error "Tipo de base de datos no soportada"), w).
Proof.
  intros Hs. unfold getConnection, supported in *.
  repeat case_decide; try done; exfalso; auto.
Qed.

Lemma getConnection_refused (w : world) (err : js_error) :
  supported → pool_connect (w_db w) = Some err →
  getConnection w = (Throw err, w).
Proof.
  intros Hs Hp. unfold getConnection.
  destruct Hs as [Hs|Hs]; rewrite Hs; repeat case_decide; try done;
    unfold mbind, M_bind, pool_acquire; by rewrite Hp.
Qed.

(** A handler whose [getConnection] throws has done nothing else. *)
Lemma serve_without_connection (e : endpoint) (w : world) (err : js_error) :
  getConnection w = (Throw err, w) →
  needs_connection e = true →
  serve e w = (Throw err, w).
Proof.
  intros Hget Hneeds.
  destruct e as [r|r req|r req|r req|r req|req]; simpl in *.
  1-5: unfold get_all, get_one, post, put, delete_one, mbind, M_bind;
       by rewrite Hget.
  unfold upload, sheet_rows in *. destruct (req_file req) as [workbook|]; [| done].
  destruct (workbook !! sheetName) as [jsonData|]; [| done].
  unfold mbind, M_bind. by rewrite Hget.
Qed.

(** X8. When [DB_TYPE] names neither mysql nor postgres, every handler that
    reaches [getConnection] throws its error at once: no response is sent,
    no statement, and the world is as it was. *)
Theorem unsupported_backend_leaves_the_request_unanswered
    (e : endpoint) (w : world) :
  ¬ supported →
  needs_connection e = true →
  serve e w = (Throw (Error "Tipo de base de datos no soportada"), w).
Proof.
  intros Hs Hneeds. apply serve_without_connection; [| done].
  by apply getConnection_unsupported.
Qed.

(** X9. When the pool of a supported backend refuses the connection, every
    handler that reaches [getConnection] throws the pool's error: the
    acquisition stands before the [try], so no 500 is answered and nothing
    is sent or released. *)
Theorem pool_failure_leaves_the_request_unanswered
    (e : endpoint) (w : world) (err : js_error) :
  supported →
  pool_connect (w_db w) = Some err →
  needs_connection e = true →
  serve e w = (Throw err, w).
Proof.
  intros Hs Hp Hneeds. apply serve_without_connection; [| done].
  by apply getConnection_refused.
Qed.

(** ** The CRUD handlers, continued *)

Ltac in_handler Hget Hquery Hrelease :=
  unfold mbind, M_bind, try_finally, try_catch;
  rewrite Hget; simpl; rewrite ?Hquery, ?Hrelease.

Ltac answered := unfold after, emit; simpl; by rewrite <- app_assoc.

(** X10. With either backend configured and a connection at hand, for every
    resource and each of the five verbs on its own: when the statement of
    the handler throws, the handler answers 500 with the body
    [{ error: ... }] of its route, then releases the connection, and
    returns normally. *)
Theorem crud_statement_failure_answers_500
    (r : resource) (req : request) (w : world) :
  supported →
  pool_connect (w_db w) = None →
  let failure (text : string) (w1 : world) : outcome unit * world :=
    (Return (),
     after w1 [EvResponse 500 (BodyObject {[ "error" := VStr text ]}); EvRelease]) in
  (∀ e w1,
     queryWrapper (list_sql r) None (acquired w) = (Throw e, w1) →
     get_all r w = failure (list_error r) w1)
  ∧ (∀ e w1,
       queryWrapper (get_sql r) (Some (PArray [PVal (VStr (req_key req))]))
         (acquired w) = (Throw e, w1) →
       get_one r req w = failure (get_error r) w1)
  ∧ (∀ e w1,
       queryWrapper (post_sql r)
         (Some (PArray (field_values (req_body req) (post_fields r)))) (acquired w)
       = (Throw e, w1) →
       post r req w = failure (post_error r) w1)
  ∧ (∀ e w1,
       queryWrapper (put_sql r)
         (Some (PArray (field_values (req_body req) (put_fields r)
                        ++ [PVal (VStr (req_key req))]))) (acquired w)
       = (Throw e, w1) →
       put r req w = failure (put_error r) w1)
  ∧ (∀ e w1,
       queryWrapper (delete_sql r) (Some (PArray [PVal (VStr (req_key req))]))
         (acquired w) = (Throw e, w1) →
       delete_one r req w = failure (delete_error r) w1).
Proof.
  intros Hs Hp failure.
  destruct (getConnection_ok w Hs Hp) as (conn & Hget & Hquery & Hrelease).
  repeat split; intros e w1 H.
  - unfold get_all. in_handler Hget Hquery Hrelease. rewrite H. answered.
  - unfold get_one. in_handler Hget Hquery Hrelease. rewrite H. answered.
  - unfold post. in_handler Hget Hquery Hrelease. rewrite H. answered.
  - unfold put. in_handler Hget Hquery Hrelease. rewrite H. answered.
  - unfold delete_one. in_handler Hget Hquery Hrelease. rewrite H. answered.
Qed.

(** X11. With either backend configured and a connection at hand:
    [GET /] answers 200 with whatever the adapter returned for the list
    statement, an empty row set included; and, independently, [GET /:id]
    answers 200 with the first row of a row set that is not empty, leaving
    the other rows out.  The connection is released after the response. *)
Theorem get_answers_what_the_adapter_returned
    (r : resource) (req : request) (w : world) :
  supported →
  pool_connect (w_db w) = None →
  (∀ (q : qresult) (w1 : world),
     queryWrapper (list_sql r) None (acquired w) = (Return q, w1) →
     get_all r w = (Return (), after w1 [EvResponse 200 (BodyResult q); EvRelease]))
  ∧ (∀ (row : record) (others : list record) (w1 : world),
       queryWrapper (get_sql r) (Some (PArray [PVal (VStr (req_key req))]))
         (acquired w)
       = (Return (QRows (row :: others)), w1) →
       get_one r req w
       = (Return (), after w1 [EvResponse 200 (BodyObject row); EvRelease])).
Proof.
  intros Hs Hp.
  destruct (getConnection_ok w Hs Hp) as (conn & Hget & Hquery & Hrelease).
  split.
  - intros q w1 H. unfold get_all. in_handler Hget Hquery Hrelease.
    rewrite H. answered.
  - intros row others w1 H. unfold get_one. in_handler Hget Hquery Hrelease.
    rewrite H. answered.
Qed.


(** ** What every entry point sends *)

Lemma emits_release (P : event → bool) (conn : Connection) :
  release conn = emit EvRelease → P EvRelease = true →
  emits_only P (release conn).
Proof. intros -> HP. by apply emits_emit. Qed.

(** The frame of a handler adds the two pool events around the events of its
    body and of its [catch] block. *)
Lemma emits_framed (P : event → bool) (body : Connection → M unit)
    (handler : Connection → js_error → M unit) :
  P EvAcquire = true → P EvRelease = true →
  (∀ conn, query conn = queryWrapper → emits_only P (body conn)) →
  (∀ conn e, query conn = queryWrapper → emits_only P (handler conn e)) →
  emits_only P
    (getConnection ≫= λ connection,
       try_finally (try_catch (body connection) (handler connection))
         (release connection)).
Proof.
  intros Ha Hr Hbody Hhandler w. unfold mbind, M_bind.
  destruct (getConnection w) as [[conn|e] w1] eqn:Hget.
  - destruct (getConnection_inv _ _ _ Hget) as (Hquery & Hrelease & ->).
    destruct (emits_try_catch P (body conn) (handler conn)
                (Hbody conn Hquery) (λ e, Hhandler conn e Hquery)
                (World (w_db w) (w_heap w) (w_log w ++ [EvAcquire])))
      as (mid & Hlog & Hmid).
    unfold try_finally. rewrite Hrelease.
    destruct (try_catch (body conn) (handler conn) _) as [o w2].
    simpl in *. exists (EvAcquire :: mid ++ [EvRelease]). split.
    + rewrite Hlog. by rewrite <- !app_assoc.
    + simpl. rewrite Ha, forallb_app, Hmid. simpl. by rewrite Hr.
  - apply getConnection_throw in Hget as ->. exists []. split; [| done].
    by rewrite app_nil_r.
Qed.

Lemma no_400_among (evs : list event) :
  forallb not_400 evs = true → ∀ b, (400, b) ∉ responses evs.
Proof.
  induction evs as [|e evs IH]; intros Hall b Hin; [by apply elem_of_nil in Hin |].
  simpl in Hall. apply andb_prop in Hall as [He Hall].
  destruct e as [| | |status b']; simpl in Hin; try by apply (IH Hall b).
  apply elem_of_cons in Hin as [[= <- <-]|Hin]; [done | by apply (IH Hall b)].
Qed.

(** X13. The import answers 400 exactly when the request has no file or the
    workbook has no sheet named [Datos]; it has then done nothing else: no
    connection was acquired and no statement sent. *)
Theorem upload_answers_400_exactly_without_a_sheet
    (req : upload_request) (w : world) :
  ∃ evs,
    w_log (upload req w).2 = w_log w ++ evs
    ∧ ((∃ b, (400, b) ∈ responses evs) ↔ sheet_rows req = None)
    ∧ (sheet_rows req = None →
       ∃ b, upload req w = (Return (), after w [EvResponse 400 b])).
Proof.
  unfold upload, sheet_rows. destruct (req_file req) as [workbook|].
  - destruct (workbook !! sheetName) as [jsonData|].
    + destruct (emits_framed not_400
                  (λ connection,
                     query connection "BEGIN" None ;;
                     process_rows connection jsonData ;;
                     query connection "COMMIT" None ;;
                     respond 200 (message_body upload_ok))
                  (λ connection err,
                     query connection "ROLLBACK" None ;;
                     console_error ;;
                     respond 500 (error_body upload_failed))
                  eq_refl eq_refl) with (w := w) as (evs & Hlog & Hall).
      * intros conn Hquery. rewrite Hquery.
        apply emits_bind; [by apply emits_queryWrapper |]. intros _.
        apply emits_bind; [by apply emits_process_rows |]. intros _.
        apply emits_bind; [by apply emits_queryWrapper |]. intros _.
        by apply emits_emit.
      * intros conn err Hquery. rewrite Hquery.
        apply emits_bind; [by apply emits_queryWrapper |]. intros _.
        apply emits_bind; [apply emits_ret |]. intros _.
        by apply emits_emit.
      * exists evs. split; [done |]. split; [| done]. split; [| done].
        intros [b Hb]. by destruct (no_400_among evs Hall b).
    + eexists. split; [reflexivity |]. split; [| by eexists].
      split; [done |]. intros _.
      eexists. simpl. by apply elem_of_cons; left.
  - eexists. split; [reflexivity |]. split; [| by eexists].
    split; [done |]. intros _.
    eexists. simpl. by apply elem_of_cons; left.
Qed.

(** ** One response, or none *)

Lemma responses_mute (evs : list event) :
  forallb not_response evs = true → responses evs = [].
Proof.
  induction evs as [|e evs IH]; [done |].
  destruct e; simpl; auto; done.
Qed.

Lemma settles_respond (status : nat) (b : body) : settles (respond status b).
Proof. intros w. by exists [EvResponse status b]. Qed.

Lemma settles_after_mute {A B : Type} (m : M A) (f : A → M B) :
  emits_only not_response m → (∀ a, settles (f a)) → settles (m ≫= f).
Proof.
  intros Hm Hf w. unfold mbind, M_bind.
  destruct (Hm w) as (evs & Hlog & Hmute).
  destruct (m w) as [[a|e] w1]; simpl in *.
  - destruct (Hf a w1) as (evs' & Hlog' & Hend).
    exists (evs ++ evs'). split.
    + rewrite Hlog', Hlog. by rewrite <- app_assoc.
    + by rewrite responses_app, (responses_mute evs Hmute).
  - exists evs. split; [done |]. by apply responses_mute.
Qed.

Lemma settles_try_catch {A : Type} (m : M A) (handler : js_error → M A) :
  settles m → (∀ e, settles (handler e)) → settles (try_catch m handler).
Proof.
  intros Hm Hh w. unfold try_catch.
  destruct (Hm w) as (evs & Hlog & Hend).
  destruct (m w) as [[a|e] w1]; simpl in *.
  - by exists evs.
  - destruct (Hh e w1) as (evs' & Hlog' & Hend').
    exists (evs ++ evs'). split.
    + rewrite Hlog', Hlog. by rewrite <- app_assoc.
    + by rewrite responses_app, Hend.
Qed.

Lemma settles_framed (body : Connection → M unit)
    (handler : Connection → js_error → M unit) :
  (∀ conn, query conn = queryWrapper → settles (body conn)) →
  (∀ conn e, query conn = queryWrapper → settles (handler conn e)) →
  settles
    (getConnection ≫= λ connection,
       try_finally (try_catch (body connection) (handler connection))
         (release connection)).
Proof.
  intros Hbody Hhandler w. unfold mbind, M_bind.
  destruct (getConnection w) as [[conn|e] w1] eqn:Hget.
  - destruct (getConnection_inv _ _ _ Hget) as (Hquery & Hrelease & ->).
    destruct (settles_try_catch (body conn) (handler conn)
                (Hbody conn Hquery) (λ e, Hhandler conn e Hquery)
                (World (w_db w) (w_heap w) (w_log w ++ [EvAcquire])))
      as (mid & Hlog & Hend).
    unfold try_finally. rewrite Hrelease.
    destruct (try_catch (body conn) (handler conn) _) as [o w2].
    simpl in *. exists (EvAcquire :: mid ++ [EvRelease]). split.
    + rewrite Hlog. by rewrite <- !app_assoc.
    + simpl. rewrite responses_app. simpl. by rewrite app_nil_r.
  - apply getConnection_throw in Hget as ->. exists []. split; [| done].
    by rewrite app_nil_r.
Qed.

(** X14. Every endpoint, from any world and on any backend, has sent
    exactly one response when its handler returns, and none when its
    handler throws. *)
Theorem every_handler_answers_once_or_throws (e : endpoint) :
  settles (serve e).
Proof.
  assert (Hq : ∀ sql ps, not_response (EvQuery sql ps) = true) by done.
  assert (Hcatch : ∀ text, settles (console_error ;; respond 500 (error_body text))).
  { intros text. apply settles_after_mute; [apply emits_ret |].
    intros _. apply settles_respond. }
  destruct e as [r|r req|r req|r req|r req|req]; simpl.
  - unfold get_all. apply settles_framed; [| by intros].
    intros conn Hquery. rewrite Hquery.
    apply settles_after_mute; [by apply emits_queryWrapper |].
    intros rows. apply settles_respond.
  - unfold get_one. apply settles_framed; [| by intros].
    intros conn Hquery. rewrite Hquery.
    apply settles_after_mute; [by apply emits_queryWrapper |].
    intros [[|row rows]|h]; apply settles_respond.
  - unfold post. apply settles_framed; [| by intros].
    intros conn Hquery. rewrite Hquery.
    apply settles_after_mute; [by apply emits_queryWrapper |]. intros q.
    apply settles_after_mute; [apply emits_destructure_first |]. intros result.
    apply settles_after_mute; [| intros reply; apply settles_respond].
    destruct (post_reply r); [apply emits_ret | |];
      (apply emits_bind; [apply emits_get_prop | intros id; apply emits_ret]).
  - unfold put. apply settles_framed; [| by intros].
    intros conn Hquery. rewrite Hquery.
    apply settles_after_mute; [by apply emits_queryWrapper |].
    intros _. apply settles_respond.
  - unfold delete_one. apply settles_framed; [| by intros].
    intros conn Hquery. rewrite Hquery.
    apply settles_after_mute; [by apply emits_queryWrapper |].
    intros _. apply settles_respond.
  - unfold upload. destruct (req_file req) as [workbook|];
      [| apply settles_respond].
    destruct (workbook !! sheetName) as [jsonData|]; [| apply settles_respond].
    apply settles_framed.
    + intros conn Hquery. rewrite Hquery.
      apply settles_after_mute; [by apply emits_queryWrapper |]. intros _.
      apply settles_after_mute; [by apply emits_process_rows |]. intros _.
      apply settles_after_mute; [by apply emits_queryWrapper |]. intros _.
      apply settles_respond.
    + intros conn err Hquery. rewrite Hquery.
      apply settles_after_mute; [by apply emits_queryWrapper |]. intros _.
      apply settles_after_mute; [apply emits_ret |]. intros _.
      apply settles_respond.
Qed.

(** ** How many statements a request sends *)

Lemma statements_app (a b : list event) :
  statements (a ++ b) = statements a ++ statements b.
Proof.
  induction a as [|e a IH]; [done |].
  destruct e; simpl; by rewrite ?IH.
Qed.

Lemma statements_silent (evs : list event) :
  forallb (λ e, negb (is_query e)) evs = true → statements evs = [].
Proof.
  induction evs as [|e evs IH]; [done |].
  destruct e; simpl; auto; done.
Qed.

Lemma at_most_mono {A : Type} (j k : nat) (m : M A) :
  (j ≤ k)%nat → at_most j m → at_most k m.
Proof.
  intros Hjk Hm w. destruct (Hm w) as (evs & Hlog & Hlen).
  exists evs. split; [done | lia].
Qed.

Lemma at_most_silent {A : Type} (m : M A) :
  emits_only (λ e, negb (is_query e)) m → at_most 0 m.
Proof.
  intros Hm w. destruct (Hm w) as (evs & Hlog & Hsilent).
  exists evs. split; [done |]. by rewrite statements_silent.
Qed.

Lemma at_most_ret {A : Type} (a : A) : at_most 0 (mret a).
Proof. intros w. exists []. by rewrite app_nil_r. Qed.

Lemma at_most_throw {A : Type} (e : js_error) : at_most 0 (throw (A:=A) e).
Proof. intros w. exists []. by rewrite app_nil_r. Qed.

Lemma at_most_bind {A B : Type} (j k : nat) (m : M A) (f : A → M B) :
  at_most j m → (∀ a, at_most k (f a)) → at_most (j + k) (m ≫= f).
Proof.
  intros Hm Hf w. unfold mbind, M_bind.
  destruct (Hm w) as (evs & Hlog & Hlen).
  destruct (m w) as [[a|e] w1]; simpl in *.
  - destruct (Hf a w1) as (evs' & Hlog' & Hlen').
    exists (evs ++ evs'). split.
    + rewrite Hlog', Hlog. by rewrite <- app_assoc.
    + rewrite statements_app, length_app. lia.
  - exists evs. split; [done | lia].
Qed.

Lemma at_most_try_catch {A : Type} (j k : nat) (m : M A) (handler : js_error → M A) :
  at_most j m → (∀ e, at_most k (handler e)) → at_most (j + k) (try_catch m handler).
Proof.
  intros Hm Hh w. unfold try_catch.
  destruct (Hm w) as (evs & Hlog & Hlen).
  destruct (m w) as [[a|e] w1]; simpl in *.
  - exists evs. split; [done | lia].
  - destruct (Hh e w1) as (evs' & Hlog' & Hlen').
    exists (evs ++ evs'). split.
    + rewrite Hlog', Hlog. by rewrite <- app_assoc.
    + rewrite statements_app, length_app. lia.
Qed.

Lemma at_most_queryWrapper (sql : string) (ps : option params) :
  at_most 1 (queryWrapper sql ps).
Proof.
  intros w. exists [EvQuery (wire_sql sql) ps].
  split; [apply queryWrapper_effect | done].
Qed.

Lemma at_most_respond (status : nat) (b : body) : at_most 0 (respond status b).
Proof. intros w. by exists [EvResponse status b]. Qed.

Section Connection.

Variable conn : Connection.
Hypothesis conn_query : query conn = queryWrapper.

Lemma at_most_getOrCreate (table uniqueField : string) (data : nat) :
  at_most 3 (getOrCreate conn table data uniqueField ≫= deref).
Proof.
  apply (at_most_bind 3 0); [| intros o; apply at_most_silent, emits_deref].
  unfold getOrCreate. rewrite conn_query.
  apply (at_most_try_catch 3 0).
  - apply (at_most_bind 0 3); [apply at_most_silent, emits_read |]. intros d.
    apply (at_most_bind 1 2); [apply at_most_queryWrapper |]. intros rows.
    destruct (first_row rows); [eapply at_most_mono, at_most_ret; lia |].
    apply (at_most_bind 1 1); [apply at_most_queryWrapper |]. intros result.
    apply (at_most_bind 0 1); [apply at_most_silent, emits_assign |]. intros _.
    apply (at_most_bind 0 1); [apply at_most_silent, emits_read |]. intros d2.
    apply (at_most_bind 1 0); [apply at_most_queryWrapper |]. intros rows2.
    destruct (first_row rows2); apply at_most_ret.
  - intros e. apply (at_most_bind 0 0); [apply at_most_ret | intros _; apply at_most_throw].
Qed.

Lemma at_most_upsert_practica (practicaData : record) (a b c : value) :
  at_most 2 (upsert_practica conn practicaData a b c).
Proof.
  unfold upsert_practica. rewrite conn_query.
  apply (at_most_bind 1 1); [apply at_most_queryWrapper |]. intros q.
  apply (at_most_bind 0 1); [apply at_most_silent, emits_destructure_first |].
  intros practicaRows.
  apply (at_most_bind 0 1); [apply at_most_silent, emits_get_prop |]. intros len.
  destruct (gt_zero len).
  - apply (at_most_bind 0 1); [apply at_most_silent, emits_get_prop |]. intros first.
    apply (at_most_bind 0 1); [apply at_most_silent, emits_scalar_id_practica |].
    intros id_practica.
    apply (at_most_bind 1 0); [apply at_most_queryWrapper | intros _; apply at_most_ret].
  - apply (at_most_bind 1 0); [apply at_most_queryWrapper | intros _; apply at_most_ret].
Qed.

Lemma at_most_process_row (row : record) : at_most 17 (process_row conn row).
Proof.
  unfold process_row.
  apply (at_most_bind 0 17); [apply at_most_silent, emits_alloc |]. intros l1.
  apply (at_most_bind 3 14); [apply at_most_getOrCreate |]. intros cargoContacto.
  apply (at_most_bind 0 14); [apply at_most_silent, emits_alloc |]. intros l2.
  apply (at_most_bind 3 11); [apply at_most_getOrCreate |]. intros contacto.
  apply (at_most_bind 0 11); [apply at_most_silent, emits_alloc |]. intros l3.
  apply (at_most_bind 3 8); [apply at_most_getOrCreate |]. intros empresa.
  apply (at_most_bind 0 8); [apply at_most_silent, emits_alloc |]. intros l4.
  apply (at_most_bind 3 5); [apply at_most_getOrCreate |]. intros programa.
  apply (at_most_bind 0 5); [apply at_most_silent, emits_alloc |]. intros l5.
  apply (at_most_bind 3 2); [apply at_most_getOrCreate |]. intros estudiante.
  apply at_most_upsert_practica.
Qed.

Lemma at_most_process_rows (jsonData : list record) :
  at_most (17 * length jsonData) (process_rows conn jsonData).
Proof.
  induction jsonData as [|row rest IH]; simpl; [apply at_most_ret |].
  eapply at_most_mono; [| apply (at_most_bind 17 (17 * length rest));
                           [apply at_most_process_row | intros _; apply IH]].
  lia.
Qed.

End Connection.

Lemma at_most_framed (j k : nat) (body : Connection → M unit)
    (handler : Connection → js_error → M unit) :
  (∀ conn, query conn = queryWrapper → at_most j (body conn)) →
  (∀ conn e, query conn = queryWrapper → at_most k (handler conn e)) →
  at_most (j + k)
    (getConnection ≫= λ connection,
       try_finally (try_catch (body connection) (handler connection))
         (release connection)).
Proof.
  intros Hbody Hhandler w. unfold mbind, M_bind.
  destruct (getConnection w) as [[conn|e] w1] eqn:Hget.
  - destruct (getConnection_inv _ _ _ Hget) as (Hquery & Hrelease & ->).
    destruct (at_most_try_catch j k (body conn) (handler conn)
                (Hbody conn Hquery) (λ e, Hhandler conn e Hquery)
                (World (w_db w) (w_heap w) (w_log w ++ [EvAcquire])))
      as (mid & Hlog & Hlen).
    unfold try_finally. rewrite Hrelease.
    destruct (try_catch (body conn) (handler conn) _) as [o w2].
    simpl in *. exists (EvAcquire :: mid ++ [EvRelease]). split.
    + rewrite Hlog. by rewrite <- !app_assoc.
    + simpl. rewrite statements_app, length_app. simpl. lia.
  - apply getConnection_throw in Hget as ->. exists []. split; [| simpl; lia].
    by rewrite app_nil_r.
Qed.

(** X15. No endpoint sends more statements than its budget: one for a
    CRUD handler, and for an import of [n] rows [17 * n + 3]. *)
Theorem no_endpoint_exceeds_its_statement_budget (e : endpoint) :
  at_most (statement_budget e) (serve e).
Proof.
  assert (Hcatch : ∀ text,
            at_most 0 (console_error ;; respond 500 (error_body text))).
  { intros text. apply (at_most_bind 0 0); [apply at_most_ret |].
    intros _. apply at_most_respond. }
  destruct e as [r|r req|r req|r req|r req|req]; simpl.
  - unfold get_all. apply (at_most_framed 1 0); [| by intros].
    intros conn Hquery. rewrite Hquery.
    apply (at_most_bind 1 0); [apply at_most_queryWrapper |].
    intros rows. apply at_most_respond.
  - unfold get_one. apply (at_most_framed 1 0); [| by intros].
    intros conn Hquery. rewrite Hquery.
    apply (at_most_bind 1 0); [apply at_most_queryWrapper |].
    intros [[|row rows]|h]; apply at_most_respond.
  - unfold post. apply (at_most_framed 1 0); [| by intros].
    intros conn Hquery. rewrite Hquery.
    apply (at_most_bind 1 0); [apply at_most_queryWrapper |]. intros q.
    apply (at_most_bind 0 0); [apply at_most_silent, emits_destructure_first |].
    intros result.
    apply (at_most_bind 0 0); [| intros reply; apply at_most_respond].
    destruct (post_reply r); [apply at_most_ret | |];
      (apply (at_most_bind 0 0);
       [apply at_most_silent, emits_get_prop | intros id; apply at_most_ret]).
  - unfold put. apply (at_most_framed 1 0); [| by intros].
    intros conn Hquery. rewrite Hquery.
    apply (at_most_bind 1 0); [apply at_most_queryWrapper |].
    intros _. apply at_most_respond.
  - unfold delete_one. apply (at_most_framed 1 0); [| by intros].
    intros conn Hquery. rewrite Hquery.
    apply (at_most_bind 1 0); [apply at_most_queryWrapper |].
    intros _. apply at_most_respond.
  - unfold upload, sheet_rows. destruct (req_file req) as [workbook|];
      [| eapply at_most_mono, at_most_respond; lia].
    destruct (workbook !! sheetName) as [jsonData|];
      [| eapply at_most_mono, at_most_respond; lia].
    simpl. eapply at_most_mono;
      [| apply (at_most_framed (1 + (17 * length jsonData + 1)) 1)].
    + lia.
    + intros conn Hquery. rewrite Hquery.
      apply (at_most_bind 1 _); [apply at_most_queryWrapper |]. intros _.
      apply (at_most_bind _ 1); [by apply at_most_process_rows |]. intros _.
      apply (at_most_bind 1 0); [apply at_most_queryWrapper |]. intros _.
      apply at_most_respond.
    + intros conn err Hquery. rewrite Hquery.
      apply (at_most_bind 1 0); [apply at_most_queryWrapper |]. intros _.
      apply (at_most_bind 0 0); [apply at_most_ret |]. intros _.
      apply at_most_respond.
Qed.

(** ** The dates of the sheet *)

(** X16. The date of a cell that holds the integer serial [n] is [n - 25569]
    days after the epoch, in milliseconds, when that lies within a hundred
    million days of it, and an invalid date otherwise; a missing cell gives
    an invalid date as well, and nothing is thrown. *)
Theorem serial_to_date_counts_days_from_1970 (n : Z) :
  serial_to_date (VNum n)
  = VDate (if decide (-100000000 ≤ n - 25569 ≤ 100000000)%Z
           then Some ((n - 25569) * 86400000)%Z else None)
  ∧ serial_to_date VUndefined = VDate None.
Proof.
  split; [| done].
  unfold serial_to_date, new_Date. simpl.
  replace ((n - (25567 + 2)) * 86400 * 1000)%Z with ((n - 25569) * 86400000)%Z by lia.
  case_decide as Hn.
  - rewrite (proj2 (Z.leb_le _ _)); [done | lia].
  - rewrite (proj2 (Z.leb_gt _ _)); [done | lia].
Qed.

(** ** What reaches the driver *)

Section Sends.

Variable Q : string → Prop.
Hypothesis Q_wire : ∀ sql, Q (wire_sql sql).

Lemma sends_silent {A : Type} (m : M A) :
  emits_only (λ e, negb (is_query e)) m → sends Q m.
Proof.
  intros Hm w. destruct (Hm w) as (evs & Hlog & Hsilent).
  exists evs. split; [done |]. by rewrite statements_silent.
Qed.

Lemma sends_ret {A : Type} (a : A) : sends Q (mret a).
Proof. intros w. exists []. by rewrite app_nil_r. Qed.

Lemma sends_throw {A : Type} (e : js_error) : sends Q (throw (A:=A) e).
Proof. intros w. exists []. by rewrite app_nil_r. Qed.

Lemma sends_bind {A B : Type} (m : M A) (f : A → M B) :
  sends Q m → (∀ a, sends Q (f a)) → sends Q (m ≫= f).
Proof.
  intros Hm Hf w. unfold mbind, M_bind.
  destruct (Hm w) as (evs & Hlog & HQ).
  destruct (m w) as [[a|e] w1]; simpl in *.
  - destruct (Hf a w1) as (evs' & Hlog' & HQ').
    exists (evs ++ evs'). split.
    + rewrite Hlog', Hlog. by rewrite <- app_assoc.
    + rewrite statements_app. by apply Forall_app.
  - by exists evs.
Qed.

Lemma sends_try_catch {A : Type} (m : M A) (handler : js_error → M A) :
  sends Q m → (∀ e, sends Q (handler e)) → sends Q (try_catch m handler).
Proof.
  intros Hm Hh w. unfold try_catch.
  destruct (Hm w) as (evs & Hlog & HQ).
  destruct (m w) as [[a|e] w1]; simpl in *.
  - by exists evs.
  - destruct (Hh e w1) as (evs' & Hlog' & HQ').
    exists (evs ++ evs'). split.
    + rewrite Hlog', Hlog. by rewrite <- app_assoc.
    + rewrite statements_app. by apply Forall_app.
Qed.

Lemma sends_queryWrapper (sql : string) (ps : option params) :
  sends Q (queryWrapper sql ps).
Proof.
  intros w. exists [EvQuery (wire_sql sql) ps].
  split; [apply queryWrapper_effect |]. simpl. by apply Forall_singleton.
Qed.

Lemma sends_respond (status : nat) (b : body) : sends Q (respond status b).
Proof. intros w. by exists [EvResponse status b]. Qed.

Ltac sends_steps :=
  repeat first
    [ apply sends_queryWrapper
    | apply sends_respond
    | apply sends_ret
    | apply sends_throw
    | apply sends_silent, emits_read
    | apply sends_silent, emits_alloc
    | apply sends_silent, emits_assign
    | apply sends_silent, emits_deref
    | apply sends_silent, emits_destructure_first
    | apply sends_silent, emits_get_prop
    | apply sends_silent, emits_scalar_id_practica
    | apply sends_try_catch; [| intros ?]
    | apply sends_bind; [| intros ?]
    | match goal with |- sends _ (match ?x with _ => _ end) => destruct x end
    | match goal with |- sends _ (if ?x then _ else _) => destruct x end ].

Lemma sends_getOrCreate (conn : Connection) (table uniqueField : string) (data : nat) :
  query conn = queryWrapper →
  sends Q (getOrCreate conn table data uniqueField).
Proof. intros Hq. unfold getOrCreate, console_error. rewrite Hq. sends_steps. Qed.

Lemma sends_upsert_practica (conn : Connection) (practicaData : record)
    (a b c : value) :
  query conn = queryWrapper →
  sends Q (upsert_practica conn practicaData a b c).
Proof. intros Hq. unfold upsert_practica. rewrite Hq. sends_steps. Qed.

Lemma sends_process_row (conn : Connection) (row : record) :
  query conn = queryWrapper → sends Q (process_row conn row).
Proof.
  intros Hq. unfold process_row.
  repeat first
    [ by apply sends_upsert_practica
    | by apply sends_getOrCreate
    | apply sends_silent, emits_alloc
    | apply sends_silent, emits_deref
    | apply sends_bind; [| intros ?] ].
Qed.

Lemma sends_process_rows (conn : Connection) (jsonData : list record) :
  query conn = queryWrapper → sends Q (process_rows conn jsonData).
Proof.
  intros Hq. induction jsonData as [|row rest IH]; simpl; [apply sends_ret |].
  apply sends_bind; [by apply sends_process_row | by intros _].
Qed.

Lemma sends_framed (body : Connection → M unit)
    (handler : Connection → js_error → M unit) :
  (∀ conn, query conn = queryWrapper → sends Q (body conn)) →
  (∀ conn e, query conn = queryWrapper → sends Q (handler conn e)) →
  sends Q
    (getConnection ≫= λ connection,
       try_finally (try_catch (body connection) (handler connection))
         (release connection)).
Proof.
  intros Hbody Hhandler w. unfold mbind, M_bind.
  destruct (getConnection w) as [[conn|e] w1] eqn:Hget.
  - destruct (getConnection_inv _ _ _ Hget) as (Hquery & Hrelease & ->).
    destruct (sends_try_catch (body conn) (handler conn)
                (Hbody conn Hquery) (λ e, Hhandler conn e Hquery)
                (World (w_db w) (w_heap w) (w_log w ++ [EvAcquire])))
      as (mid & Hlog & HQ).
    unfold try_finally. rewrite Hrelease.
    destruct (try_catch (body conn) (handler conn) _) as [o w2].
    simpl in *. exists (EvAcquire :: mid ++ [EvRelease]). split.
    + rewrite Hlog. by rewrite <- !app_assoc.
    + simpl. rewrite statements_app. simpl. by rewrite app_nil_r.
  - apply getConnection_throw in Hget as ->. exists []. split; [| done].
    by rewrite app_nil_r.
Qed.

Lemma sends_serve (e : endpoint) : sends Q (serve e).
Proof.
  destruct e as [r|r req|r req|r req|r req|req]; simpl.
  1-5: unfold get_all, get_one, post, put, delete_one, console_error;
       apply sends_framed; intros; rewrite ?H; sends_steps.
  unfold upload, console_error. destruct (req_file req) as [workbook|];
    [| apply sends_respond].
  destruct (workbook !! sheetName) as [jsonData|]; [| apply sends_respond].
  apply sends_framed; intros conn; intros; rewrite ?H;
    repeat first
      [ by apply sends_process_rows
      | apply sends_queryWrapper
      | apply sends_respond
      | apply sends_ret
      | apply sends_bind; [| intros ?] ].
Qed.

End Sends.


(** X17. On postgres no statement of any endpoint reaches the driver with
    a question mark in it. *)
Theorem on_postgres_no_marker_reaches_the_driver (e : endpoint) :
  dbType = Some "postgres" → sends mark_free (serve e).
Proof.
  intros Hpg. apply sends_serve. intros sql.
  rewrite wire_sql_postgres by done. apply convert_mark_free.
Qed.

End Coverage.

(** * The further theorems at work on the scripted driver *)

Lemma convert_fixes_exactly_the_marker_free_witness :
  mark_free "COMMIT" ∧ convertQuestionMarksToDollarSigns "COMMIT" = "COMMIT".
Proof.
  split; [reflexivity |].
  exact (proj2 (convert_fixes_exactly_the_marker_free "COMMIT") eq_refl).
Defined.

Lemma pg_format_reads_the_offset_witness :
  ascii_only "a=" = true
  ∧ mark_free "a="
  ∧ mark_free EmptyString
  ∧ pg_format (backend := Mock.postgres) "a=?"
      (PArray [PVal (VStr "x"); PVal (VStr "y")])
    = "a=$y"
  ∧ pg_format (backend := Mock.postgres) "a=?" (PArray [PVal (VStr "x")])
    = "a=$undefined".
Proof.
  split; [reflexivity |]. split; [reflexivity |]. split; [reflexivity |].
  split.
  - exact (proj1 (proj2 (pg_format_reads_the_offset (backend := Mock.postgres)
                           "a=" EmptyString [PVal (VStr "x"); PVal (VStr "y")]
                           eq_refl eq_refl eq_refl))
             1 "y" eq_refl eq_refl).
  - refine (proj2 (proj2 (pg_format_reads_the_offset (backend := Mock.postgres)
                            "a=" EmptyString [PVal (VStr "x")]
                            eq_refl eq_refl eq_refl)) _).
    intros i Hi. injection Hi as <-. reflexivity.
Defined.

Lemma getOrCreate_sends_one_to_three_witness :
  getConnection (Scenario.start [] [])
  = (Return Scenario.connection, acquired (Scenario.start [] []))
  ∧ w_heap Scenario.brand_new !! 0 = Some Scenario.candidate
  ∧ ∃ rest,
      w_log (getOrCreate Scenario.connection "p_programa" 0 "nombre"
               Scenario.brand_new).2
      = EvQuery Scenario.select_programa None :: rest
      ∧ (length rest ≤ 2)%nat
      ∧ forallb is_query rest = true.
Proof.
  split; [reflexivity |]. split; [reflexivity |].
  exact (getOrCreate_sends_one_to_three (backend := Mock.mysql)
           (Scenario.start [] []) (acquired (Scenario.start [] []))
           Scenario.connection "p_programa" "nombre" 0 Scenario.brand_new
           Scenario.candidate eq_refl eq_refl).
Defined.

Lemma getOrCreate_rethrows_the_drivers_error_witness :
  getConnection (Scenario.start [] [])
  = (Return Scenario.connection, acquired (Scenario.start [] []))
  ∧ w_heap Case.select_fails !! 0 = Some Scenario.candidate
  ∧ (getOrCreate Scenario.connection "p_programa" 0 "nombre" Case.select_fails).1
    = Throw (DriverError "Deadlock found")
  ∧ ∃ earlier sql db,
      w_log (getOrCreate Scenario.connection "p_programa" 0 "nombre"
               Case.select_fails).2
      = earlier ++ [EvQuery sql None]
      ∧ (Mock.next_reply db sql None).1 = inl (DriverError "Deadlock found").
Proof.
  split; [reflexivity |]. split; [reflexivity |]. split; [reflexivity |].
  exact (getOrCreate_rethrows_the_drivers_error (backend := Mock.mysql)
           (Scenario.start [] []) (acquired (Scenario.start [] []))
           Scenario.connection "p_programa" "nombre" 0 Case.select_fails
           Scenario.candidate (DriverError "Deadlock found")
           eq_refl eq_refl eq_refl).
Defined.

Lemma getOrCreate_touches_only_id_witness :
  getConnection (Scenario.start [] [])
  = (Return Scenario.connection, acquired (Scenario.start [] []))
  ∧ w_heap Scenario.brand_new !! 0 = Some Scenario.candidate
  ∧ ∃ d', w_heap (getOrCreate Scenario.connection "p_programa" 0 "nombre"
                    Scenario.brand_new).2 !! 0 = Some d'
          ∧ ∀ k, k ≠ "id" → d' !! k = Scenario.candidate !! k.
Proof.
  split; [reflexivity |]. split; [reflexivity |].
  exact (proj2 (proj2 (getOrCreate_touches_only_id (backend := Mock.mysql)
                         (Scenario.start [] []) (acquired (Scenario.start [] []))
                         Scenario.connection "p_programa" "nombre" 0
                         Scenario.brand_new Scenario.candidate
                         eq_refl eq_refl))).
Defined.

Lemma getOrCreate_on_postgres_never_sends_the_key_witness :
  dbType (Backend := Mock.postgres) = Some "postgres"
  ∧ getConnection (@World Mock.postgres [] [] [])
    = (Return Scenario.pg_connection, acquired (@World Mock.postgres [] [] []))
  ∧ mark_free "p_programa"
  ∧ mark_free "nombre"
  ∧ w_heap Scenario.pg_rejects !! 0 = Some Scenario.candidate
  ∧ ∃ rest,
      w_log (getOrCreate Scenario.pg_connection "p_programa" 0 "nombre"
               Scenario.pg_rejects).2
      = EvQuery "SELECT * FROM p_programa WHERE nombre = $undefined" None :: rest.
Proof.
  split; [reflexivity |]. split; [reflexivity |]. split; [reflexivity |].
  split; [reflexivity |]. split; [reflexivity |].
  exact (getOrCreate_on_postgres_never_sends_the_key (backend := Mock.postgres)
           (@World Mock.postgres [] [] []) (acquired (@World Mock.postgres [] [] []))
           Scenario.pg_connection "p_programa" "nombre" 0 Scenario.pg_rejects
           Scenario.candidate eq_refl eq_refl eq_refl eq_refl eq_refl).
Defined.

Lemma unsupported_backend_leaves_the_request_unanswered_witness :
  ¬ supported (backend := Mock.unsupported)
  ∧ needs_connection (GetAll programa) = true
  ∧ serve (GetAll programa) Case.sqlite_world
    = (Throw (Error "Tipo de base de datos no soportada"), Case.sqlite_world).
Proof.
  assert (Hs : ¬ supported (backend := Mock.unsupported)).
  { intros [H|H]; discriminate H. }
  split; [exact Hs |]. split; [reflexivity |].
  exact (unsupported_backend_leaves_the_request_unanswered
           (backend := Mock.unsupported) (GetAll programa) Case.sqlite_world
           Hs eq_refl).
Defined.

Lemma pool_failure_leaves_the_request_unanswered_witness :
  supported (backend := Mock.exhausted)
  ∧ pool_connect (w_db Case.no_connection) = Some (DriverError "pool exhausted")
  ∧ needs_connection (Upload Scenario.one_row_upload) = true
  ∧ serve (Upload Scenario.one_row_upload) Case.no_connection
    = (Throw (DriverError "pool exhausted"), Case.no_connection).
Proof.
  split; [by left |]. split; [reflexivity |]. split; [reflexivity |].
  exact (pool_failure_leaves_the_request_unanswered (backend := Mock.exhausted)
           (Upload Scenario.one_row_upload) Case.no_connection
           (DriverError "pool exhausted") (or_introl eq_refl) eq_refl eq_refl).
Defined.

Lemma crud_statement_failure_answers_500_witness :
  supported (backend := Mock.down)
  ∧ pool_connect (w_db Case.server_down) = None
  ∧ get_all programa Case.server_down
    = (Return (),
       @World Mock.down () []
         [EvAcquire; EvQuery "SELECT * FROM p_programa" None;
          EvResponse 500
            (BodyObject {[ "error" := VStr "Error al obtener los programas." ]});
          EvRelease])
  ∧ delete_one programa Scenario.absent_request Case.server_down
    = (Return (),
       @World Mock.down () []
         [EvAcquire;
          EvQuery "DELETE FROM p_programa WHERE id_programa = ?"
            (Some (PArray [PVal (VStr "99")]));
          EvResponse 500
            (BodyObject {[ "error" := VStr "Error al eliminar el programa." ]});
          EvRelease]).
Proof.
  split; [by left |]. split; [reflexivity |].
  destruct (crud_statement_failure_answers_500 (backend := Mock.down)
              programa Scenario.absent_request Case.server_down
              (or_introl eq_refl) eq_refl) as (Hall & _ & _ & _ & Hdel).
  split.
  - exact (Hall (DriverError "server down")
             (@World Mock.down () []
                [EvAcquire; EvQuery "SELECT * FROM p_programa" None])
             eq_refl).
  - exact (Hdel (DriverError "server down")
             (@World Mock.down () []
                [EvAcquire;
                 EvQuery "DELETE FROM p_programa WHERE id_programa = ?"
                   (Some (PArray [PVal (VStr "99")]))])
             eq_refl).
Defined.

Lemma get_answers_what_the_adapter_returned_witness :
  supported (backend := Programs.mysql)
  ∧ pool_connect (w_db Case.program_stored) = None
  ∧ responses (w_log (get_all programa Case.program_stored).2)
    = [(200, BodyResult (QRows [Case.systems]))]
  ∧ responses (w_log (get_one programa (Request "7" ∅) Case.program_stored).2)
    = [(200, BodyObject Case.systems)].
Proof.
  split; [by left |]. split; [reflexivity |].
  destruct (get_answers_what_the_adapter_returned (backend := Programs.mysql)
              programa (Request "7" ∅) Case.program_stored
              (or_introl eq_refl) eq_refl) as (Hall & Hone).
  rewrite (Hall (QRows [Case.systems])
             (queryWrapper (list_sql programa) None
                (acquired Case.program_stored)).2 eq_refl).
  rewrite (Hone Case.systems []
             (queryWrapper (get_sql programa) (Some (PArray [PVal (VStr "7")]))
                (acquired Case.program_stored)).2 eq_refl).
  split; reflexivity.
Defined.


Lemma upload_answers_400_exactly_without_a_sheet_witness :
  sheet_rows (UploadRequest None) = None
  ∧ ∃ b, upload (UploadRequest None) (Scenario.start [] [])
         = (Return (), after (Scenario.start [] []) [EvResponse 400 b]).
Proof.
  split; [reflexivity |].
  destruct (upload_answers_400_exactly_without_a_sheet (backend := Mock.mysql)
              (UploadRequest None) (Scenario.start [] []))
    as (evs & _ & _ & Hnone).
  exact (Hnone eq_refl).
Defined.

Lemma on_postgres_no_marker_reaches_the_driver_witness :
  dbType (Backend := Mock.postgres) = Some "postgres"
  ∧ sends (backend := Mock.postgres) mark_free
      (serve (Upload Scenario.one_row_upload)).
Proof.
  split; [reflexivity |].
  exact (on_postgres_no_marker_reaches_the_driver (backend := Mock.postgres)
           (Upload Scenario.one_row_upload) eq_refl).
Defined.
